(** * Smart timetable: the generator page, the room, faculty and batch
      lists, the header, and the timetable generation engine

    Definitions first:
    - [JS]            the fragment of JavaScript values the pages handle;
    - [GeneratorPage] [handleGenerate], [clearResults], the progress effect
                      and the render conditions of
                      src/frontend/src/pages/GeneratorPage.js;
    - [Prim]          the string and array primitives of the list components;
    - [RoomList]      the room list component: filter and sort, type
                      options, selection, deletion, statistics;
    - [FacultyList]   src/frontend/src/components/FacultyList.js: filter,
                      sort and pagination, page buttons, selection,
                      deletion, export;
    - [BatchList]     the filter, sort and year options of the batch list;
    - [Header]        the header and what it keeps in localStorage;
    - [Stable]        a stable sort by a boolean order;
    - [Engine]        the generation engine behind POST /api/generate, whose
                      source is not in the repository: model builder, search,
                      evaluator and [generate], from the specification;
    - [Samples]       the inputs the theorems are tried on.
    Then the properties, in modules of facts per module of definitions. *)

From Stdlib Require Import ZArith List String Ascii Bool Lia Permutation Sorted.
From Stdlib Require Import DecimalString DecimalZ QArith.
From stdpp Require Import base option gmap strings list.
Import ListNotations.

Local Open Scope Z_scope.
Local Open Scope string_scope.

(* ===================================================================== *)
(** ** JavaScript values *)
(* ===================================================================== *)

Module JS.

(** The values a parsed JSON body or an error object can hold.  Numbers
    are the integers: every number the pages read is a count. *)
#[warnings="-register-all"]
Inductive value : Type :=
| Undefined
| Null
| Bool (b : bool)
| Num (n : Z)
| Str (s : string)
| Obj (fields : gmap string value).

(** ToBoolean. *)
Definition truthy (v : value) : bool :=
  match v with
  | Undefined | Null => false
  | Bool b => b
  | Num n => negb (n =? 0)%Z
  | Str s => negb (s =? "")%string
  | Obj _ => true
  end.

(** [a || b] *)
Definition or (a b : value) : value := if truthy a then a else b.

Definition nullish (v : value) : bool :=
  match v with Undefined | Null => true | _ => false end.

(** How an expression or a block completes. *)
Inductive completion (A : Type) : Type :=
| Normal (a : A)
| Throw (e : value).
Arguments Normal {A} a.
Arguments Throw {A} e.

Definition typeError : value := Obj {[ "name" := Str "TypeError" ]}.

(** Own property of an object; a primitive has none of the keys the
    pages read ("data", "schedule", "response", "error", "totalSlots",
    "assignedSlots", "conflicts"), which are on no prototype either. *)
Definition prop (v : value) (k : string) : value :=
  match v with
  | Obj fields => default Undefined (fields !! k)
  | _ => Undefined
  end.

(** [v.k]: reading a property of undefined or null throws. *)
Definition get (v : value) (k : string) : completion value :=
  if nullish v then Throw typeError else Normal (prop v k).

(** [v?.k] *)
Definition optGet (v : value) (k : string) : value :=
  if nullish v then Undefined else prop v k.

End JS.

(* ===================================================================== *)
(** ** The generator page *)
(* ===================================================================== *)

Module GeneratorPage.
Import JS.

Record Stats : Type := {
  generationTime : Z;
  totalSlots : value;
  assignedSlots : value;
  conflicts : value
}.

(** The four pieces of component state [handleGenerate] writes. *)
Record State : Type := {
  timetable : value;
  isLoading : bool;
  error : value;
  generationStats : option Stats      (* None is null *)
}.

Definition setTimetable (v : value) (s : State) : State :=
  {| timetable := v; isLoading := isLoading s; error := error s;
     generationStats := generationStats s |}.
Definition setIsLoading (b : bool) (s : State) : State :=
  {| timetable := timetable s; isLoading := b; error := error s;
     generationStats := generationStats s |}.
Definition setError (v : value) (s : State) : State :=
  {| timetable := timetable s; isLoading := isLoading s; error := v;
     generationStats := generationStats s |}.
Definition setGenerationStats (g : option Stats) (s : State) : State :=
  {| timetable := timetable s; isLoading := isLoading s; error := error s;
     generationStats := g |}.

(** State and exceptions: a block transforms the component state and
    completes normally or by a throw; the writes made before a throw stay. *)
Definition M (A : Type) : Type := State -> completion A * State.

Definition ret {A} (a : A) : M A := fun s => (Normal a, s).
Definition bind {A B} (m : M A) (k : A -> M B) : M B :=
  fun s => match m s with
           | (Normal a, s') => k a s'
           | (Throw e, s') => (Throw e, s')
           end.
Definition lift {A} (c : completion A) : M A := fun s => (c, s).
Definition modify (f : State -> State) : M unit := fun s => (Normal tt, f s).
Definition tryCatch {A} (body : M A) (handler : value -> M A) : M A :=
  fun s => match body s with
           | (Normal a, s') => (Normal a, s')
           | (Throw e, s') => handler e s'
           end.
Definition finally {A} (body : M A) (cleanup : M unit) : M A :=
  fun s => match body s with
           | (c, s') => match cleanup s' with
                        | (Normal _, s'') => (c, s'')
                        | (Throw e, s'') => (Throw e, s'')
                        end
           end.

#[local] Instance M_ret : MRet M := @ret.
#[local] Instance M_bind : MBind M := fun A B k m => bind m k.

(** How the promise of [axios.post] settles. *)
Inductive settled : Type :=
| Fulfilled (response : value)
| Rejected (err : value).

Definition await (p : settled) : M value :=
  match p with
  | Fulfilled response => ret response
  | Rejected err => lift (Throw err)
  end.

Definition fallbackMessage : string := "An error occurred during generation.".

(** Math.round((endTime - startTime) / 1000), on integer milliseconds:
    rounding to nearest, halves up. *)
Definition roundSeconds (startTime endTime : Z) : Z :=
  (endTime - startTime + 500) / 1000.

(** [startTime] and [endTime] are the two readings of Date.now(); [post]
    is the settled request. *)
Definition handleGenerate (startTime endTime : Z) (post : settled) : M unit :=
  modify (setIsLoading true) ;;
  modify (setError (Str "")) ;;
  modify (setTimetable Null) ;;
  modify (setGenerationStats None) ;;
  finally
    (tryCatch
       (response ← await post;
        data ← lift (get response "data");
        schedule ← lift (get data "schedule");
        modify (setTimetable schedule) ;;
        modify (setGenerationStats (Some {|
          generationTime := roundSeconds startTime endTime;
          totalSlots := or (optGet schedule "totalSlots") (Num 0);
          assignedSlots := or (optGet schedule "assignedSlots") (Num 0);
          conflicts := or (optGet schedule "conflicts") (Num 0) |})))
       (fun err =>
          response ← lift (get err "response");
          modify (setError
                    (or (optGet (optGet response "data") "error")
                        (Str fallbackMessage)))))
    (modify (setIsLoading false)).

Definition clearResults : M unit :=
  modify (setTimetable Null) ;;
  modify (setError (Str "")) ;;
  modify (setGenerationStats None).

(** The state the component is mounted with. *)
Definition initialState : State :=
  {| timetable := Null; isLoading := false; error := Str "";
     generationStats := None |}.

(** The three statistics keys. *)
Definition statKeys : list string := ["totalSlots"; "assignedSlots"; "conflicts"].

Definition stat (k : string) (g : Stats) : value :=
  if (k =? "totalSlots")%string then totalSlots g
  else if (k =? "assignedSlots")%string then assignedSlots g
  else conflicts g.

(** A field of the returned schedule as the response body has it: None
    when the field is missing or there is no schedule object. *)
Definition scheduleField (schedule : value) (k : string) : option value :=
  match schedule with
  | Obj fields => fields !! k
  | _ => None
  end.

(** The body of a failed response, and its error field when it has one. *)
Definition errorBody (err : value) : value := prop (prop err "response") "data".

Definition errorField (err : value) : option value :=
  match errorBody err with
  | Obj fields => fields !! "error"
  | _ => None
  end.

(** The state with no timetable and no statistics, not loading, and the
    given message. *)
Definition failed (message : value) : State :=
  {| timetable := Null; isLoading := false; error := message;
     generationStats := None |}.

(** *** What is rendered: the conditions of the JSX *)

(** (timetable || error) && ... *)
Definition showsClearButton (s : State) : bool :=
  truthy (or (timetable s) (error s)).

Definition showsLoading (s : State) : bool := isLoading s.

Definition showsError (s : State) : bool := truthy (error s).

(** timetable && !isLoading && ... *)
Definition showsSuccess (s : State) : bool :=
  truthy (timetable s) && negb (isLoading s).

Definition showsStats (s : State) : bool :=
  match generationStats s with Some _ => true | None => false end.

Definition showsResults (s : State) : bool := truthy (timetable s).

(** !timetable && !isLoading && !error && ... *)
Definition showsEmptyState (s : State) : bool :=
  negb (truthy (timetable s)) && negb (isLoading s) && negb (truthy (error s)).

(** *** The progress effect *)

Definition messages : list string :=
  [ "Initializing generation...";
    "Loading faculty data...";
    "Processing course requirements...";
    "Optimizing schedule conflicts...";
    "Finalizing timetable..." ].

(** [currentStep] is the local variable of the effect, the other two are
    component state. *)
Record Progress : Type := {
  currentStep : nat;
  loadingMessage : string;
  progress : Q
}.

(** What the effect starts from when [isLoading] turns true: the step is
    0, and the state is the initial one, which the effect restores each time
    [isLoading] turns false. *)
Definition idle : Progress :=
  {| currentStep := 0; loadingMessage := "Initializing..."; progress := 0%Q |}.

(** One run of the interval callback. *)
Definition tick (p : Progress) : Progress :=
  if (currentStep p <? length messages - 1)%nat
  then let step := S (currentStep p) in
       {| currentStep := step;
          loadingMessage := nth step messages "";
          progress := (inject_Z (Z.of_nat step)
                       / inject_Z (Z.of_nat (length messages - 1)) * 100)%Q |}
  else p.

(** The state after [n] seconds of loading. *)
Definition ticks (n : nat) : Progress := Nat.iter n tick idle.

End GeneratorPage.

(* ===================================================================== *)
(** ** Strings and arrays of the list components *)
(* ===================================================================== *)

Module Prim.

(** A string of the model is a sequence of UTF-16 code units below 256:
    the characters of Basic Latin and of the Latin-1 Supplement, U+0000 to
    U+00FF, one [ascii] each.  A character above U+00FF is not a character
    of the model.  A string literal of this file holds the bytes of its
    UTF-8 encoding, so a character above U+007F is written by its code. *)

(** String.prototype.toLowerCase on one code unit.  Below 256 the cased
    letters with a lower-case mapping are A to Z (65 to 90), the letters
    U+00C0 to U+00D6 (192 to 214) and U+00D8 to U+00DE (216 to 222); the
    lower-case letter is 32 further on; every other code unit, the
    multiplication sign U+00D7 included, is left as it is. *)
Definition toLowerCaseChar (c : ascii) : ascii :=
  let n := nat_of_ascii c in
  if ((65 <=? n)%nat && (n <=? 90)%nat)
     || ((192 <=? n)%nat && (n <=? 214)%nat)
     || ((216 <=? n)%nat && (n <=? 222)%nat)
  then ascii_of_nat (n + 32) else c.

Fixpoint toLowerCase (s : string) : string :=
  match s with
  | EmptyString => EmptyString
  | String c s' => String (toLowerCaseChar c) (toLowerCase s')
  end.

(** [s.includes(sub)]: [sub] starts at some position of [s]. *)
Fixpoint includes (s sub : string) : bool :=
  String.prefix sub s ||
  match s with
  | EmptyString => false
  | String _ s' => includes s' sub
  end.

(** Number.prototype.toString of an integer: its decimal numeral.  The
    numbers of the model are the integers the components are given as
    counts (capacity, strength, year, hours a week); JavaScript writes an
    integer below 10^21 in absolute value as this numeral, without an
    exponent. *)
Definition toString (n : Z) : string := NilZero.string_of_int (Z.to_int n).

(** parseInt of a decimal numeral; None is NaN. *)
Definition parseInt (s : string) : option Z :=
  Z.of_int <$> NilZero.int_of_string s.

(** What [a[sortBy]] evaluates to, and what the comparator turns it into. *)
Inductive key : Type :=
| KStr (s : string)
| KNum (n : Z)
| KNaN
| KUndefined.

Definition keyToLowerCase (k : key) : key :=
  match k with KStr s => KStr (toLowerCase s) | _ => k end.

(** parseInt(v): the argument is first turned into a string. *)
Definition keyParseInt (k : key) : key :=
  match k with
  | KStr s => match parseInt s with Some n => KNum n | None => KNaN end
  | KNum n => match parseInt (toString n) with Some n' => KNum n' | None => KNaN end
  | _ => KNaN
  end.

(** [a < b] on two values read from the same field: code-unit order on
    strings, numeric order on numbers, false as soon as one side is
    undefined or NaN. *)
Definition keyLt (a b : key) : bool :=
  match a, b with
  | KStr s, KStr t => String.ltb s t
  | KNum n, KNum m => (n <? m)%Z
  | _, _ => false
  end.

(** Array.prototype.sort with a comparator.  The sort is stable; an element
    stays before the ones the comparator does not put it after. *)
Fixpoint insert {A} (cmp : A -> A -> Z) (x : A) (l : list A) : list A :=
  match l with
  | [] => [x]
  | y :: l' => if (0 <? cmp x y)%Z then y :: insert cmp x l' else x :: y :: l'
  end.

Definition sort {A} (cmp : A -> A -> Z) (l : list A) : list A :=
  fold_right (insert cmp) [] l.

(** ToIntegerOrInfinity of an index argument followed by the clamping of
    Array.prototype.slice: a negative index counts from the end. *)
Definition clampIndex (len i : Z) : Z :=
  if (i <? 0)%Z then Z.max (len + i) 0 else Z.min i len.

(** [l.slice(start, end)] *)
Definition slice {A} (l : list A) (start end_ : Z) : list A :=
  let len := Z.of_nat (length l) in
  let k := clampIndex len start in
  let final := clampIndex len end_ in
  firstn (Z.to_nat (final - k)) (skipn (Z.to_nat k) l).

(** Math.ceil(a / b) for integers [a] and [b], [b] not 0. *)
Definition ceilDiv (a b : Z) : Z := - ((- a) / b).

(** The common tail of the comparators: -1, 1 or 0 by the two values and
    the sort order. *)
Definition compareKeys (sortOrder : string) (aValue bValue : key) : Z :=
  if keyLt aValue bValue then (if (sortOrder =? "asc")%string then -1 else 1)
  else if keyLt bValue aValue then (if (sortOrder =? "asc")%string then 1 else -1)
  else 0.

#[global] Instance key_eq_dec : EqDecision key := ltac:(solve_decision).

(** [sub] occurs in [s]. *)
Definition Contains (s sub : string) : Prop :=
  exists pre post : string, s = pre ++ sub ++ post.

(** *** Case, by the alphabet

    What "ignoring case" and "in lower case" mean, said with the letters
    themselves and without the primitive [toLowerCase]. *)

(** The upper-case letters, and at the same positions their lower-case
    letters: the 26 of Basic Latin, then the 30 of the Latin-1
    Supplement (U+00C0 to U+00DE without U+00D7, and U+00E0 to U+00FE
    without U+00F7). *)
Definition upperCaseLetters : list ascii :=
  list_ascii_of_string "ABCDEFGHIJKLMNOPQRSTUVWXYZ"
  ++ List.map ascii_of_nat
       [192; 193; 194; 195; 196; 197; 198; 199; 200; 201; 202; 203; 204; 205;
        206; 207; 208; 209; 210; 211; 212; 213; 214;
        216; 217; 218; 219; 220; 221; 222]%nat.

Definition lowerCaseLetters : list ascii :=
  list_ascii_of_string "abcdefghijklmnopqrstuvwxyz"
  ++ List.map ascii_of_nat
       [224; 225; 226; 227; 228; 229; 230; 231; 232; 233; 234; 235; 236; 237;
        238; 239; 240; 241; 242; 243; 244; 245; 246;
        248; 249; 250; 251; 252; 253; 254]%nat.

(** A letter in upper case with the same letter in lower case. *)
Definition letterPairs : list (ascii * ascii) :=
  combine upperCaseLetters lowerCaseLetters.

(** Two characters that are the same when case is ignored: the same
    character, or the two cases of one letter. *)
Definition SameLetter (c d : ascii) : Prop :=
  c = d \/ In (c, d) letterPairs \/ In (d, c) letterPairs.



(** Two strings that are the same when case is ignored. *)
Inductive EqualIgnoringCase : string -> string -> Prop :=
| EqualIgnoringCase_nil :
    EqualIgnoringCase EmptyString EmptyString
| EqualIgnoringCase_cons (c d : ascii) (s t : string) :
    SameLetter c d -> EqualIgnoringCase s t ->
    EqualIgnoringCase (String c s) (String d t).

(** [sub] occurs in [s] when case is ignored: a part of [s] is [sub] up
    to the case of its letters. *)
Definition ContainsIgnoringCase (s sub : string) : Prop :=
  exists pre mid post : string,
    s = pre ++ mid ++ post /\ EqualIgnoringCase mid sub.

(** A character in lower case: an upper-case letter gives its lower-case
    letter, any other character itself. *)
Definition lowerCaseOf (c : ascii) : ascii :=
  match List.find (fun p => Ascii.eqb (fst p) c) letterPairs with
  | Some p => snd p
  | None => c
  end.

(** A string in lower case. *)
Fixpoint inLowerCase (s : string) : string :=
  match s with
  | EmptyString => EmptyString
  | String c s' => String (lowerCaseOf c) (inLowerCase s')
  end.

(** A sort key with its string in lower case. *)
Definition keyInLowerCase (k : key) : key :=
  match k with KStr s => KStr (inLowerCase s) | _ => k end.

(** Every character of the model. *)
Definition allCharacters : list ascii := List.map ascii_of_nat (seq 0 256).

(** Two keys of one kind: the values of one field of two records. *)
Definition sameKind (a b : key) : Prop :=
  match a, b with
  | KStr _, KStr _ | KNum _, KNum _ | KUndefined, KUndefined => True
  | _, _ => False
  end.

(** The order two sort keys of one kind are in: code-unit order on strings,
    numeric order on numbers; a field no record has orders nothing. *)
Definition keyLe (a b : key) : Prop :=
  match a, b with
  | KStr s, KStr t => String.leb s t = true
  | KNum n, KNum m => (n <= m)%Z
  | KUndefined, KUndefined => True
  | _, _ => False
  end.

(** *** More primitives of the components *)

(** [...new Set(l)]: the elements of [l], each once, in the order of their
    first occurrence. *)
Fixpoint uniqueFrom {A} `{EqDecision A} (seen l : list A) : list A :=
  match l with
  | [] => []
  | x :: l' =>
      if bool_decide (x ∈ seen) then uniqueFrom seen l'
      else x :: uniqueFrom (x :: seen) l'
  end.

Definition unique {A} `{EqDecision A} (l : list A) : list A := uniqueFrom [] l.

(** The comparison [sort()] uses when it is given no comparator, on
    strings: code-unit order. *)
Definition defaultCompare (x y : string) : Z :=
  if String.ltb x y then -1 else if String.ltb y x then 1 else 0.

(** [prev.includes(id)] on an array of strings. *)
Definition arrayIncludes (l : list string) (id : string) : bool :=
  existsb (String.eqb id) l.

(** The updater of the selection toggles:
    prev.includes(id) ? prev.filter(x => x !== id) : [...prev, id] *)
Definition toggleSelect (prev : list string) (id : string) : list string :=
  if arrayIncludes prev id
  then List.filter (fun x => negb (x =? id)%string) prev
  else (prev ++ [id])%list.

(** Math.round(a / b) for integers [a] and [b], [b] positive: the nearest
    integer, halves up. *)
Definition roundDiv (a b : Z) : Z := (2 * a + b) / (2 * b).

(** [l.join(sep)] on an array of strings. *)
Fixpoint join (sep : string) (l : list string) : string :=
  match l with
  | [] => ""
  | [x] => x
  | x :: l' => x ++ sep ++ join sep l'
  end.

(** The number of occurrences of a character in a string. *)
Fixpoint countChar (c : ascii) (s : string) : nat :=
  match s with
  | EmptyString => 0
  | String d s' => (if Ascii.eqb c d then 1 else 0) + countChar c s'
  end.

(** What the state behind a delete dialog holds when it is not null: a
    record of the list, or the object made for a bulk deletion; the
    components read its _id and name only. *)
Record Target : Type := {
  targetId : string;
  targetName : string
}.

(** The delete prop as a component sees it: whether the promise of a call
    fulfils, given the calls made before it. *)
Definition Deleter : Type := list string -> string -> bool.

(** for (const id of ids) { await onDelete(id); }: the calls made, and
    whether the loop ran to its end; a rejected call ends it. *)
Fixpoint deleteEach (onDelete : Deleter) (calls ids : list string)
    : list string * bool :=
  match ids with
  | [] => (calls, true)
  | id :: rest =>
      if onDelete calls id then deleteEach onDelete (calls ++ [id])%list rest
      else ((calls ++ [id])%list, false)
  end.

End Prim.

(* ===================================================================== *)
(** ** The room list *)
(* ===================================================================== *)

Module RoomList.
Import Prim.

(** A room record of the rooms prop; the capacity is a number, an
    integer. *)
Record Room : Type := {
  _id : string;
  name : string;
  type : string;
  capacity : Z
}.

(** [room[sortBy]] *)
Definition field (room : Room) (sortBy : string) : key :=
  if (sortBy =? "name")%string then KStr (name room)
  else if (sortBy =? "type")%string then KStr (type room)
  else if (sortBy =? "capacity")%string then KNum (capacity room)
  else if (sortBy =? "_id")%string then KStr (_id room)
  else KUndefined.

Definition matchesSearch (searchTerm : string) (room : Room) : bool :=
  includes (toLowerCase (name room)) (toLowerCase searchTerm)
  || includes (toLowerCase (type room)) (toLowerCase searchTerm)
  || includes (toString (capacity room)) searchTerm.

Definition matchesType (filterType : string) (room : Room) : bool :=
  (filterType =? "")%string || (type room =? filterType)%string.

Definition compareRooms (sortBy sortOrder : string) (a b : Room) : Z :=
  let aValue := field a sortBy in
  let bValue := field b sortBy in
  let '(aValue, bValue) :=
    if (sortBy =? "name")%string || (sortBy =? "type")%string
    then (keyToLowerCase aValue, keyToLowerCase bValue)
    else if (sortBy =? "capacity")%string
    then (keyParseInt aValue, keyParseInt bValue)
    else (aValue, bValue) in
  compareKeys sortOrder aValue bValue.

Definition filteredAndSortedRooms
    (rooms : list Room) (searchTerm filterType sortBy sortOrder : string)
    : list Room :=
  let filtered :=
    List.filter (fun room => matchesSearch searchTerm room && matchesType filterType room)
                rooms in
  sort (compareRooms sortBy sortOrder) filtered.

(** The predicate of the filter. *)
Definition keep (searchTerm filterType : string) (room : Room) : bool :=
  matchesSearch searchTerm room && matchesType filterType room.

(** The rooms the search term and the type filter keep. *)
Definition Matches (searchTerm filterType : string) (room : Room) : Prop :=
  (ContainsIgnoringCase (name room) searchTerm
   \/ ContainsIgnoringCase (type room) searchTerm
   \/ Contains (toString (capacity room)) searchTerm)
  /\ (filterType <> "" -> type room = filterType).

(** The key a room is ordered by: name and type in lower case, capacity as
    a number, and any other field as it is. *)
Definition sortKey (sortBy : string) (room : Room) : key :=
  if (sortBy =? "name")%string then KStr (inLowerCase (name room))
  else if (sortBy =? "type")%string then KStr (inLowerCase (type room))
  else if (sortBy =? "capacity")%string then KNum (capacity room)
  else field room sortBy.

(** Ascending for "asc", descending otherwise. *)
Definition ordered (sortBy sortOrder : string) (a b : Room) : Prop :=
  if (sortOrder =? "asc")%string
  then keyLe (sortKey sortBy a) (sortKey sortBy b)
  else keyLe (sortKey sortBy b) (sortKey sortBy a).

(** *** The rest of the component: type options, sorting by a header,
    selection, deletion, statistics *)

(** [...new Set(rooms.map(room => room.type))].sort() *)
Definition roomTypes (rooms : list Room) : list string :=
  sort defaultCompare (unique (List.map type rooms)).

(** The state of the component that its handlers read and write. *)
Record UI : Type := {
  searchTerm : string;
  filterType : string;
  sortBy : string;
  sortOrder : string;
  selectedRooms : list string;
  showDeleteModal : bool;
  roomToDelete : option Target      (* None is null *)
}.

Definition initialUI : UI :=
  {| searchTerm := ""; filterType := ""; sortBy := "name"; sortOrder := "asc";
     selectedRooms := []; showDeleteModal := false; roomToDelete := None |}.

(** The list the component renders. *)
Definition shown (rooms : list Room) (ui : UI) : list Room :=
  filteredAndSortedRooms rooms (searchTerm ui) (filterType ui) (sortBy ui)
                         (sortOrder ui).

Definition handleSort (field : string) (ui : UI) : UI :=
  if (sortBy ui =? field)%string
  then {| searchTerm := searchTerm ui; filterType := filterType ui;
          sortBy := sortBy ui;
          sortOrder := if (sortOrder ui =? "asc")%string then "desc" else "asc";
          selectedRooms := selectedRooms ui;
          showDeleteModal := showDeleteModal ui; roomToDelete := roomToDelete ui |}
  else {| searchTerm := searchTerm ui; filterType := filterType ui;
          sortBy := field; sortOrder := "asc";
          selectedRooms := selectedRooms ui;
          showDeleteModal := showDeleteModal ui; roomToDelete := roomToDelete ui |}.

Definition setSelectedRooms (ids : list string) (ui : UI) : UI :=
  {| searchTerm := searchTerm ui; filterType := filterType ui;
     sortBy := sortBy ui; sortOrder := sortOrder ui;
     selectedRooms := ids;
     showDeleteModal := showDeleteModal ui; roomToDelete := roomToDelete ui |}.

Definition setModal (open : bool) (target : option Target) (ui : UI) : UI :=
  {| searchTerm := searchTerm ui; filterType := filterType ui;
     sortBy := sortBy ui; sortOrder := sortOrder ui;
     selectedRooms := selectedRooms ui;
     showDeleteModal := open; roomToDelete := target |}.

Definition toggleSelectRoom (roomId : string) (ui : UI) : UI :=
  setSelectedRooms (toggleSelect (selectedRooms ui) roomId) ui.

Definition selectAllRooms (rooms : list Room) (ui : UI) : UI :=
  if (length (selectedRooms ui) =? length (shown rooms ui))%nat
  then setSelectedRooms [] ui
  else setSelectedRooms (List.map _id (shown rooms ui)) ui.

Definition handleDeleteClick (room : Room) (ui : UI) : UI :=
  setModal true (Some {| targetId := _id room; targetName := name room |}) ui.

Definition handleBulkDelete (ui : UI) : UI :=
  if (0 <? length (selectedRooms ui))%nat
  then setModal true
         (Some {| targetId := "bulk";
                  targetName := toString (Z.of_nat (length (selectedRooms ui)))
                                ++ " rooms" |})
         ui
  else ui.

Definition cancelDelete (ui : UI) : UI := setModal false None ui.


(** What a run of [confirmDelete] leaves: the state, the calls of
    onDeleteRoom in order, and whether its promise fulfilled. *)
Record Outcome : Type := {
  after : UI;
  calls : list string;
  fulfilled : bool
}.

Definition confirmDelete (onDeleteRoom : Deleter) (ui : UI) : Outcome :=
  match roomToDelete ui with
  | None => {| after := ui; calls := []; fulfilled := true |}
  | Some target =>
      if (targetId target =? "bulk")%string
      then match deleteEach onDeleteRoom [] (selectedRooms ui) with
           | (made, true) =>
               {| after := setModal false None (setSelectedRooms [] ui);
                  calls := made; fulfilled := true |}
           | (made, false) => {| after := ui; calls := made; fulfilled := false |}
           end
      else if onDeleteRoom [] (targetId target)
      then {| after := setModal false None ui;
              calls := [targetId target]; fulfilled := true |}
      else {| after := ui; calls := [targetId target]; fulfilled := false |}
  end.

(** A number or NaN (None). *)
Definition addNumber (a b : option Z) : option Z :=
  match a, b with
  | Some x, Some y => Some (x + y)%Z
  | _, _ => None
  end.

Record Stats : Type := {
  total : nat;
  types : nat;
  totalCapacity : option Z;
  avgCapacity : option Z
}.

Definition stats (rooms : list Room) : Stats :=
  let totalCapacity :=
    fold_left (fun sum room => addNumber sum (parseInt (toString (capacity room))))
              rooms (Some 0%Z) in
  let avgCapacity :=
    if (0 <? length rooms)%nat
    then match totalCapacity with
         | Some t => Some (roundDiv t (Z.of_nat (length rooms)))
         | None => None
         end
    else Some 0%Z in
  {| total := length rooms;
     types := length (roomTypes rooms);
     totalCapacity := totalCapacity;
     avgCapacity := avgCapacity |}.

End RoomList.

(* ===================================================================== *)
(** ** The faculty list *)
(* ===================================================================== *)

Module FacultyList.
Import Prim.

(** A qualification is a string or an object with a name. *)
Inductive Qualification : Type :=
| QString (s : string)
| QObject (name : string).

Record Faculty : Type := {
  _id : string;
  name : string;
  email : string;
  phone : option string;
  qualifications : option (list Qualification);
  department : string;
  maxHoursPerWeek : Z
}.

Definition qualName (qual : Qualification) : string :=
  match qual with QString s => s | QObject n => n end.

Definition matchesSearch (searchTerm : string) (faculty : Faculty) : bool :=
  includes (toLowerCase (name faculty)) (toLowerCase searchTerm)
  || includes (toLowerCase (email faculty)) (toLowerCase searchTerm)
  || match phone faculty with
     | Some p => negb (p =? "")%string && includes p searchTerm
     | None => false
     end
  || match qualifications faculty with
     | Some quals =>
         existsb (fun qual =>
                    includes (toLowerCase (qualName qual)) (toLowerCase searchTerm))
                 quals
     | None => false
     end.

Definition matchesDepartment (filterDepartment : string) (faculty : Faculty) : bool :=
  (filterDepartment =? "")%string || (department faculty =? filterDepartment)%string.

(** [faculty[sortBy]] for the fields that hold a string or a number in
    every record; the component sorts by [sortKeys] only.  The phone
    (a string or undefined) and the arrays (qualifications, unavailability)
    are not keys of the model. *)
Definition field (faculty : Faculty) (sortBy : string) : key :=
  if (sortBy =? "name")%string then KStr (name faculty)
  else if (sortBy =? "department")%string then KStr (department faculty)
  else if (sortBy =? "email")%string then KStr (email faculty)
  else if (sortBy =? "maxHoursPerWeek")%string then KNum (maxHoursPerWeek faculty)
  else if (sortBy =? "_id")%string then KStr (_id faculty)
  else KUndefined.

Definition compareFaculties (sortBy sortOrder : string) (a b : Faculty) : Z :=
  let aValue := field a sortBy in
  let bValue := field b sortBy in
  let '(aValue, bValue) :=
    if (sortBy =? "name")%string || (sortBy =? "department")%string
       || (sortBy =? "email")%string
    then (keyToLowerCase aValue, keyToLowerCase bValue)
    else (aValue, bValue) in
  compareKeys sortOrder aValue bValue.

Definition filteredAndSortedFaculties
    (faculties : list Faculty) (searchTerm filterDepartment sortBy sortOrder : string)
    : list Faculty :=
  let filtered :=
    List.filter (fun faculty => matchesSearch searchTerm faculty
                                && matchesDepartment filterDepartment faculty)
                faculties in
  sort (compareFaculties sortBy sortOrder) filtered.

(** The state the pagination reads. *)
Record View : Type := {
  searchTerm : string;
  filterDepartment : string;
  sortBy : string;
  sortOrder : string;
  currentPage : Z;
  itemsPerPage : Z
}.

Definition filtered (faculties : list Faculty) (v : View) : list Faculty :=
  filteredAndSortedFaculties faculties (searchTerm v) (filterDepartment v)
                             (sortBy v) (sortOrder v).

Definition totalPages (faculties : list Faculty) (v : View) : Z :=
  ceilDiv (Z.of_nat (length (filtered faculties v))) (itemsPerPage v).

Definition startIndex (v : View) : Z := (currentPage v - 1) * itemsPerPage v.

Definition paginatedFaculties (faculties : list Faculty) (v : View) : list Faculty :=
  slice (filtered faculties v) (startIndex v) (startIndex v + itemsPerPage v).

(** The view showing page [p]. *)
Definition atPage (v : View) (p : Z) : View :=
  {| searchTerm := searchTerm v; filterDepartment := filterDepartment v;
     sortBy := sortBy v; sortOrder := sortOrder v;
     currentPage := p; itemsPerPage := itemsPerPage v |}.

(** The page numbers 1 .. totalPages. *)
Definition pageNumbers (faculties : list Faculty) (v : View) : list Z :=
  List.map Z.of_nat (seq 1 (Z.to_nat (totalPages faculties v))).

(** *** The rest of the component: department options, sorting by a
    header, the page buttons, selection, deletion, export *)

(** [...new Set(faculties.map(faculty => faculty.department))].sort() *)
Definition departments (faculties : list Faculty) : list string :=
  sort defaultCompare (unique (List.map department faculties)).

(** The predicate of the filter. *)
Definition keep (searchTerm filterDepartment : string) (faculty : Faculty) : bool :=
  matchesSearch searchTerm faculty && matchesDepartment filterDepartment faculty.

(** The faculty members the search term and the department filter keep:
    the name, the email or the name of a qualification contains the term
    when case is ignored, or the phone number contains it as it is. *)
Definition Matches (searchTerm filterDepartment : string) (faculty : Faculty)
    : Prop :=
  (ContainsIgnoringCase (name faculty) searchTerm
   \/ ContainsIgnoringCase (email faculty) searchTerm
   \/ (exists p, phone faculty = Some p /\ p <> "" /\ Contains p searchTerm)
   \/ (exists quals qual,
         qualifications faculty = Some quals /\ In qual quals
         /\ ContainsIgnoringCase (qualName qual) searchTerm))
  /\ (filterDepartment <> "" -> department faculty = filterDepartment).

(** The sort keys the component sets: the options of the sort select and
    the column headers. *)
Definition sortKeys : list string :=
  ["name"; "department"; "email"; "maxHoursPerWeek"].

(** The key a faculty member is ordered by: name, department and email in
    lower case, any other field as it is. *)
Definition sortKey (sortBy : string) (faculty : Faculty) : key :=
  if (sortBy =? "name")%string || (sortBy =? "department")%string
     || (sortBy =? "email")%string
  then keyInLowerCase (field faculty sortBy)
  else field faculty sortBy.

(** Ascending for "asc", descending otherwise. *)
Definition ordered (sortBy sortOrder : string) (a b : Faculty) : Prop :=
  if (sortOrder =? "asc")%string
  then keyLe (sortKey sortBy a) (sortKey sortBy b)
  else keyLe (sortKey sortBy b) (sortKey sortBy a).

Definition setSearchTerm (term : string) (v : View) : View :=
  {| searchTerm := term; filterDepartment := filterDepartment v;
     sortBy := sortBy v; sortOrder := sortOrder v;
     currentPage := currentPage v; itemsPerPage := itemsPerPage v |}.

Definition setFilterDepartment (dept : string) (v : View) : View :=
  {| searchTerm := searchTerm v; filterDepartment := dept;
     sortBy := sortBy v; sortOrder := sortOrder v;
     currentPage := currentPage v; itemsPerPage := itemsPerPage v |}.

Definition setItemsPerPage (n : Z) (v : View) : View :=
  {| searchTerm := searchTerm v; filterDepartment := filterDepartment v;
     sortBy := sortBy v; sortOrder := sortOrder v;
     currentPage := currentPage v; itemsPerPage := n |}.

Definition handleSort (field : string) (v : View) : View :=
  if (sortBy v =? field)%string
  then {| searchTerm := searchTerm v; filterDepartment := filterDepartment v;
          sortBy := sortBy v;
          sortOrder := if (sortOrder v =? "asc")%string then "desc" else "asc";
          currentPage := currentPage v; itemsPerPage := itemsPerPage v |}
  else {| searchTerm := searchTerm v; filterDepartment := filterDepartment v;
          sortBy := field; sortOrder := "asc";
          currentPage := currentPage v; itemsPerPage := itemsPerPage v |}.


(** The effect with the dependencies searchTerm, filterDepartment, sortBy
    and sortOrder: it runs after a render in which one of them changed, and
    sets the page to 1. *)
Definition resetPage (before after : View) : View :=
  if (searchTerm before =? searchTerm after)%string
     && (filterDepartment before =? filterDepartment after)%string
     && (sortBy before =? sortBy after)%string
     && (sortOrder before =? sortOrder after)%string
  then after
  else atPage after 1.

(** A handler, then the effects of the render it causes. *)
Definition event (handler : View -> View) (v : View) : View :=
  resetPage v (handler v).

(** The four page buttons; they are rendered when totalPages > 1. *)
Definition showsPagination (faculties : list Faculty) (v : View) : bool :=
  (1 <? totalPages faculties v)%Z.

Definition firstPage (v : View) : View := atPage v 1.

Definition previousPage (v : View) : View :=
  atPage v (Z.max 1 (currentPage v - 1)).

Definition nextPage (faculties : list Faculty) (v : View) : View :=
  atPage v (Z.min (totalPages faculties v) (currentPage v + 1)).

Definition lastPage (faculties : list Faculty) (v : View) : View :=
  atPage v (totalPages faculties v).

Record Notification : Type := {
  message : string;
  type : string
}.

(** The state behind selection and deletion. *)
Record UI : Type := {
  selectedFaculties : list string;
  showDeleteModal : bool;
  facultyToDelete : option Target;    (* None is null *)
  loading : bool;
  notification : option Notification  (* None is null *)
}.

Definition initialUI : UI :=
  {| selectedFaculties := []; showDeleteModal := false; facultyToDelete := None;
     loading := false; notification := None |}.

Definition setSelectedFaculties (ids : list string) (ui : UI) : UI :=
  {| selectedFaculties := ids; showDeleteModal := showDeleteModal ui;
     facultyToDelete := facultyToDelete ui; loading := loading ui;
     notification := notification ui |}.

Definition setModal (open : bool) (target : option Target) (ui : UI) : UI :=
  {| selectedFaculties := selectedFaculties ui; showDeleteModal := open;
     facultyToDelete := target; loading := loading ui;
     notification := notification ui |}.

Definition setLoading (b : bool) (ui : UI) : UI :=
  {| selectedFaculties := selectedFaculties ui;
     showDeleteModal := showDeleteModal ui;
     facultyToDelete := facultyToDelete ui; loading := b;
     notification := notification ui |}.

(** The notification is set; the timer that removes it three seconds
    later is another event. *)
Definition showNotification (message type : string) (ui : UI) : UI :=
  {| selectedFaculties := selectedFaculties ui;
     showDeleteModal := showDeleteModal ui;
     facultyToDelete := facultyToDelete ui; loading := loading ui;
     notification := Some {| message := message; type := type |} |}.

Definition toggleSelectFaculty (facultyId : string) (ui : UI) : UI :=
  setSelectedFaculties (toggleSelect (selectedFaculties ui) facultyId) ui.

(** The header checkbox: the faculty members of the page shown. *)
Definition selectAllFaculties (faculties : list Faculty) (v : View) (ui : UI) : UI :=
  if (length (selectedFaculties ui)
      =? length (paginatedFaculties faculties v))%nat
  then setSelectedFaculties [] ui
  else setSelectedFaculties (List.map _id (paginatedFaculties faculties v)) ui.

(** Ctrl+A or Cmd+A: the faculty members of all pages. *)
Definition selectAllShortcut (faculties : list Faculty) (v : View) (ui : UI) : UI :=
  if (length (selectedFaculties ui) =? length (filtered faculties v))%nat
  then setSelectedFaculties [] ui
  else setSelectedFaculties (List.map _id (filtered faculties v)) ui.

Definition handleDeleteClick (faculty : Faculty) (ui : UI) : UI :=
  setModal true (Some {| targetId := _id faculty; targetName := name faculty |}) ui.

Definition handleBulkDelete (ui : UI) : UI :=
  if (0 <? length (selectedFaculties ui))%nat
  then setModal true
         (Some {| targetId := "bulk";
                  targetName := toString (Z.of_nat (length (selectedFaculties ui)))
                                ++ " faculty members" |})
         ui
  else ui.

Definition cancelDelete (ui : UI) : UI := setModal false None ui.

(** What a run of [confirmDelete] leaves: the state, and the calls of
    onDelete in order.  Its promise always fulfils. *)
Record Outcome : Type := {
  after : UI;
  calls : list string
}.

Definition errorNotice : string := "Error deleting faculty member(s)".

(** The finally block. *)
Definition close (ui : UI) : UI := setModal false None (setLoading false ui).

Definition confirmDelete (onDelete : Deleter) (ui : UI) : Outcome :=
  match facultyToDelete ui with
  | None => {| after := ui; calls := [] |}
  | Some target =>
      let ui := setLoading true ui in
      if (targetId target =? "bulk")%string
      then match deleteEach onDelete [] (selectedFaculties ui) with
           | (made, true) =>
               {| after :=
                    close (showNotification
                             ("Successfully deleted "
                              ++ toString (Z.of_nat (length (selectedFaculties ui)))
                              ++ " faculty members")
                             "success"
                             (setSelectedFaculties [] ui));
                  calls := made |}
           | (made, false) =>
               {| after := close (showNotification errorNotice "error" ui);
                  calls := made |}
           end
      else if onDelete [] (targetId target)
      then {| after := close (showNotification
                                ("Successfully deleted " ++ targetName target)
                                "success" ui);
              calls := [targetId target] |}
      else {| after := close (showNotification errorNotice "error" ui);
              calls := [targetId target] |}
  end.

(** [s || 'N/A'] on a string. *)
Definition orNA (s : string) : string := if (s =? "")%string then "N/A" else s.

Definition exportHeader : list string :=
  ["Name"; "Department"; "Email"; "Phone"; "Max Hours/Week"; "Qualifications"].

(** Object.values of the object made for a faculty member, as join turns
    them into strings. *)
Definition exportRow (faculty : Faculty) : list string :=
  [ name faculty;
    department faculty;
    email faculty;
    match phone faculty with Some p => orNA p | None => "N/A" end;
    toString (maxHoursPerWeek faculty);
    match qualifications faculty with
    | Some quals => orNA (join ", " (List.map qualName quals))
    | None => "N/A"
    end ].

Definition newline : string := String (ascii_of_nat 10) EmptyString.

(** The text of the file; Object.keys(dataToExport[0]) throws when there
    is no first row. *)
Definition csv (rows : list Faculty) : JS.completion string :=
  match rows with
  | [] => JS.Throw JS.typeError
  | _ :: _ =>
      JS.Normal (join newline
                   (join "," exportHeader
                    :: List.map (fun faculty => join "," (exportRow faculty)) rows))
  end.

(** The file written, when one is, and the state afterwards: the
    notification comes after the download. *)
Definition exportFaculties (faculties : list Faculty) (v : View) (ui : UI)
    : JS.completion string * UI :=
  match csv (filtered faculties v) with
  | JS.Normal text =>
      (JS.Normal text,
       showNotification "Faculty list exported successfully" "success" ui)
  | JS.Throw e => (JS.Throw e, ui)
  end.

End FacultyList.

(* ===================================================================== *)
(** ** The batch list *)
(* ===================================================================== *)

Module BatchList.
Import Prim.

Record Subject : Type := {
  subjectName : string
}.

(** A batch record of the batches prop; year and strength are numbers,
    integers. *)
Record Batch : Type := {
  _id : string;
  name : string;
  department : string;
  year : Z;
  strength : Z;
  subjects : list Subject
}.

(** [...new Set(batches.map(batch => batch.department))].sort() *)
Definition departments (batches : list Batch) : list string :=
  sort defaultCompare (unique (List.map department batches)).

(** [...new Set(batches.map(batch => batch.year))].sort((a, b) => b - a) *)
Definition years (batches : list Batch) : list Z :=
  sort (fun a b => b - a)%Z (unique (List.map year batches)).

Definition matchesSearch (searchTerm : string) (batch : Batch) : bool :=
  includes (toLowerCase (name batch)) (toLowerCase searchTerm)
  || includes (toLowerCase (department batch)) (toLowerCase searchTerm)
  || includes (toString (year batch)) searchTerm
  || existsb (fun subject =>
                includes (toLowerCase (subjectName subject)) (toLowerCase searchTerm))
             (subjects batch).

Definition matchesDepartment (filterDepartment : string) (batch : Batch) : bool :=
  (filterDepartment =? "")%string || (department batch =? filterDepartment)%string.

Definition matchesYear (filterYear : string) (batch : Batch) : bool :=
  (filterYear =? "")%string || (toString (year batch) =? filterYear)%string.

(** [batch[sortBy]] for the fields that hold a string or a number; the
    component sorts by [sortKeys] only.  The array of subjects is not a
    key of the model. *)
Definition field (batch : Batch) (sortBy : string) : key :=
  if (sortBy =? "name")%string then KStr (name batch)
  else if (sortBy =? "department")%string then KStr (department batch)
  else if (sortBy =? "year")%string then KNum (year batch)
  else if (sortBy =? "strength")%string then KNum (strength batch)
  else if (sortBy =? "_id")%string then KStr (_id batch)
  else KUndefined.

Definition compareBatches (sortBy sortOrder : string) (a b : Batch) : Z :=
  let aValue := field a sortBy in
  let bValue := field b sortBy in
  let '(aValue, bValue) :=
    if (sortBy =? "name")%string || (sortBy =? "department")%string
    then (keyToLowerCase aValue, keyToLowerCase bValue)
    else if (sortBy =? "year")%string || (sortBy =? "strength")%string
    then (keyParseInt aValue, keyParseInt bValue)
    else (aValue, bValue) in
  compareKeys sortOrder aValue bValue.

(** The predicate of the filter. *)
Definition keep (searchTerm filterDepartment filterYear : string) (batch : Batch)
    : bool :=
  matchesSearch searchTerm batch && matchesDepartment filterDepartment batch
  && matchesYear filterYear batch.

Definition filteredAndSortedBatches
    (batches : list Batch)
    (searchTerm filterDepartment filterYear sortBy sortOrder : string)
    : list Batch :=
  let filtered :=
    List.filter (fun batch => matchesSearch searchTerm batch
                              && matchesDepartment filterDepartment batch
                              && matchesYear filterYear batch)
                batches in
  sort (compareBatches sortBy sortOrder) filtered.

(** The batches the search term and the two filters keep: the name, the
    department or the name of a subject contains the term when case is
    ignored, or the numeral of the year contains it. *)
Definition Matches (searchTerm filterDepartment filterYear : string)
    (batch : Batch) : Prop :=
  (ContainsIgnoringCase (name batch) searchTerm
   \/ ContainsIgnoringCase (department batch) searchTerm
   \/ Contains (toString (year batch)) searchTerm
   \/ (exists subject,
         In subject (subjects batch)
         /\ ContainsIgnoringCase (subjectName subject) searchTerm))
  /\ (filterDepartment <> "" -> department batch = filterDepartment)
  /\ (filterYear <> "" -> toString (year batch) = filterYear).

(** The sort keys the component sets: the options of the sort select and
    the column headers. *)
Definition sortKeys : list string := ["name"; "department"; "year"; "strength"].

(** The key a batch is ordered by: name and department in lower case, year
    and strength as numbers, any other field as it is. *)
Definition sortKey (sortBy : string) (batch : Batch) : key :=
  if (sortBy =? "name")%string || (sortBy =? "department")%string
  then keyInLowerCase (field batch sortBy)
  else field batch sortBy.

(** Ascending for "asc", descending otherwise. *)
Definition ordered (sortBy sortOrder : string) (a b : Batch) : Prop :=
  if (sortOrder =? "asc")%string
  then keyLe (sortKey sortBy a) (sortKey sortBy b)
  else keyLe (sortKey sortBy b) (sortKey sortBy a).

End BatchList.

(* ===================================================================== *)
(** ** The header *)
(* ===================================================================== *)

Module Header.

Record State : Type := {
  isHidden : bool;
  hideMode : string
}.

(** localStorage: string keys, string values; getItem of a missing key is
    null (None). *)
Definition Storage : Type := gmap string string.

(** The state of useState before the mount effect has run. *)
Definition initialState : State := {| isHidden := false; hideMode := "slide" |}.

(** The mount effect. *)
Definition mount (storage : Storage) (s : State) : State :=
  let savedMode := storage !! "headerHideMode" in
  let savedState := bool_decide (storage !! "headerHidden" = Some "true") in
  {| isHidden := savedState;
     hideMode := match savedMode with
                 | Some mode => if (mode =? "")%string then hideMode s else mode
                 | None => hideMode s
                 end |}.

(** Boolean.prototype.toString *)
Definition boolToString (b : bool) : string := if b then "true" else "false".

Definition toggleHeader (w : State * Storage) : State * Storage :=
  let '(s, storage) := w in
  let newState := negb (isHidden s) in
  ({| isHidden := newState; hideMode := hideMode s |},
   <["headerHidden" := boolToString newState]> storage).

Definition handleModeChange (newMode : string) (w : State * Storage)
    : State * Storage :=
  let '(s, storage) := w in
  ({| isHidden := isHidden s; hideMode := newMode |},
   <["headerHideMode" := newMode]> storage).

Definition getHeaderClass (s : State) : string :=
  if negb (isHidden s) then ""
  else if (hideMode s =? "slide")%string then "slide-hidden"
  else if (hideMode s =? "fade")%string then "fade-hidden"
  else if (hideMode s =? "collapse")%string then "collapse-hidden"
  else if (hideMode s =? "minimize")%string then "minimize-hidden"
  else "slide-hidden".

(** What the user does to the header: the hide button or Ctrl+H, and the
    mode selector. *)
Inductive Event : Type :=
| Toggle
| ModeChange (newMode : string).

Definition handle (w : State * Storage) (e : Event) : State * Storage :=
  match e with
  | Toggle => toggleHeader w
  | ModeChange newMode => handleModeChange newMode w
  end.

(** The component mounted on a storage, then the events in order. *)
Definition session (storage : Storage) (events : list Event) : State * Storage :=
  fold_left handle events (mount storage initialState, storage).

(** The events that set a mode set one that is not the empty string. *)
Definition modesNamed (events : list Event) : Prop :=
  List.Forall (fun e => match e with
                        | Toggle => True
                        | ModeChange newMode => newMode <> ""
                        end) events.

(** The state is the one a mount on the storage gives. *)
Definition Persisted (w : State * Storage) : Prop :=
  mount (snd w) initialState = fst w.

End Header.

(* ===================================================================== *)
(** ** Stable sorting by a boolean order *)
(* ===================================================================== *)

Module Stable.

(** Insertion before the first element that [x] does not come after. *)
Fixpoint insertBy {A} (le : A -> A -> bool) (x : A) (l : list A) : list A :=
  match l with
  | [] => [x]
  | y :: l' => if le x y then x :: y :: l' else y :: insertBy le x l'
  end.

Definition sortBy {A} (le : A -> A -> bool) (l : list A) : list A :=
  fold_right (insertBy le) [] l.

(** Sorting on a numeric key, smallest first. *)
Definition sortOn {A} (key : A -> nat) (l : list A) : list A :=
  sortBy (fun x y => (key x <=? key y)%nat) l.

End Stable.

(* ===================================================================== *)
(** ** The timetable generation engine *)
(* ===================================================================== *)

Module Engine.

Local Open Scope nat_scope.

(** The engine answers POST /api/generate; its source is not among the
    files of the repository at hand, which hold its caller (the generator
    page) only.  Every definition of this module up to [primary] is
    therefore written from the words of the specification, and says so. *)

(** *** Data model (spec, section 3) *)

(** Modelled from the spec: the Faculty entity (name, department, set of
    qualified subjects, maximum teaching hours a week, set of unavailable
    (day, slot) pairs).  The identifier is the key of the entity in the
    snapshot. *)
Record Faculty : Type := {
  facultyName : string;
  facultyDepartment : string;
  qualifiedSubjects : gset nat;
  maxHoursPerWeek : nat;
  unavailability : gset (nat * nat)
}.

(** Modelled from the spec: the Subject entity (name, required sessions a
    week, session duration in slot units, the departments or batches it
    serves). *)
Record Subject : Type := {
  subjectName : string;
  sessionsPerWeek : nat;
  duration : nat;
  serves : list string
}.

(** Modelled from the spec: the type of a room (lecture, lab, hall). *)
Inductive RoomType : Type := Lecture | Lab | Hall.

(** Modelled from the spec: the Room entity (capacity, type, availability;
    the empty set is the default, always available). *)
Record Room : Type := {
  capacity : nat;
  roomType : RoomType;
  roomUnavailable : gset (nat * nat)
}.

(** Modelled from the spec: the Batch entity (department, year, strength,
    ordered required subjects). *)
Record Batch : Type := {
  batchDepartment : string;
  year : nat;
  strength : nat;
  requiredSubjects : list nat
}.

(** Modelled from the spec: the snapshot of entities a request is served
    from, each collection keyed by identifier, and the time grid of
    [days] x [slotsPerDay]. *)
Record Snapshot : Type := {
  faculties : gmap nat Faculty;
  subjects : gmap nat Subject;
  rooms : gmap nat Room;
  batches : gmap nat Batch;
  days : nat;
  slotsPerDay : nat
}.

(** Modelled from the spec: a session unit, one required occurrence of a
    (batch, subject) pair. *)
Record SessionUnit : Type := {
  unitBatch : nat;
  unitSubject : nat;
  unitIndex : nat
}.

(** Modelled from the spec: an assignment, the (session unit, faculty, room,
    day, slot) tuple; on the wire { batchId, subjectId, facultyId, roomId,
    day, slot }. *)
Record Assignment : Type := {
  unit : SessionUnit;
  facultyId : nat;
  roomId : nat;
  day : nat;
  slot : nat
}.

#[global] Instance SessionUnit_eq_dec : EqDecision SessionUnit.
Proof. solve_decision. Defined.
#[global] Instance Assignment_eq_dec : EqDecision Assignment.
Proof. solve_decision. Defined.

(** Modelled from the spec: the Schedule of the response boundary
    (section 6). *)
Record Schedule : Type := {
  assignments : list Assignment;
  totalSlots : nat;
  assignedSlots : nat;
  conflicts : nat
}.

(** Modelled from the spec: the options of [generate] (section 6), and the
    random seed of section 8.  The time limit is a duration, in units of the
    wall clock. *)
Record Options : Type := {
  maxAlternatives : nat;
  timeLimit : nat;
  backtrackBudget : nat;
  seed : nat
}.

(** Modelled from the spec: the three causes of a ModelError
    (section 4.1). *)
Inductive ModelError : Type :=
| NoQualifiedFaculty (subject : nat)
| NoSufficientRoom (batch : nat)
| UnknownSubject (batch subject : nat).

(** Modelled from the spec: Result<_, ModelError>. *)
Inductive Result (A : Type) : Type :=
| Ok (a : A)
| Err (e : ModelError).
Arguments Ok {A} a.
Arguments Err {A} e.

#[local] Instance Result_ret : MRet Result := @Ok.
#[local] Instance Result_bind : MBind Result :=
  fun A B k r => match r with Ok a => k a | Err e => Err e end.

(** Modelled from the spec: the typed model of section 4.1, that is the
    snapshot, the qualified-faculty-for-subject index, the
    capacity-sufficient-rooms-for-batch index and the session units in
    processing order. *)
Record Model : Type := {
  snapshot : Snapshot;
  qualifiedFaculty : gmap nat (list (nat * Faculty));
  sufficientRooms : gmap nat (list (nat * Room));
  units : list SessionUnit
}.

(** *** Occupancy and load *)

(** Modelled from the spec: the duration of a session of a subject. *)
Definition durationOf (snap : Snapshot) (sid : nat) : nat :=
  match subjects snap !! sid with
  | Some s => duration s
  | None => 0
  end.

(** Modelled from the spec: the assigned hours of a faculty, the sum of the
    durations of the sessions assigned to it (constraint 7). *)
Definition hoursOf (snap : Snapshot) (sched : list Assignment) (fid : nat) : nat :=
  sum_list_with
    (fun a => if decide (facultyId a = fid)
              then durationOf snap (unitSubject (unit a)) else 0)
    sched.

Definition sameTime (a : Assignment) (d s : nat) : bool :=
  bool_decide (day a = d) && bool_decide (slot a = s).

(** Modelled from the spec: the occupancy of a faculty, a room and a batch
    at a (day, slot), read off the committed assignments (what the
    occupancy indices of section 4.3 hold). *)
Definition facultyBusy (sched : list Assignment) (fid d s : nat) : bool :=
  existsb (fun a => bool_decide (facultyId a = fid) && sameTime a d s) sched.

Definition roomBusy (sched : list Assignment) (rid d s : nat) : bool :=
  existsb (fun a => bool_decide (roomId a = rid) && sameTime a d s) sched.

Definition batchBusy (sched : list Assignment) (bid d s : nat) : bool :=
  existsb (fun a => bool_decide (unitBatch (unit a) = bid) && sameTime a d s) sched.

(** *** Entity model builder (spec, section 4.1) *)

(** Modelled from the spec: the faculty qualified for a subject. *)
Definition qualifiedFor (snap : Snapshot) (sid : nat) : list (nat * Faculty) :=
  List.filter (fun p => bool_decide (sid ∈ qualifiedSubjects (snd p)))
              (map_to_list (faculties snap)).

(** Modelled from the spec: the rooms whose capacity is at least the
    strength of the batch, smallest sufficient capacity first. *)
Definition roomsFor (snap : Snapshot) (b : Batch) : list (nat * Room) :=
  Stable.sortOn (fun p => capacity (snd p))
    (List.filter (fun p => strength b <=? capacity (snd p))
                 (map_to_list (rooms snap))).

Definition isNil {A} (l : list A) : bool :=
  match l with [] => true | _ => false end.

(** Modelled from the spec: "a subject has no qualified faculty in the
    input set". *)
Definition checkQualified (idx : gmap nat (list (nat * Faculty))) : Result () :=
  match List.find (fun p => isNil (snd p)) (map_to_list idx) with
  | Some (sid, _) => Err (NoQualifiedFaculty sid)
  | None => Ok ()
  end.

(** Modelled from the spec: "a batch has a strength exceeding every room's
    capacity". *)
Definition checkRooms (idx : gmap nat (list (nat * Room))) : Result () :=
  match List.find (fun p => isNil (snd p)) (map_to_list idx) with
  | Some (bid, _) => Err (NoSufficientRoom bid)
  | None => Ok ()
  end.

(** Modelled from the spec: the (batch, subject) references of the
    snapshot. *)
Definition references (snap : Snapshot) : list (nat * nat) :=
  flat_map (fun p => List.map (fun sid => (fst p, sid)) (requiredSubjects (snd p)))
           (map_to_list (batches snap)).

(** Modelled from the spec: "a batch references a subject identifier not
    present". *)
Definition checkReferences (snap : Snapshot) : Result () :=
  match List.find (fun p => isNil (option_list (subjects snap !! snd p)))
                  (references snap) with
  | Some (bid, sid) => Err (UnknownSubject bid sid)
  | None => Ok ()
  end.

(** Modelled from the spec: a (batch, subject, required-count) triple
    expanded into its session units. *)
Definition expandUnits (snap : Snapshot) : list SessionUnit :=
  flat_map (fun p =>
              match subjects snap !! snd p with
              | Some s =>
                  List.map (fun i => {| unitBatch := fst p; unitSubject := snd p;
                                        unitIndex := i |})
                           (seq 0 (sessionsPerWeek s))
              | None => []
              end)
           (references snap).

(** *** Candidates of a session unit (spec, section 4.3) *)

(** Modelled from the spec: the time grid in (day, slot) order. *)
Definition grid (snap : Snapshot) : list (nat * nat) :=
  flat_map (fun d => List.map (fun s => (d, s)) (seq 0 (slotsPerDay snap)))
           (seq 0 (days snap)).

(** Modelled from the spec: what makes a (faculty, room, (day, slot))
    combination a candidate of a unit (section 4.3).  The faculty is
    available at the (day, slot), the room is available, and the
    (day, slot) is not yet used by this faculty, room or batch.  The weekly
    cap of the faculty, constraint 7, is not among the filters of section
    4.3: section 4.4 has it counted by the evaluator. *)
Definition feasible (snap : Snapshot) (sched : list Assignment) (u : SessionUnit)
    (fac : nat * Faculty) (room : nat * Room) (ds : nat * nat) : bool :=
  bool_decide (ds ∉ unavailability (snd fac))
  && bool_decide (ds ∉ roomUnavailable (snd room))
  && negb (facultyBusy sched (fst fac) (fst ds) (snd ds))
  && negb (roomBusy sched (fst room) (fst ds) (snd ds))
  && negb (batchBusy sched (unitBatch u) (fst ds) (snd ds)).

(** Modelled from the spec: the candidates of a unit in the stable
    tie-break order, faculty with the lowest assigned hours first, then the
    room with the smallest sufficient capacity, then the earliest
    (day, slot). *)
Definition candidatesIn (snap : Snapshot)
    (qual : gmap nat (list (nat * Faculty))) (suff : gmap nat (list (nat * Room)))
    (sched : list Assignment) (u : SessionUnit) : list Assignment :=
  flat_map (fun fac =>
    flat_map (fun room =>
      flat_map (fun ds =>
        if feasible snap sched u fac room ds
        then [ {| unit := u; facultyId := fst fac; roomId := fst room;
                  day := fst ds; slot := snd ds |} ]
        else [])
        (grid snap))
      (default [] (suff !! unitBatch u)))
    (Stable.sortOn (fun fac => hoursOf snap sched (fst fac))
                   (default [] (qual !! unitSubject u))).

Definition candidates (m : Model) : list Assignment -> SessionUnit -> list Assignment :=
  candidatesIn (snapshot m) (qualifiedFaculty m) (sufficientRooms m).

(** Modelled from the spec: the most-constrained-first order of the units,
    fewest (faculty, room, slot) combinations first; the sort is stable, so
    the order is a function of the snapshot. *)
Definition orderUnits (snap : Snapshot)
    (qual : gmap nat (list (nat * Faculty))) (suff : gmap nat (list (nat * Room)))
    (us : list SessionUnit) : list SessionUnit :=
  Stable.sortOn (fun u => length (candidatesIn snap qual suff [] u)) us.

(** Modelled from the spec: the typed model of a snapshot, indices
    computed once. *)
Definition modelOf (snap : Snapshot) : Model :=
  let qual := map_imap (fun sid _ => Some (qualifiedFor snap sid)) (subjects snap) in
  let suff := map_imap (fun _ b => Some (roomsFor snap b)) (batches snap) in
  {| snapshot := snap; qualifiedFaculty := qual; sufficientRooms := suff;
     units := orderUnits snap qual suff (expandUnits snap) |}.

(** Modelled from the spec: the Entity Model Builder, which fails with a
    ModelError on an unsatisfiable snapshot and returns the typed model
    otherwise. *)
Definition buildModel (snap : Snapshot) : Result Model :=
  let m := modelOf snap in
  checkQualified (qualifiedFaculty m) ;;
  checkRooms (sufficientRooms m) ;;
  checkReferences snap ;;
  Ok m.

(** *** Solution evaluator (spec, section 4.4) *)

(** Modelled from the spec: the violations of constraint 7, the faculty
    whose assigned hours exceed their weekly cap. *)
Definition capViolations (snap : Snapshot) (sched : list Assignment) : nat :=
  length (List.filter (fun p => maxHoursPerWeek (snd p) <? hoursOf snap sched (fst p))
                      (map_to_list (faculties snap))).

(** Modelled from the spec: the conflicts of a possibly partial assignment,
    the residual violations of constraint 7 and the unmet demand. *)
Definition conflictsOf (m : Model) (sched : list Assignment) : nat :=
  capViolations (snapshot m) sched + (length (units m) - length sched).

(** Modelled from the spec: the statistics of an assignment; totalSlots is
    the number of session units, assignedSlots the number of units with a
    committed assignment. *)
Definition evaluate (m : Model) (sched : list Assignment) : Schedule :=
  {| assignments := sched;
     totalSlots := length (units m);
     assignedSlots := length sched;
     conflicts := conflictsOf m sched |}.

(** *** Search engine (spec, section 4.3) *)

(** Modelled from the spec: an assigned session unit, with its commitment
    and the candidates of its order not yet tried. *)
Record Frame : Type := {
  frameUnit : SessionUnit;
  choice : Assignment;
  untried : list Assignment
}.

(** Modelled from the spec: the state of the search, the state machine over
    session units (Unassigned, Assigned, kept or backtracked). *)
Record Config : Type := {
  pending : list SessionUnit;         (* unassigned, in processing order *)
  retry : option (list Assignment);   (* candidates left for the head unit
                                         after a backtrack *)
  stack : list Frame;                 (* assigned, most recent first *)
  backtracks : nat;                   (* backtracks made so far *)
  steps : nat;                        (* transitions made so far *)
  best : list Assignment              (* best partial assignment so far *)
}.

Definition committed (c : Config) : list Assignment := List.map choice (stack c).

Definition initial (m : Model) : Config :=
  {| pending := units m; retry := None; stack := []; backtracks := 0;
     steps := 0; best := [] |}.

(** Modelled from the spec: the candidates the head unit [u] is tried with,
    its candidates in the tie-break order [order] when it is reached, the
    rest of them when the search has backtracked to it. *)
Definition pool (m : Model) (order : list Assignment -> list Assignment)
    (c : Config) (u : SessionUnit) : list Assignment :=
  match retry c with
  | Some l => l
  | None => order (candidates m (committed c) u)
  end.

(** Modelled from the spec: the best partial assignment is the one the
    evaluator counts the fewest conflicts for; the first found is kept among
    equals. *)
Definition better (m : Model) (new old : list Assignment) : bool :=
  conflictsOf m new <? conflictsOf m old.

(** Modelled from the spec: "on finding a feasible candidate, the assignment
    is committed [...]; the engine advances to the next session unit". *)
Definition commit (m : Model) (c : Config) (u : SessionUnit) (us : list SessionUnit)
    (a : Assignment) (rest : list Assignment) : Config :=
  let sched := a :: committed c in
  {| pending := us; retry := None;
     stack := {| frameUnit := u; choice := a; untried := rest |} :: stack c;
     backtracks := backtracks c; steps := S (steps c);
     best := if better m sched (best c) then sched else best c |}.

(** Modelled from the spec: "on exhausting candidates without success, the
    engine backtracks to the previous session unit, undoes its commitment,
    and retries with the next candidate in that unit's order". *)
Definition backtrack (c : Config) (fr : Frame) (stk : list Frame) : Config :=
  {| pending := frameUnit fr :: pending c; retry := Some (untried fr);
     stack := stk; backtracks := S (backtracks c); steps := S (steps c);
     best := best c |}.

(** Modelled from the spec: one transition of the search; None when it
    halts, because every unit is assigned, the search space is exhausted,
    or the backtrack budget is used up. *)
Definition step (m : Model) (order : list Assignment -> list Assignment)
    (budget : nat) (c : Config) : option Config :=
  match pending c with
  | [] => None
  | u :: us =>
      match pool m order c u with
      | a :: rest => Some (commit m c u us a rest)
      | [] =>
          match stack c with
          | [] => None
          | fr :: stk =>
              if backtracks c <? budget then Some (backtrack c fr stk) else None
          end
      end
  end.

(** Modelled from the spec: the search stopped by the clock after [ticks]
    transitions, unless it halts before; the configuration of that moment is
    final, and its best partial assignment is returned. *)
Fixpoint run (m : Model) (order : list Assignment -> list Assignment)
    (budget ticks : nat) (c : Config) : Config :=
  match ticks with
  | 0 => c
  | S t =>
      match step m order budget c with
      | Some c' => run m order budget t c'
      | None => c
      end
  end.

(** Modelled from the spec: the same machine as a transition relation. *)
Inductive Step (m : Model) (order : list Assignment -> list Assignment)
    (budget : nat) : Config -> Config -> Prop :=
| Step_commit c u us a rest :
    pending c = u :: us ->
    pool m order c u = a :: rest ->
    Step m order budget c (commit m c u us a rest)
| Step_backtrack c u us fr stk :
    pending c = u :: us ->
    pool m order c u = [] ->
    stack c = fr :: stk ->
    backtracks c < budget ->
    Step m order budget c (backtrack c fr stk).

(** Modelled from the spec: the configurations the search halts in. *)
Inductive Halted (m : Model) (order : list Assignment -> list Assignment)
    (budget : nat) : Config -> Prop :=
| Halted_complete c :
    pending c = [] -> Halted m order budget c
| Halted_exhausted c u us :
    pending c = u :: us -> pool m order c u = [] -> stack c = [] ->
    Halted m order budget c
| Halted_budget c u us :
    pending c = u :: us -> pool m order c u = [] -> budget <= backtracks c ->
    Halted m order budget c.

(** Modelled from the spec: a run of the search that the clock stops after
    [ticks] transitions at the latest, from a configuration to the final
    one. *)
Inductive Exec (m : Model) (order : list Assignment -> list Assignment)
    (budget : nat) : nat -> Config -> Config -> Prop :=
| Exec_timeout c :
    Exec m order budget 0 c c
| Exec_halt t c :
    Halted m order budget c -> Exec m order budget t c c
| Exec_step t c c' r :
    Step m order budget c c' -> Exec m order budget t c' r ->
    Exec m order budget (S t) c r.

(** *** Alternatives and the request (spec, sections 4.3 and 6) *)

Section Generate.

(** The soft-objective score, higher is better.  The spec names its three
    components and leaves their weights open: the engine is parametric
    in it. *)
Variable score : Snapshot -> list Assignment -> Z.

(** The perturbation of the tie-break order of a re-run, a function of the
    seed and of the number of the run.  The spec gives examples only: the
    engine is parametric in it. *)
Variable perturb : nat -> nat -> list Assignment -> list Assignment.

(** Modelled from the spec: run 0 is the search in the stable tie-break
    order; the re-runs are perturbed. *)
Definition orderOf (opts : Options) (i : nat) : list Assignment -> list Assignment :=
  match i with
  | 0 => fun l => l
  | S _ => perturb (seed opts) i
  end.

(** Modelled from the spec: the machine the request runs on.  The time
    limit is a wall-clock duration (sections 5 and 6), and how far a search
    gets in a duration is not decided by the snapshot or the options:
    [mach limit i] is the number of transitions the worker of run [i]
    completes before a time limit of [limit] stops it.  It may differ from
    one request to the next. *)
Definition Machine : Type := nat -> nat -> nat.

(** Modelled from the spec: run [i] of the search, an independent run from
    the initial configuration of the shared, immutable model (section 5:
    each worker has its own copy of the occupancy indices, and no mutable
    state crosses worker boundaries), stopped by the clock of the machine
    unless it halts before. *)
Definition search (mach : Machine) (m : Model) (opts : Options) (i : nat) : Config :=
  run m (orderOf opts i) (backtrackBudget opts) (mach (timeLimit opts) i)
      (initial m).

(** Modelled from the spec: the ranking of candidate schedules, complete or
    best first (fewer conflicts), and among equals the higher score. *)
Definition rankLe (snap : Snapshot) (a b : Schedule) : bool :=
  (conflicts a <? conflicts b)
  || ((conflicts a =? conflicts b)
      && (score snap (assignments b) <=? score snap (assignments a))%Z).

(** Modelled from the spec: equality of the assignment sets. *)
Definition sameAssignments (a b : Schedule) : bool :=
  forallb (fun x => bool_decide (x ∈ assignments b)) (assignments a)
  && forallb (fun x => bool_decide (x ∈ assignments a)) (assignments b).

Fixpoint dedupFrom (seen l : list Schedule) : list Schedule :=
  match l with
  | [] => []
  | x :: l' =>
      if existsb (sameAssignments x) seen then dedupFrom seen l'
      else x :: dedupFrom (x :: seen) l'
  end.

(** Modelled from the spec: "deduplicated by assignment-set equality". *)
Definition dedup (l : list Schedule) : list Schedule := dedupFrom [] l.

(** Modelled from the spec: the merge of the runs at the end, "score, sort,
    truncate to N". *)
Definition merge (snap : Snapshot) (n : nat) (l : list Schedule) : list Schedule :=
  firstn n (dedup (Stable.sortBy (rankLe snap) l)).

(** Modelled from the spec: the N distinct complete-or-best assignments.
    The results of the runs are merged at the end, by the caller, which
    holds them by the number of their run. *)
Definition alternatives (mach : Machine) (m : Model) (opts : Options)
    : list Schedule :=
  merge (snapshot m) (maxAlternatives opts)
        (List.map (fun i => evaluate m (best (search mach m opts i)))
                  (seq 0 (maxAlternatives opts))).

(** The response with the search cost spent on it, in transitions. *)
Record Response : Type := {
  result : Result (list Schedule);
  searchCost : nat
}.

(** Modelled from the spec: the request, model build first, and the search
    only when the model is built. *)
Definition generateMetered (mach : Machine) (snap : Snapshot) (opts : Options)
    : Response :=
  match buildModel snap with
  | Err e => {| result := Err e; searchCost := 0 |}
  | Ok m =>
      {| result := Ok (alternatives mach m opts);
         searchCost :=
           sum_list (List.map (fun i => steps (search mach m opts i))
                              (seq 0 (maxAlternatives opts))) |}
  end.

(** Modelled from the spec:
    generate(model, options) -> Result<Schedule[], ModelError>, on a
    machine. *)
Definition generate (mach : Machine) (snap : Snapshot) (opts : Options)
    : Result (list Schedule) :=
  result (generateMetered mach snap opts).


End Generate.


(** Modelled from the spec: a machine that completes [speed] transitions
    in a unit of time, whatever the run. *)
Definition constantSpeed (speed : nat) : Machine := fun limit _ => speed * limit.

(** Modelled from the spec: the primary schedule, the first of a
    response. *)
Definition primary (r : Result (list Schedule)) : option Schedule :=
  match r with
  | Ok (s :: _) => Some s
  | _ => None
  end.

(** *** The properties of schedules the claims are about *)

(** Hard constraints 4 to 6 for one assignment. *)
Definition Placed (snap : Snapshot) (a : Assignment) : Prop :=
  exists f r b,
    faculties snap !! facultyId a = Some f /\
    rooms snap !! roomId a = Some r /\
    batches snap !! unitBatch (unit a) = Some b /\
    strength b <= capacity r /\
    unitSubject (unit a) ∈ qualifiedSubjects f /\
    (day a, slot a) ∉ unavailability f.

(** Hard constraints 1 to 3: an assignment never meets an earlier one of
    its faculty, room or batch at its (day, slot). *)
Fixpoint NoClash (sched : list Assignment) : Prop :=
  match sched with
  | [] => True
  | a :: rest =>
      facultyBusy rest (facultyId a) (day a) (slot a) = false /\
      roomBusy rest (roomId a) (day a) (slot a) = false /\
      batchBusy rest (unitBatch (unit a)) (day a) (slot a) = false /\
      NoClash rest
  end.


(** Hard constraints 1 to 6, the ones checked during the search. *)
Definition Sound (snap : Snapshot) (sched : list Assignment) : Prop :=
  NoClash sched /\ Forall (Placed snap) sched.

(** What makes [a] a legal next assignment of unit [u] on top of [sched]. *)
Definition Feasible (snap : Snapshot) (sched : list Assignment)
    (u : SessionUnit) (a : Assignment) : Prop :=
  unit a = u /\
  Placed snap a /\
  facultyBusy sched (facultyId a) (day a) (slot a) = false /\
  roomBusy sched (roomId a) (day a) (slot a) = false /\
  batchBusy sched (unitBatch u) (day a) (slot a) = false.

(** The frames of a stack hold only legal assignments of their unit. *)
Fixpoint FramesOk (snap : Snapshot) (stk : list Frame) : Prop :=
  match stk with
  | [] => True
  | fr :: below =>
      Forall (Feasible snap (List.map choice below) (frameUnit fr))
             (choice fr :: untried fr)
      /\ FramesOk snap below
  end.

(** The invariant of the search. *)
Record Inv (m : Model) (c : Config) : Prop := {
  inv_frames : FramesOk (snapshot m) (stack c);
  inv_retry : forall l u us, retry c = Some l -> pending c = u :: us ->
                Forall (Feasible (snapshot m) (committed c) u) l;
  inv_count : length (committed c) + length (pending c) = length (units m);
  inv_best : Sound (snapshot m) (best c);
  inv_best_length : length (best c) <= length (units m)
}.

(** A tie-break order only rearranges the candidates it is given. *)
Definition Rearranges (order : list Assignment -> list Assignment) : Prop :=
  forall l a, In a (order l) -> In a l.

(** The three ways a snapshot is unsatisfiable at build time. *)
Definition SubjectWithoutFaculty (snap : Snapshot) : Prop :=
  exists sid s, subjects snap !! sid = Some s /\
    forall fid f, faculties snap !! fid = Some f -> sid ∉ qualifiedSubjects f.

Definition BatchWithoutRoom (snap : Snapshot) : Prop :=
  exists bid b, batches snap !! bid = Some b /\
    forall rid r, rooms snap !! rid = Some r -> capacity r < strength b.

Definition DanglingSubject (snap : Snapshot) : Prop :=
  exists bid b sid, batches snap !! bid = Some b /\
    In sid (requiredSubjects b) /\ subjects snap !! sid = None.

Definition Unsatisfiable (snap : Snapshot) : Prop :=
  SubjectWithoutFaculty snap \/ BatchWithoutRoom snap \/ DanglingSubject snap.

End Engine.

(* ===================================================================== *)
(** ** Sample inputs *)
(* ===================================================================== *)

Module Samples.

(** *** The generator page *)

Definition sampleResponse : JS.value :=
  JS.Obj {[ "status" := JS.Num 200;
            "data" := JS.Obj {[ "schedule" :=
                        JS.Obj {[ "totalSlots" := JS.Num 12;
                                  "assignedSlots" := JS.Num 0 ]} ]} ]}.

(** A failed response whose body carries an empty error string. *)
Definition emptyErrorResponse : JS.value :=
  JS.Obj {[ "response" :=
              JS.Obj {[ "status" := JS.Num 500;
                        "data" := JS.Obj {[ "error" := JS.Str "" ]} ]} ]}.

(** A fulfilled request whose body is the JSON null, and a body whose
    schedule has a conflicts field that is null. *)
Definition nullBodyResponse : JS.value :=
  JS.Obj {[ "status" := JS.Num 200; "data" := JS.Null ]}.

Definition nullFieldResponse : JS.value :=
  JS.Obj {[ "data" :=
    JS.Obj {[ "schedule" :=
      JS.Obj {[ "totalSlots" := JS.Num 12; "conflicts" := JS.Null ]} ]} ]}.

(** *** The list components *)

Definition sampleRooms : list RoomList.Room :=
  [ {| RoomList._id := "r1"; RoomList.name := "Main Hall";
       RoomList.type := "hall"; RoomList.capacity := 120 |};
    {| RoomList._id := "r2"; RoomList.name := "lab A";
       RoomList.type := "Lab"; RoomList.capacity := 30 |};
    {| RoomList._id := "r3"; RoomList.name := "Room 12";
       RoomList.type := "lecture"; RoomList.capacity := 60 |};
    {| RoomList._id := "r4"; RoomList.name := "LAB b";
       RoomList.type := "lab"; RoomList.capacity := 24 |} ].

(** The word ECOLE with an acute accent on its E (U+00C9), in upper case,
    and the same word in lower case (U+00E9). *)
Definition ecoleUpper : string := String (ascii_of_nat 201) "COLE".
Definition ecoleLower : string := String (ascii_of_nat 233) "cole".

Definition sampleFaculty (n : string) : FacultyList.Faculty :=
  {| FacultyList._id := n; FacultyList.name := n;
     FacultyList.email := n ++ "@x.org"; FacultyList.phone := None;
     FacultyList.qualifications := Some [FacultyList.QString "math"];
     FacultyList.department := "CS"; FacultyList.maxHoursPerWeek := 10 |}.

Definition sampleFaculties : list FacultyList.Faculty :=
  List.map sampleFaculty ["eve"; "Bob"; "dan"; "alice"; "Carl"].

Definition sampleView : FacultyList.View :=
  {| FacultyList.searchTerm := ""; FacultyList.filterDepartment := "CS";
     FacultyList.sortBy := "name"; FacultyList.sortOrder := "asc";
     FacultyList.currentPage := 2; FacultyList.itemsPerPage := 2 |}.

(** *** The engine *)

Import Engine.

Definition faculty (q : gset nat) (cap : nat) (off : gset (nat * nat)) : Faculty :=
  {| facultyName := "faculty"; facultyDepartment := "CS";
     qualifiedSubjects := q; maxHoursPerWeek := cap; unavailability := off |}.

Definition subject (n d : nat) : Subject :=
  {| subjectName := "subject"; sessionsPerWeek := n; duration := d; serves := ["CS"] |}.

Definition room (c : nat) : Room :=
  {| capacity := c; roomType := Lecture; roomUnavailable := ∅ |}.

Definition batch (n : nat) (subs : list nat) : Batch :=
  {| batchDepartment := "CS"; year := 1; strength := n; requiredSubjects := subs |}.

(** Batch 5 (90 students) takes subject 7, batch 6 (10 students) takes
    subject 8, a two-hour session; faculty 2 teaches both subjects but only
    two hours a week, faculty 1 teaches subject 7; one slot a week.  The
    unit of batch 5 comes first and its first candidate, faculty 2, leaves
    nobody for subject 8: the search has to backtrack once. *)
Definition sampleSnapshot : Snapshot :=
  {| faculties := {[ 1%nat := faculty {[ 7%nat ]} 10 ∅;
                     2%nat := faculty {[ 7%nat; 8%nat ]} 2 ∅ ]};
     subjects := {[ 7%nat := subject 1 1; 8%nat := subject 1 2 ]};
     rooms := {[ 3%nat := room 100; 4%nat := room 20; 5%nat := room 30 ]};
     batches := {[ 5%nat := batch 90 [7%nat]; 6%nat := batch 10 [8%nat] ]};
     days := 1; slotsPerDay := 1 |}.

(** Scenario A of the spec. *)
Definition scenarioA : Snapshot :=
  {| faculties := {[ 1%nat := faculty {[ 7%nat ]} 10 ∅ ]};
     subjects := {[ 7%nat := subject 2 1 ]};
     rooms := {[ 3%nat := room 40 ]};
     batches := {[ 5%nat := batch 30 [7%nat] ]};
     days := 5; slotsPerDay := 8 |}.

(** Scenario B of the spec: a batch of 50 and only a room of 40. *)
Definition scenarioB : Snapshot :=
  {| faculties := {[ 1%nat := faculty {[ 7%nat ]} 10 ∅ ]};
     subjects := {[ 7%nat := subject 2 1 ]};
     rooms := {[ 3%nat := room 40 ]};
     batches := {[ 5%nat := batch 50 [7%nat] ]};
     days := 5; slotsPerDay := 8 |}.

(** Scenario C of the spec: two batches, six sessions for the one
    qualified faculty, four slots. *)
Definition scenarioC : Snapshot :=
  {| faculties := {[ 1%nat := faculty {[ 7%nat ]} 10 ∅ ]};
     subjects := {[ 7%nat := subject 3 1 ]};
     rooms := {[ 3%nat := room 40 ]};
     batches := {[ 5%nat := batch 30 [7%nat]; 6%nat := batch 30 [7%nat] ]};
     days := 2; slotsPerDay := 2 |}.



(** A score that counts the days in use, and a perturbation that reverses
    the candidates of every other run. *)
Definition sampleScore (snap : Snapshot) (sched : list Assignment) : Z :=
  Z.of_nat (length (remove_dups (List.map day sched))).

Definition samplePerturb (seed i : nat) (l : list Assignment) : list Assignment :=
  if Nat.even (seed + i) then rev l else l.

Definition options (n limit budget : nat) : Options :=
  {| maxAlternatives := n; timeLimit := limit; backtrackBudget := budget; seed := 1 |}.

(** A machine that completes one transition in a unit of time, and one
    that completes three. *)
Definition sampleMachine : Machine := constantSpeed 1%nat.


Definition sampleOptions : Options := options 2 50 1.

Definition sampleSchedules : list Schedule :=
  Eval vm_compute in
    match generate sampleScore samplePerturb sampleMachine sampleSnapshot
                   sampleOptions with
    | Ok l => l
    | Err _ => []
    end.

Definition samplePrimary : Schedule :=
  Eval vm_compute in
    match sampleSchedules with
    | s :: _ => s
    | [] => evaluate (modelOf sampleSnapshot) []
    end.


End Samples.

(* ===================================================================== *)
(** ** Properties of the generator page *)
(* ===================================================================== *)

Module GeneratorPageFacts.
Import JS GeneratorPage Samples.

Lemma or_integer (n : Z) : or (Num n) (Num 0) = Num n.
Proof.
  unfold or; simpl. destruct (Z.eqb_spec n 0) as [->|]; reflexivity.
Qed.

Lemma optGet_scheduleField (schedule : value) (k : string) :
  optGet schedule k = default Undefined (scheduleField schedule k).
Proof. destruct schedule; reflexivity. Qed.

Lemma or_field (v : value) :
  or v (Num 0) = if truthy v then v else Num 0.
Proof. reflexivity. Qed.

(** C7, as amended: after a request that succeeded with a body (the
    fulfilled value and its data are not null or undefined), the recorded
    statistics are the totalSlots, assignedSlots and conflicts fields of the
    returned schedule, with 0 for a field that is missing or falsy (null,
    false, the empty string, 0 itself) and when the body has no schedule
    object; the timetable is the returned schedule.  After a request that
    succeeded with a null or undefined body no statistics are recorded: the
    timetable stays null and the fixed failure message is shown. *)
Theorem handleGenerate_records_stats
    (st : State) (startTime endTime : Z) (response : value) :
  let schedule := prop (prop response "data") "schedule" in
  let st' := snd (handleGenerate startTime endTime (Fulfilled response) st) in
  (nullish response = false -> nullish (prop response "data") = false ->
   timetable st' = schedule /\
   error st' = Str "" /\
   isLoading st' = false /\
   exists g, generationStats st' = Some g /\
     generationTime g = roundSeconds startTime endTime /\
     forall k, In k statKeys ->
       (forall n, scheduleField schedule k = Some (Num n) -> stat k g = Num n) /\
       (forall v, scheduleField schedule k = Some v -> truthy v = true ->
                  stat k g = v) /\
       (forall v, scheduleField schedule k = Some v -> truthy v = false ->
                  stat k g = Num 0) /\
       (scheduleField schedule k = None -> stat k g = Num 0))
  /\ (nullish response = true \/ nullish (prop response "data") = true ->
      generationStats st' = None /\
      timetable st' = Null /\
      error st' = Str fallbackMessage /\
      isLoading st' = false).
Proof.
  intros schedule st'. split.
  - intros Hresp Hdata.
    subst st'. unfold handleGenerate, finally, tryCatch, await, lift, modify.
    unfold mbind, M_bind, bind, ret, get. rewrite Hresp. simpl. rewrite Hdata.
    simpl. repeat split. eexists. split; [reflexivity|]. split; [reflexivity|].
    intros k Hk. fold schedule.
    assert (Hor : stat k {| generationTime := roundSeconds startTime endTime;
                            totalSlots := or (optGet schedule "totalSlots") (Num 0);
                            assignedSlots := or (optGet schedule "assignedSlots") (Num 0);
                            conflicts := or (optGet schedule "conflicts") (Num 0) |}
                  = or (default Undefined (scheduleField schedule k)) (Num 0)).
    { rewrite <- optGet_scheduleField. destruct Hk as [<-|[<-|[<-|[]]]]; reflexivity. }
    rewrite Hor, or_field. repeat split.
    + intros n ->. apply or_integer.
    + intros v -> Hv. simpl. by rewrite Hv.
    + intros v -> Hv. simpl. by rewrite Hv.
    + intros ->. reflexivity.
  - intros Hbody. subst st'.
    unfold handleGenerate, finally, tryCatch, await, lift, modify.
    unfold mbind, M_bind, bind, ret, get.
    destruct (nullish response) eqn:Hresp; simpl; [by repeat split|].
    destruct Hbody as [Hbody|Hbody]; [discriminate|].
    rewrite Hbody. simpl. by repeat split.
Qed.

Lemma handleGenerate_records_stats_witness :
  timetable (snd (handleGenerate 1000 3499 (Fulfilled sampleResponse) initialState))
  = prop (prop sampleResponse "data") "schedule" /\
  exists g,
    generationStats
      (snd (handleGenerate 1000 3499 (Fulfilled sampleResponse) initialState))
    = Some g /\
    stat "totalSlots" g = Num 12 /\ stat "assignedSlots" g = Num 0 /\
    stat "conflicts" g = Num 0.
Proof.
  destruct (handleGenerate_records_stats initialState 1000 3499 sampleResponse)
    as [Hbody _].
  destruct Hbody as (Ht & _ & _ & g & Hg & _ & Hk); [reflexivity | reflexivity |].
  split; [exact Ht|]. exists g. split; [exact Hg|].
  repeat split.
  - destruct (Hk "totalSlots") as (Hnum & _); [simpl; tauto|].
    apply Hnum. reflexivity.
  - destruct (Hk "assignedSlots") as (Hnum & _); [simpl; tauto|].
    apply Hnum. reflexivity.
  - destruct (Hk "conflicts") as (_ & _ & _ & Hnone); [simpl; tauto|].
    apply Hnone. reflexivity.
Defined.

(** C7 as stated fails.  A request that succeeded with a null body records
    no statistics at all; and a field that is present and null is recorded
    as 0, not as it is. *)
Lemma handleGenerate_records_stats_no_body :
  generationStats (snd (handleGenerate 0 0 (Fulfilled nullBodyResponse) initialState))
  = None
  /\ error (snd (handleGenerate 0 0 (Fulfilled nullBodyResponse) initialState))
     = Str fallbackMessage
  /\ scheduleField (prop (prop nullFieldResponse "data") "schedule") "conflicts"
     = Some Null
  /\ (exists g,
        generationStats
          (snd (handleGenerate 0 0 (Fulfilled nullFieldResponse) initialState))
        = Some g /\ stat "conflicts" g = Num 0)
  /\ ~ (forall (st : State) (t0 t1 : Z) (response : value),
          exists g,
            generationStats (snd (handleGenerate t0 t1 (Fulfilled response) st))
            = Some g
            /\ forall k, In k statKeys ->
                 stat k g
                 = default (Num 0)
                           (scheduleField (prop (prop response "data") "schedule") k)).
Proof.
  split; [reflexivity|]. split; [reflexivity|]. split; [reflexivity|].
  split; [eexists; split; reflexivity|].
  intros H. destruct (H initialState 0%Z 0%Z nullBodyResponse) as (g & Hg & _).
  vm_compute in Hg. discriminate Hg.
Qed.

(** C8, as amended: after a failed request the message shown is the error
    field of the response body when the body has one and it is truthy (for a
    string: not empty), and the fixed message otherwise; the timetable and
    the statistics stay null and the loading flag is cleared. *)
Theorem handleGenerate_failure
    (st : State) (startTime endTime : Z) (fields : gmap string value) :
  let err := Obj fields in
  let st' := snd (handleGenerate startTime endTime (Rejected err) st) in
  error st' = match errorField err with
              | Some v => if truthy v then v else Str fallbackMessage
              | None => Str fallbackMessage
              end /\
  timetable st' = Null /\
  generationStats st' = None /\
  isLoading st' = false.
Proof.
  intros err st'. subst st'.
  unfold handleGenerate, finally, tryCatch, await, lift, modify.
  unfold mbind, M_bind, bind, ret, get. simpl. repeat split.
  unfold errorField, errorBody, err. simpl.
  destruct (default Undefined (fields !! "response")) as [| | | | |r]; try reflexivity.
  unfold optGet at 2. cbn [nullish prop].
  destruct (default Undefined (r !! "data")) as [| | | | |d]; try reflexivity.
  unfold optGet, or. cbn [nullish prop].
  destruct (d !! "error") as [v|]; reflexivity.
Qed.


(** C8 as stated fails: the error field is present, and the message shown
    is the fixed one, not the field. *)
Lemma handleGenerate_failure_empty_error :
  errorField emptyErrorResponse = Some (Str "") /\
  error (snd (handleGenerate 0 0 (Rejected emptyErrorResponse) initialState))
  = Str fallbackMessage /\
  ~ (forall (st : State) (t0 t1 : Z) (err v : value),
       errorField err = Some v ->
       error (snd (handleGenerate t0 t1 (Rejected err) st)) = v).
Proof.
  split; [reflexivity|]. split; [reflexivity|].
  intros H. specialize (H initialState 0%Z 0%Z emptyErrorResponse (Str "") eq_refl).
  vm_compute in H. discriminate H.
Qed.

End GeneratorPageFacts.

(* ===================================================================== *)
(** ** Properties of slices and of the pagination *)
(* ===================================================================== *)

Module PrimFacts.
Import Prim.

Lemma slice_window {A} (l : list A) (a b : Z) :
  (0 <= a)%Z -> (0 <= b)%Z ->
  slice l a (a + b) = take (Z.to_nat b) (drop (Z.to_nat a) l).
Proof.
  intros Ha Hb. unfold slice, clampIndex.
  destruct (Z.ltb_spec a 0) as [|_]; [lia|].
  destruct (Z.ltb_spec (a + b) 0) as [|_]; [lia|].
  destruct (Z_lt_le_dec a (Z.of_nat (length l))) as [Hlt|Hge].
  - rewrite (Z.min_l a) by lia.
    destruct (Z_le_gt_dec (a + b) (Z.of_nat (length l))) as [Hfit|Hover].
    + rewrite Z.min_l by lia. f_equal. lia.
    + rewrite Z.min_r by lia.
      rewrite !take_ge; [reflexivity | |]; rewrite length_drop; lia.
  - rewrite !Z.min_r by lia. rewrite Z.sub_diag. simpl.
    rewrite !drop_ge by lia. by rewrite !take_nil.
Qed.

Lemma ceilDiv_spec (a b : Z) :
  (0 < b)%Z -> ((ceilDiv a b - 1) * b < a <= ceilDiv a b * b)%Z.
Proof.
  intros Hb. unfold ceilDiv.
  pose proof (Z.div_mod (- a) b ltac:(lia)) as Hdm.
  pose proof (Z.mod_pos_bound (- a) b Hb) as Hr.
  nia.
Qed.

Lemma ceilDiv_nonneg (a b : Z) : (0 <= a)%Z -> (0 < b)%Z -> (0 <= ceilDiv a b)%Z.
Proof. intros Ha Hb. pose proof (ceilDiv_spec a b Hb). nia. Qed.

(** Consecutive windows of width [k] put back together. *)
Lemma windows_concat {A} (l : list A) (k m : nat) :
  concat (List.map (fun j => take k (drop (j * k) l)) (seq 0 m)) = take (m * k) l.
Proof.
  induction m as [|m IH]; [reflexivity|].
  rewrite seq_S, List.map_app, concat_app, IH. simpl.
  rewrite app_nil_r, take_take_drop. f_equal. lia.
Qed.

(** *** Substrings *)

Lemma prefix_spec (sub s : string) :
  String.prefix sub s = true <-> exists post, s = sub ++ post.
Proof.
  revert sub. induction s as [|c s IH]; intros [|d sub]; simpl.
  - split; [exists EmptyString; reflexivity | reflexivity].
  - split; [discriminate | intros [post H]; discriminate H].
  - split; [intros _; exists (String c s); reflexivity | reflexivity].
  - destruct (ascii_dec d c) as [->|Hne].
    + rewrite IH. split; intros [post H]; exists post.
      * by rewrite H.
      * by injection H.
    + split; [discriminate | intros [post H]; injection H; congruence].
Qed.


(** *** Case: the primitive against the alphabet *)

Lemma In_allCharacters (c : ascii) : In c allCharacters.
Proof.
  unfold allCharacters. rewrite <- (ascii_nat_embedding c).
  apply in_map, in_seq. pose proof (nat_ascii_bounded c). lia.
Qed.

Lemma toLowerCaseChar_table :
  forallb (fun c => Ascii.eqb (toLowerCaseChar c) (lowerCaseOf c)) allCharacters
  = true.
Proof. vm_compute. reflexivity. Qed.


(** The primitive puts a character in lower case. *)
Lemma toLowerCaseChar_lowerCaseOf (c : ascii) : toLowerCaseChar c = lowerCaseOf c.
Proof.
  pose proof toLowerCaseChar_table as H. rewrite forallb_forall in H.
  apply Ascii.eqb_eq, H, In_allCharacters.
Qed.

Lemma toLowerCase_inLowerCase (s : string) : toLowerCase s = inLowerCase s.
Proof.
  induction s as [|c s IH]; simpl; [reflexivity|].
  by rewrite toLowerCaseChar_lowerCaseOf, IH.
Qed.









(** *** Decimal numerals *)

Lemma parseInt_toString (n : Z) : parseInt (toString n) = Some n.
Proof.
  unfold parseInt, toString. rewrite NilZero.isi.
  - simpl. by rewrite DecimalZ.of_to.
  - destruct n as [|p|p]; simpl; try discriminate.
    intros H. injection H as H. by apply DecimalPos.Unsigned.to_uint_nonnil in H.
  - destruct n as [|p|p]; simpl; try discriminate.
    intros H. injection H as H. by apply DecimalPos.Unsigned.to_uint_nonnil in H.
Qed.


(** *** The code-unit order on strings *)

Lemma ascii_compare_refl (a : ascii) : Ascii.compare a a = Eq.
Proof. apply N.compare_refl. Qed.

Lemma string_compare_lt_trans (s t u : string) :
  String.compare s t = Lt -> String.compare t u = Lt -> String.compare s u = Lt.
Proof.
  revert t u. induction s as [|a s IH]; intros [|b t] [|c u]; simpl;
    try discriminate; try reflexivity.
  unfold Ascii.compare.
  destruct (N.compare_spec (N_of_ascii a) (N_of_ascii b)) as [Hab|Hab|Hab];
    try discriminate;
    destruct (N.compare_spec (N_of_ascii b) (N_of_ascii c)) as [Hbc|Hbc|Hbc];
    try discriminate; intros H1 H2.
  - rewrite Hab, Hbc, N.compare_refl. eapply IH; eassumption.
  - rewrite Hab. by apply N.compare_lt_iff in Hbc as ->.
  - rewrite <- Hbc. by apply N.compare_lt_iff in Hab as ->.
  - assert (H : (N_of_ascii a < N_of_ascii c)%N) by lia.
    by apply N.compare_lt_iff in H as ->.
Qed.

Lemma string_leb_cases (s t : string) :
  String.leb s t = true <-> String.compare s t = Lt \/ s = t.
Proof.
  unfold String.leb. split.
  - destruct (String.compare s t) eqn:E; try discriminate.
    + right. by apply String.compare_eq_iff.
    + by left.
  - intros [->| ->]; [reflexivity|].
    assert (H : String.compare t t = Eq).
    { induction t as [|a t IH]; simpl; [reflexivity|].
      by rewrite ascii_compare_refl. }
    by rewrite H.
Qed.

Lemma string_leb_trans (s t u : string) :
  String.leb s t = true -> String.leb t u = true -> String.leb s u = true.
Proof.
  rewrite !string_leb_cases. intros [H1| ->] [H2| ->]; auto.
  left. eapply string_compare_lt_trans; eassumption.
Qed.

Lemma string_ltb_leb (s t : string) : String.ltb s t = true -> String.leb s t = true.
Proof. unfold String.ltb, String.leb. by destruct (String.compare s t). Qed.

Lemma string_not_ltb_leb (s t : string) :
  String.ltb s t = false -> String.leb t s = true.
Proof.
  unfold String.ltb, String.leb. rewrite (String.compare_antisym s t).
  by destruct (String.compare t s).
Qed.

Lemma keyLe_trans (a b c : key) : keyLe a b -> keyLe b c -> keyLe a c.
Proof.
  destruct a, b, c; simpl; try tauto.
  - apply string_leb_trans.
  - lia.
Qed.

Lemma keyLt_keyLe (a b : key) : keyLt a b = true -> keyLe a b.
Proof.
  destruct a, b; simpl; try discriminate.
  - apply string_ltb_leb.
  - intros H. apply Z.ltb_lt in H. lia.
Qed.

Lemma not_keyLt_keyLe (a b : key) : sameKind a b -> keyLt a b = false -> keyLe b a.
Proof.
  destruct a, b; simpl; try tauto; intros _.
  - apply string_not_ltb_leb.
  - intros H. apply Z.ltb_ge in H. lia.
Qed.

(** *** The stable sort *)

Lemma insert_perm {A} (cmp : A -> A -> Z) (x : A) (l : list A) :
  Permutation (insert cmp x l) (x :: l).
Proof.
  induction l as [|y l IH]; simpl; [reflexivity|].
  destruct (0 <? cmp x y)%Z; [|reflexivity].
  rewrite IH. apply perm_swap.
Qed.

Lemma sort_perm {A} (cmp : A -> A -> Z) (l : list A) :
  Permutation (sort cmp l) l.
Proof.
  induction l as [|x l IH]; simpl; [reflexivity|].
  fold (sort cmp l). by rewrite insert_perm, IH.
Qed.

Section Sorted.
Context {A : Type} (cmp : A -> A -> Z) (R : A -> A -> Prop).
Hypothesis R_trans : forall x y z, R x y -> R y z -> R x z.
Hypothesis cmp_after : forall x y, (0 < cmp x y)%Z -> R y x.
Hypothesis cmp_before : forall x y, ~ (0 < cmp x y)%Z -> R x y.

Lemma insert_sorted (x : A) (l : list A) :
  StronglySorted R l -> StronglySorted R (insert cmp x l).
Proof using R_trans cmp_after cmp_before.
  induction 1 as [|y l Hl IH Hy]; simpl.
  - repeat constructor.
  - destruct (Z.ltb_spec 0 (cmp x y)) as [Hgt|Hle].
    + constructor; [exact IH|].
      apply List.Forall_forall. intros z Hz.
      apply (Permutation_in _ (insert_perm cmp x l)) in Hz.
      destruct Hz as [<-|Hz]; [by apply cmp_after|].
      rewrite List.Forall_forall in Hy. by apply Hy.
    + assert (Hxy : R x y) by (apply cmp_before; lia).
      constructor; [by constructor|]. constructor; [exact Hxy|].
      eapply List.Forall_impl; [|exact Hy]. intros z Hz. eapply R_trans; eassumption.
Qed.

Lemma sort_sorted (l : list A) : StronglySorted R (sort cmp l).
Proof using R_trans cmp_after cmp_before.
  induction l as [|x l IH]; simpl; [constructor|].
  by apply insert_sorted.
Qed.

End Sorted.

(** The comparator of the list components orders by the keys it is given. *)
Lemma compareKeys_after (sortOrder : string) (a b : key) :
  sameKind a b ->
  (0 < compareKeys sortOrder a b)%Z ->
  if (sortOrder =? "asc")%string then keyLe b a else keyLe a b.
Proof.
  intros Hk. unfold compareKeys.
  destruct (keyLt a b) eqn:Hab, (keyLt b a) eqn:Hba,
    (sortOrder =? "asc")%string; try lia; intros _;
    try (by apply keyLt_keyLe).
Qed.

Lemma sameKind_sym (a b : key) : sameKind a b -> sameKind b a.
Proof. by destruct a, b. Qed.

Lemma compareKeys_before (sortOrder : string) (a b : key) :
  sameKind a b ->
  ~ (0 < compareKeys sortOrder a b)%Z ->
  if (sortOrder =? "asc")%string then keyLe a b else keyLe b a.
Proof.
  intros Hk. unfold compareKeys.
  destruct (keyLt a b) eqn:Hab, (keyLt b a) eqn:Hba,
    (sortOrder =? "asc")%string; try lia; intros _;
    try (by apply keyLt_keyLe);
    try (by apply not_keyLt_keyLe; [apply sameKind_sym|]);
    try (by apply not_keyLt_keyLe).
Qed.

(** *** The primitives on small inputs *)

Example toLowerCase_sample : toLowerCase "Lab A-12" = "lab a-12".
Proof. reflexivity. Qed.

Example includes_samples :
  includes "Main Hall" "n H" = true /\ includes "abc" "" = true
  /\ includes "" "a" = false /\ includes "lab" "Lab" = false.
Proof. repeat split. Qed.

Example toString_samples :
  toString 120 = "120" /\ toString 0 = "0" /\ toString (-42) = "-42".
Proof. repeat split. Qed.

Example slice_samples :
  slice [1; 2; 3; 4; 5] 1 3 = [2; 3] /\ slice [1; 2; 3; 4; 5] 4 6 = [5]
  /\ slice [1; 2; 3; 4; 5] 6 8 = [] /\ slice [1; 2; 3; 4; 5] (-2) 10 = [4; 5].
Proof. repeat split. Qed.

Example ceilDiv_samples :
  ceilDiv 5 2 = 3 /\ ceilDiv 24 12 = 2 /\ ceilDiv 25 12 = 3 /\ ceilDiv 0 12 = 0.
Proof. repeat split. Qed.

(** Equal keys keep their order: the sort is stable. *)
Example sort_stable_sample :
  sort (fun a b : Z * string => compareKeys "asc" (KNum (fst a)) (KNum (fst b)))
       [(2, "a"); (1, "b"); (2, "c"); (1, "d")]
  = [(1, "b"); (1, "d"); (2, "a"); (2, "c")].
Proof. reflexivity. Qed.

End PrimFacts.

Module FacultyListFacts.
Import Prim PrimFacts FacultyList Samples.

Lemma filtered_atPage faculties v p :
  filtered faculties (atPage v p) = filtered faculties v.
Proof. reflexivity. Qed.

Lemma page_window faculties v (j : nat) :
  (0 < itemsPerPage v)%Z ->
  paginatedFaculties faculties (atPage v (Z.of_nat (S j)))
  = take (Z.to_nat (itemsPerPage v))
         (drop (j * Z.to_nat (itemsPerPage v)) (filtered faculties v)).
Proof.
  intros Hk. unfold paginatedFaculties, startIndex. rewrite filtered_atPage.
  cbn [currentPage itemsPerPage atPage].
  rewrite slice_window by nia. do 2 f_equal. nia.
Qed.

(** C10: the page shown is the window of the filtered list that starts at
    (currentPage - 1) * itemsPerPage and is at most itemsPerPage long,
    totalPages is the ceiling of the length over itemsPerPage, and the pages
    1 .. totalPages cut the filtered list into consecutive pieces: every
    position of the filtered list lies on exactly one of them. *)
Theorem pagination_partitions (faculties : list Faculty) (v : View) :
  (0 < itemsPerPage v)%Z ->
  (1 <= currentPage v)%Z ->
  let all := filtered faculties v in
  let n := Z.of_nat (length all) in
  let T := totalPages faculties v in
  paginatedFaculties faculties v
  = take (Z.to_nat (itemsPerPage v))
         (drop (Z.to_nat ((currentPage v - 1) * itemsPerPage v)) all)
  /\ (Z.of_nat (length (paginatedFaculties faculties v)) <= itemsPerPage v)%Z
  /\ ((T - 1) * itemsPerPage v < n <= T * itemsPerPage v)%Z
  /\ concat (List.map (fun p => paginatedFaculties faculties (atPage v p))
                      (pageNumbers faculties v)) = all
  /\ (forall (i : nat) (x : Faculty), all !! i = Some x ->
        exists! p : Z,
          (1 <= p <= T)%Z /\
          exists j : nat,
            paginatedFaculties faculties (atPage v p) !! j = Some x /\
            Z.of_nat i = (startIndex (atPage v p) + Z.of_nat j)%Z).
Proof.
  intros Hk Hp all n T.
  assert (Hceil : ((T - 1) * itemsPerPage v < n <= T * itemsPerPage v)%Z)
    by apply ceilDiv_spec, Hk.
  assert (HT : (0 <= T)%Z) by (apply ceilDiv_nonneg; lia).
  assert (Hwin : paginatedFaculties faculties v
                 = take (Z.to_nat (itemsPerPage v))
                        (drop (Z.to_nat ((currentPage v - 1) * itemsPerPage v)) all)).
  { unfold paginatedFaculties, startIndex. apply slice_window; nia. }
  split; [exact Hwin|]. split.
  { rewrite Hwin, length_take. lia. }
  split; [exact Hceil|]. split.
  { unfold pageNumbers. fold T. rewrite <- seq_shift, !List.map_map.
    rewrite (List.map_ext _ (fun j => take (Z.to_nat (itemsPerPage v))
                                (drop (j * Z.to_nat (itemsPerPage v)) all))).
    - rewrite windows_concat. apply take_ge. subst n. nia.
    - intros j. apply page_window, Hk. }
  intros i x Hi.
  assert (Hlt : (Z.of_nat i < n)%Z).
  { apply lookup_lt_Some in Hi. subst n. lia. }
  pose proof (Z.div_mod (Z.of_nat i) (itemsPerPage v) ltac:(lia)) as Hdm.
  pose proof (Z.mod_pos_bound (Z.of_nat i) (itemsPerPage v) Hk) as Hr.
  assert (Hq : (0 <= Z.of_nat i / itemsPerPage v)%Z) by (apply Z.div_pos; lia).
  exists (Z.of_nat i / itemsPerPage v + 1)%Z. split.
  - split; [nia|].
    exists (Z.to_nat (Z.of_nat i mod itemsPerPage v)). split.
    + replace (Z.of_nat i / itemsPerPage v + 1)%Z
        with (Z.of_nat (S (Z.to_nat (Z.of_nat i / itemsPerPage v)))) by lia.
      rewrite page_window by exact Hk.
      rewrite lookup_take_lt by lia. rewrite lookup_drop. fold all.
      rewrite <- Hi. f_equal. nia.
    + unfold startIndex. cbn [currentPage itemsPerPage atPage]. nia.
  - intros p' [[Hp1 Hp2] (j & Hj & Hij)].
    replace p' with (Z.of_nat (S (Z.to_nat (p' - 1)))) in Hj by lia.
    rewrite page_window in Hj by exact Hk.
    apply lookup_lt_Some in Hj. rewrite length_take in Hj.
    unfold startIndex in Hij. cbn [currentPage itemsPerPage atPage] in Hij.
    assert (Hdiv : (Z.of_nat i / itemsPerPage v = p' - 1)%Z).
    { symmetry. apply (Z.div_unique _ _ _ (Z.of_nat j)); lia. }
    lia.
Qed.


Lemma pagination_partitions_witness :
  paginatedFaculties sampleFaculties sampleView
  = [sampleFaculty "Carl"; sampleFaculty "dan"]
  /\ totalPages sampleFaculties sampleView = 3%Z
  /\ concat (List.map (fun p => paginatedFaculties sampleFaculties (atPage sampleView p))
                      (pageNumbers sampleFaculties sampleView))
     = filtered sampleFaculties sampleView.
Proof.
  destruct (pagination_partitions sampleFaculties sampleView)
    as (Hwin & _ & _ & Hcat & _); [reflexivity | vm_compute; discriminate |].
  split; [rewrite Hwin; reflexivity|]. split; [reflexivity | exact Hcat].
Defined.

End FacultyListFacts.

(* ===================================================================== *)
(** ** Properties of the room list *)
(* ===================================================================== *)

Module RoomListFacts.
Import Prim PrimFacts RoomList Samples.



Lemma compareRooms_sortKey (sortBy sortOrder : string) (a b : Room) :
  compareRooms sortBy sortOrder a b
  = compareKeys sortOrder (sortKey sortBy a) (sortKey sortBy b).
Proof.
  unfold compareRooms, sortKey, field.
  destruct (sortBy =? "name")%string;
    [simpl; by rewrite !toLowerCase_inLowerCase|].
  destruct (sortBy =? "type")%string;
    [simpl; by rewrite !toLowerCase_inLowerCase|].
  destruct (sortBy =? "capacity")%string; [|reflexivity].
  simpl. by rewrite !parseInt_toString.
Qed.

Lemma sortKey_sameKind (sortBy : string) (a b : Room) :
  sameKind (sortKey sortBy a) (sortKey sortBy b).
Proof.
  unfold sortKey, field.
  by destruct (sortBy =? "name")%string, (sortBy =? "type")%string,
       (sortBy =? "capacity")%string, (sortBy =? "_id")%string.
Qed.

Lemma ordered_trans (sortBy sortOrder : string) (a b c : Room) :
  ordered sortBy sortOrder a b -> ordered sortBy sortOrder b c ->
  ordered sortBy sortOrder a c.
Proof.
  unfold ordered. destruct (sortOrder =? "asc")%string; intros H1 H2;
    eapply keyLe_trans; eassumption.
Qed.




(** Case is ignored for the letters of the Latin-1 Supplement too: the
    room named ECOLE with an accent, in upper case, is found by the same
    word in lower case. *)
Lemma filteredAndSortedRooms_accent :
  let room := {| _id := "r9"; name := Samples.ecoleUpper; type := "hall";
                 capacity := 10 |} in
  toLowerCase Samples.ecoleUpper = Samples.ecoleLower
  /\ filteredAndSortedRooms [room] Samples.ecoleLower "" "name" "asc" = [room].
Proof. split; reflexivity. Qed.

(** The room list on a sample: "LAB" finds the two labs whatever the case,
    "12" finds a name and a capacity. *)
Lemma filteredAndSortedRooms_sample :
  filteredAndSortedRooms sampleRooms "LAB" "" "capacity" "desc"
  = [ {| _id := "r2"; name := "lab A"; type := "Lab"; capacity := 30 |};
      {| _id := "r4"; name := "LAB b"; type := "lab"; capacity := 24 |} ]
  /\ filteredAndSortedRooms sampleRooms "12" "" "name" "asc"
     = [ {| _id := "r1"; name := "Main Hall"; type := "hall"; capacity := 120 |};
         {| _id := "r3"; name := "Room 12"; type := "lecture"; capacity := 60 |} ].
Proof. split; reflexivity. Qed.

End RoomListFacts.

(* ===================================================================== *)
(** ** Properties of the stable sort *)
(* ===================================================================== *)

Module StableFacts.
Import Stable.

Lemma insertBy_perm {A} (le : A -> A -> bool) (x : A) (l : list A) :
  Permutation (insertBy le x l) (x :: l).
Proof.
  induction l as [|y l IH]; simpl; [reflexivity|].
  destruct (le x y); [reflexivity|]. rewrite IH. apply perm_swap.
Qed.

Lemma sortBy_perm {A} (le : A -> A -> bool) (l : list A) :
  Permutation (sortBy le l) l.
Proof.
  induction l as [|x l IH]; simpl; [reflexivity|].
  fold (sortBy le l). by rewrite insertBy_perm, IH.
Qed.

Lemma sortBy_In {A} (le : A -> A -> bool) (l : list A) (x : A) :
  In x (sortBy le l) <-> In x l.
Proof.
  split; apply Permutation_in; [|symmetry]; apply sortBy_perm.
Qed.

Lemma sortOn_In {A} (key : A -> nat) (l : list A) (x : A) :
  In x (sortOn key l) <-> In x l.
Proof. apply sortBy_In. Qed.

Lemma sortOn_length {A} (key : A -> nat) (l : list A) :
  length (sortOn key l) = length l.
Proof. apply Permutation_length, sortBy_perm. Qed.

Section Sorted.
Context {A : Type} (le : A -> A -> bool).
Hypothesis le_total : forall x y, le x y = false -> le y x = true.
Hypothesis le_trans : forall x y z, le x y = true -> le y z = true -> le x z = true.




End Sorted.

End StableFacts.

(* ===================================================================== *)
(** ** Properties of the generation engine *)
(* ===================================================================== *)

Module EngineFacts.
Import Stable StableFacts Engine.

Local Open Scope nat_scope.

(** *** The model builder *)

Lemma In_map_to_list {A} (m : gmap nat A) (k : nat) (x : A) :
  In (k, x) (map_to_list m) <-> m !! k = Some x.
Proof. rewrite <- list_elem_of_In. apply elem_of_map_to_list. Qed.

Lemma buildModel_Ok (snap : Snapshot) (m : Model) :
  buildModel snap = Ok m -> m = modelOf snap.
Proof.
  unfold buildModel, mbind, Result_bind.
  destruct (checkQualified _); [|discriminate].
  destruct (checkRooms _); [|discriminate].
  destruct (checkReferences _); [|discriminate].
  congruence.
Qed.

Lemma qualifiedFor_In (snap : Snapshot) (sid fid : nat) (f : Faculty) :
  In (fid, f) (qualifiedFor snap sid)
  <-> faculties snap !! fid = Some f /\ sid ∈ qualifiedSubjects f.
Proof.
  unfold qualifiedFor. rewrite List.filter_In, In_map_to_list. simpl.
  by rewrite bool_decide_eq_true.
Qed.

Lemma roomsFor_In (snap : Snapshot) (b : Batch) (rid : nat) (r : Room) :
  In (rid, r) (roomsFor snap b)
  <-> rooms snap !! rid = Some r /\ strength b <= capacity r.
Proof.
  unfold roomsFor. rewrite sortOn_In, List.filter_In, In_map_to_list. simpl.
  by rewrite Nat.leb_le.
Qed.

Lemma qualified_lookup (snap : Snapshot) (sid fid : nat) (f : Faculty) :
  In (fid, f) (default [] (qualifiedFaculty (modelOf snap) !! sid)) ->
  faculties snap !! fid = Some f /\ sid ∈ qualifiedSubjects f.
Proof.
  simpl. rewrite map_lookup_imap.
  destruct (subjects snap !! sid); simpl; [|tauto].
  by rewrite qualifiedFor_In.
Qed.

Lemma sufficient_lookup (snap : Snapshot) (bid rid : nat) (r : Room) :
  In (rid, r) (default [] (sufficientRooms (modelOf snap) !! bid)) ->
  exists b, batches snap !! bid = Some b /\
            rooms snap !! rid = Some r /\ strength b <= capacity r.
Proof.
  simpl. rewrite map_lookup_imap.
  destruct (batches snap !! bid) as [b|]; simpl; [|tauto].
  rewrite roomsFor_In. intros H. by exists b.
Qed.

(** *** Candidates *)

Lemma candidates_feasible (snap : Snapshot) (sched : list Assignment)
    (u : SessionUnit) (a : Assignment) :
  In a (candidates (modelOf snap) sched u) -> Feasible snap sched u a.
Proof.
  unfold candidates, candidatesIn.
  rewrite in_flat_map. intros ([fid f] & Hf & Ha).
  rewrite in_flat_map in Ha. destruct Ha as ([rid r] & Hr & Ha).
  rewrite in_flat_map in Ha. destruct Ha as ([d s] & _ & Ha).
  apply sortOn_In in Hf. apply qualified_lookup in Hf as [Hf Hq].
  apply sufficient_lookup in Hr as (b & Hb & Hr & Hcap).
  destruct (feasible _ _ _ _ _ _) eqn:Hfeas; [|destruct Ha].
  destruct Ha as [<-|[]].
  unfold feasible in Hfeas. simpl in Hfeas.
  rewrite !andb_true_iff, !negb_true_iff, !bool_decide_eq_true in Hfeas.
  destruct Hfeas as ((((Hun & _) & Hfb) & Hrb) & Hbb).
  unfold Feasible. simpl. repeat split; try assumption.
  exists f, r, b. simpl. repeat split; assumption.
Qed.

(** *** Sound schedules *)

Lemma hoursOf_cons (snap : Snapshot) (a : Assignment) (sched : list Assignment)
    (fid : nat) :
  hoursOf snap (a :: sched) fid
  = (if decide (facultyId a = fid)
     then durationOf snap (unitSubject (unit a)) else 0)
    + hoursOf snap sched fid.
Proof. reflexivity. Qed.

Lemma Sound_nil (snap : Snapshot) : Sound snap [].
Proof. split; [exact I | constructor]. Qed.

Lemma Sound_cons (snap : Snapshot) (sched : list Assignment)
    (u : SessionUnit) (a : Assignment) :
  Sound snap sched -> Feasible snap sched u a -> Sound snap (a :: sched).
Proof.
  intros (Hclash & Hplaced) (Hu & Hp & Hfb & Hrb & Hbb).
  subst u. split.
  - simpl. auto.
  - by constructor.
Qed.

Lemma FramesOk_Sound (snap : Snapshot) (stk : list Frame) :
  FramesOk snap stk -> Sound snap (List.map choice stk).
Proof.
  induction stk as [|fr stk IH]; simpl; [intros _; apply Sound_nil|].
  intros [Hfr Hbelow]. apply Forall_inv in Hfr.
  eapply Sound_cons; [by apply IH | exact Hfr].
Qed.

(** *** The transition function and the transition relation *)

Section Machine.
Context (m : Model) (order : list Assignment -> list Assignment) (budget : nat).

Lemma step_Step (c c' : Config) :
  step m order budget c = Some c' <-> Step m order budget c c'.
Proof.
  unfold step. split.
  - destruct (pending c) as [|u us] eqn:Hp; [discriminate|].
    destruct (pool m order c u) as [|a rest] eqn:Hpool.
    + destruct (stack c) as [|fr stk] eqn:Hs; [discriminate|].
      destruct (Nat.ltb_spec (backtracks c) budget) as [Hlt|]; [|discriminate].
      intros [= <-]. eapply Step_backtrack; eassumption.
    + intros [= <-]. eapply Step_commit; eassumption.
  - intros [c0 u us a rest Hp Hpool | c0 u us fr stk Hp Hpool Hs Hlt].
    + by rewrite Hp, Hpool.
    + rewrite Hp, Hpool, Hs. by apply Nat.ltb_lt in Hlt as ->.
Qed.

Lemma step_Halted (c : Config) :
  step m order budget c = None <-> Halted m order budget c.
Proof.
  unfold step. split.
  - destruct (pending c) as [|u us] eqn:Hp; [intros _; by apply Halted_complete|].
    destruct (pool m order c u) as [|a rest] eqn:Hpool; [|discriminate].
    destruct (stack c) as [|fr stk] eqn:Hs.
    + intros _. eapply Halted_exhausted; eassumption.
    + destruct (Nat.ltb_spec (backtracks c) budget) as [|Hge]; [discriminate|].
      intros _. eapply Halted_budget; eassumption.
  - intros [c0 Hp | c0 u us Hp Hpool Hs | c0 u us Hp Hpool Hge].
    + by rewrite Hp.
    + by rewrite Hp, Hpool, Hs.
    + rewrite Hp, Hpool. destruct (stack c0); [reflexivity|].
      by apply Nat.ltb_ge in Hge as ->.
Qed.

Lemma Step_deterministic (c c1 c2 : Config) :
  Step m order budget c c1 -> Step m order budget c c2 -> c1 = c2.
Proof.
  intros H1 H2. apply step_Step in H1, H2. congruence.
Qed.

Lemma Halted_no_Step (c c' : Config) :
  Halted m order budget c -> Step m order budget c c' -> False.
Proof.
  intros H1 H2. apply step_Halted in H1. apply step_Step in H2. congruence.
Qed.

(** The run the function computes is a run of the relation, and the only one. *)
Lemma run_Exec (ticks : nat) (c : Config) :
  Exec m order budget ticks c (run m order budget ticks c).
Proof.
  revert c. induction ticks as [|t IH]; intros c; simpl; [apply Exec_timeout|].
  destruct (step m order budget c) as [c'|] eqn:Hstep.
  - eapply Exec_step; [by apply step_Step | apply IH].
  - by apply Exec_halt, step_Halted.
Qed.

Lemma Exec_deterministic (ticks : nat) (c r1 r2 : Config) :
  Exec m order budget ticks c r1 -> Exec m order budget ticks c r2 -> r1 = r2.
Proof.
  intros H1. revert r2.
  induction H1 as [c | t c Hh | t c c' r Hs Hr IH]; intros r2 H2.
  - inversion H2; subst; reflexivity.
  - inversion H2; subst; try reflexivity.
    exfalso. eapply Halted_no_Step; eassumption.
  - inversion H2; subst.
    + exfalso. eapply Halted_no_Step; eassumption.
    + apply IH. by rewrite (Step_deterministic c c' c'0).
Qed.

Lemma Exec_run (ticks : nat) (c r : Config) :
  Exec m order budget ticks c r <-> r = run m order budget ticks c.
Proof.
  split.
  - intros H. eapply Exec_deterministic; [exact H | apply run_Exec].
  - intros ->. apply run_Exec.
Qed.

End Machine.

(** *** The invariant of the search *)

Section Invariant.
Context (snap : Snapshot) (order : list Assignment -> list Assignment)
        (budget : nat).
Hypothesis order_rearranges : Rearranges order.

Lemma Inv_initial : Inv (modelOf snap) (initial (modelOf snap)).
Proof.
  split; cbn [initial stack retry pending best committed List.map FramesOk].
  - exact I.
  - discriminate.
  - reflexivity.
  - apply Sound_nil.
  - simpl. lia.
Qed.

Lemma pool_feasible (c : Config) (u : SessionUnit) (us : list SessionUnit) :
  Inv (modelOf snap) c -> pending c = u :: us ->
  Forall (Feasible snap (committed c) u) (pool (modelOf snap) order c u).
Proof using order_rearranges.
  intros Hinv Hp. unfold pool. destruct (retry c) as [l|] eqn:Hr.
  - eapply (inv_retry _ _ Hinv); eassumption.
  - apply List.Forall_forall. intros a Ha.
    apply order_rearranges in Ha. by apply candidates_feasible.
Qed.

Lemma Step_Inv (c c' : Config) :
  Inv (modelOf snap) c -> Step (modelOf snap) order budget c c' ->
  Inv (modelOf snap) c'.
Proof using order_rearranges.
  intros Hinv Hstep. revert Hinv.
  destruct Hstep as [c0 u us a rest Hp Hpool | c0 u us fr stk Hp Hpool Hs Hlt];
    intros Hinv.
  - pose proof (pool_feasible c0 u us Hinv Hp) as Hfeas. rewrite Hpool in Hfeas.
    assert (Hframes : FramesOk snap (stack (commit (modelOf snap) c0 u us a rest))).
    { simpl. split; [exact Hfeas | apply (inv_frames _ _ Hinv)]. }
    pose proof (inv_count _ _ Hinv) as Hcount. rewrite Hp in Hcount. simpl in Hcount.
    split.
    + exact Hframes.
    + discriminate.
    + unfold committed in *. simpl. lia.
    + cbn [best commit]. destruct (better _ _ _).
      * apply FramesOk_Sound in Hframes. exact Hframes.
      * apply (inv_best _ _ Hinv).
    + cbn [best commit]. destruct (better _ _ _).
      * unfold committed in *. simpl. lia.
      * apply (inv_best_length _ _ Hinv).
  - pose proof (inv_frames _ _ Hinv) as Hframes. rewrite Hs in Hframes.
    destruct Hframes as [Hfr Hbelow].
    pose proof (inv_count _ _ Hinv) as Hcount.
    unfold committed in Hcount. rewrite Hs in Hcount. simpl in Hcount.
    split.
    + exact Hbelow.
    + cbn [retry pending backtrack committed stack]. intros l u' us' [= <-] [= <- _].
      by apply Forall_inv_tail in Hfr.
    + unfold committed. simpl. lia.
    + apply (inv_best _ _ Hinv).
    + apply (inv_best_length _ _ Hinv).
Qed.

Lemma Exec_Inv (ticks : nat) (c r : Config) :
  Inv (modelOf snap) c -> Exec (modelOf snap) order budget ticks c r ->
  Inv (modelOf snap) r.
Proof using order_rearranges.
  intros Hinv H. induction H as [c | t c Hh | t c c' r Hs Hr IH]; auto.
  apply IH. eapply Step_Inv; eassumption.
Qed.

Lemma run_Inv (ticks : nat) :
  Inv (modelOf snap)
      (run (modelOf snap) order budget ticks (initial (modelOf snap))).
Proof using order_rearranges.
  eapply Exec_Inv; [apply Inv_initial | apply run_Exec].
Qed.

End Invariant.

(** *** From the invariant to the schedules of a response *)

Lemma In_take {A} (n : nat) (l : list A) (x : A) : In x (take n l) -> In x l.
Proof.
  intros H. rewrite <- (take_drop n l). apply in_or_app. by left.
Qed.


Section Response.
Context (score : Snapshot -> list Assignment -> Z)
        (perturb : nat -> nat -> list Assignment -> list Assignment)
        (mach : Machine).

Lemma orderOf_rearranges (opts : Options) (i : nat) :
  (forall seed j, Rearranges (perturb seed j)) ->
  Rearranges (orderOf perturb opts i).
Proof.
  intros Hp. destruct i; simpl; [by intros l a | apply Hp].
Qed.

Lemma dedupFrom_In (seen l : list Schedule) (s : Schedule) :
  In s (dedupFrom seen l) -> In s l.
Proof.
  revert seen. induction l as [|x l IH]; intros seen; simpl; [tauto|].
  destruct (existsb _ seen).
  - intros H. right. eapply IH, H.
  - intros [->|H]; [by left | right; eapply IH, H].
Qed.

Lemma merge_In (snap : Snapshot) (n : nat) (l : list Schedule) (s : Schedule) :
  In s (merge score snap n l) -> In s l.
Proof.
  unfold merge, dedup. intros H. apply In_take, dedupFrom_In in H.
  by apply sortBy_In in H.
Qed.

Lemma alternatives_In (m : Model) (opts : Options) (s : Schedule) :
  In s (alternatives score perturb mach m opts) ->
  exists i, i < maxAlternatives opts /\
            s = evaluate m (best (search perturb mach m opts i)).
Proof.
  unfold alternatives. intros H. apply merge_In, in_map_iff in H.
  destruct H as (i & <- & Hi). apply in_seq in Hi. exists i. split; [lia | reflexivity].
Qed.

Lemma generate_Ok (snap : Snapshot) (opts : Options) (scheds : list Schedule) :
  generate score perturb mach snap opts = Ok scheds ->
  buildModel snap = Ok (modelOf snap) /\
  scheds = alternatives score perturb mach (modelOf snap) opts.
Proof.
  unfold generate, generateMetered.
  destruct (buildModel snap) as [m|e] eqn:Hb; simpl; [|discriminate].
  apply buildModel_Ok in Hb as Hm. subst m. intros [= <-]. by split.
Qed.


(** Every schedule of a response is the evaluation of an assignment that
    keeps the constraints checked during the search. *)
Lemma response_schedule (snap : Snapshot) (opts : Options)
    (scheds : list Schedule) (s : Schedule) :
  (forall seed i, Rearranges (perturb seed i)) ->
  generate score perturb mach snap opts = Ok scheds -> In s scheds ->
  Sound snap (assignments s) /\
  s = evaluate (modelOf snap) (assignments s) /\
  length (assignments s) <= length (units (modelOf snap)).
Proof.
  intros Hp Hgen Hin. apply generate_Ok in Hgen as [_ ->].
  apply alternatives_In in Hin as (i & _ & ->).
  pose proof (run_Inv snap (orderOf perturb opts i) (backtrackBudget opts)
                (orderOf_rearranges opts i Hp) (mach (timeLimit opts) i)) as Hinv.
  split; [|split].
  - apply (inv_best _ _ Hinv).
  - reflexivity.
  - apply (inv_best_length _ _ Hinv).
Qed.

End Response.

(** *** No double booking *)

Lemma busy_key {K} `{EqDecision K} (key : Assignment -> K)
    (sched : list Assignment) (a : Assignment) :
  existsb (fun b => bool_decide (key b = key a) && sameTime b (day a) (slot a)) sched
  = false ->
  ~ In (key a, day a, slot a) (List.map (fun b => (key b, day b, slot b)) sched).
Proof.
  intros Hfree Hin. apply in_map_iff in Hin as (b & Hb & Hin).
  injection Hb as Hk Hd Hs.
  assert (Hbusy : existsb (fun b => bool_decide (key b = key a)
                                    && sameTime b (day a) (slot a)) sched = true).
  { apply existsb_exists. exists b. split; [exact Hin|].
    unfold sameTime. by rewrite !andb_true_iff, !bool_decide_eq_true. }
  congruence.
Qed.

Lemma NoClash_NoDup (sched : list Assignment) :
  NoClash sched ->
  List.NoDup (List.map (fun a => (facultyId a, day a, slot a)) sched) /\
  List.NoDup (List.map (fun a => (roomId a, day a, slot a)) sched) /\
  List.NoDup (List.map (fun a => (unitBatch (unit a), day a, slot a)) sched).
Proof.
  induction sched as [|a sched IH]; simpl.
  - intros _. repeat split; constructor.
  - intros (Hf & Hr & Hb & Hrest). destruct (IH Hrest) as (IHf & IHr & IHb).
    repeat split; apply List.NoDup_cons; try assumption.
    + by apply (busy_key facultyId).
    + by apply (busy_key roomId).
    + by apply (busy_key (fun b => unitBatch (unit b))).
Qed.

(** C1: in every schedule a request returns, complete or partial, no two
    assignments have the same faculty at the same (day, slot), nor the same
    room, nor the same batch. *)
Theorem no_double_booking
    (score : Snapshot -> list Assignment -> Z)
    (perturb : nat -> nat -> list Assignment -> list Assignment)
    (mach : Machine)
    (snap : Snapshot) (opts : Options) (scheds : list Schedule) (s : Schedule) :
  (forall seed i, Rearranges (perturb seed i)) ->
  generate score perturb mach snap opts = Ok scheds ->
  In s scheds ->
  List.NoDup (List.map (fun a => (facultyId a, day a, slot a)) (assignments s)) /\
  List.NoDup (List.map (fun a => (roomId a, day a, slot a)) (assignments s)) /\
  List.NoDup (List.map (fun a => (unitBatch (unit a), day a, slot a)) (assignments s)).
Proof.
  intros Hp Hgen Hin.
  destruct (response_schedule score perturb mach snap opts scheds s Hp Hgen Hin)
    as ((Hclash & _) & _ & _).
  by apply NoClash_NoDup.
Qed.

(** C2: every assignment of a returned schedule puts the batch in a room
    that seats it, with a faculty qualified for the subject, at a (day, slot)
    the faculty is not unavailable at. *)
Theorem assignments_placed
    (score : Snapshot -> list Assignment -> Z)
    (perturb : nat -> nat -> list Assignment -> list Assignment)
    (mach : Machine)
    (snap : Snapshot) (opts : Options) (scheds : list Schedule) (s : Schedule)
    (a : Assignment) :
  (forall seed i, Rearranges (perturb seed i)) ->
  generate score perturb mach snap opts = Ok scheds ->
  In s scheds ->
  In a (assignments s) ->
  exists f r b,
    faculties snap !! facultyId a = Some f /\
    rooms snap !! roomId a = Some r /\
    batches snap !! unitBatch (unit a) = Some b /\
    strength b <= capacity r /\
    unitSubject (unit a) ∈ qualifiedSubjects f /\
    (day a, slot a) ∉ unavailability f.
Proof.
  intros Hp Hgen Hin Ha.
  destruct (response_schedule score perturb mach snap opts scheds s Hp Hgen Hin)
    as ((_ & Hplaced) & _ & _).
  rewrite List.Forall_forall in Hplaced. exact (Hplaced a Ha).
Qed.


(** *** Model errors *)

Lemma filter_nil_iff {A} (f : A -> bool) (l : list A) :
  List.filter f l = [] <-> forall x, In x l -> f x = false.
Proof.
  induction l as [|y l IH]; simpl; [tauto|].
  destruct (f y) eqn:Hy; split.
  - discriminate.
  - intros H. specialize (H y (or_introl eq_refl)). congruence.
  - intros Hnil x [<-|Hx]; [exact Hy | by apply IH].
  - intros H. apply IH. intros x Hx. apply H. by right.
Qed.

Lemma isNil_true {A} (l : list A) : isNil l = true <-> l = [].
Proof. by destruct l. Qed.

Lemma qualifiedFor_nil (snap : Snapshot) (sid : nat) :
  qualifiedFor snap sid = []
  <-> forall fid f, faculties snap !! fid = Some f -> sid ∉ qualifiedSubjects f.
Proof.
  unfold qualifiedFor. rewrite filter_nil_iff. split.
  - intros H fid f Hf. specialize (H (fid, f)). simpl in H.
    rewrite bool_decide_eq_false in H. apply H. by apply In_map_to_list.
  - intros H [fid f] Hin. simpl. apply bool_decide_eq_false.
    apply (H fid). by apply In_map_to_list.
Qed.

Lemma roomsFor_nil (snap : Snapshot) (b : Batch) :
  roomsFor snap b = []
  <-> forall rid r, rooms snap !! rid = Some r -> capacity r < strength b.
Proof.
  split.
  - intros Hnil rid r Hr.
    destruct (Nat.lt_ge_cases (capacity r) (strength b)) as [|Hge]; [assumption|].
    assert (Hin : In (rid, r) (roomsFor snap b)) by by apply roomsFor_In.
    rewrite Hnil in Hin. destruct Hin.
  - intros H. destruct (roomsFor snap b) as [|[rid r] l] eqn:E; [reflexivity|].
    assert (Hin : In (rid, r) (roomsFor snap b)) by (rewrite E; by left).
    apply roomsFor_In in Hin as [Hr Hcap]. specialize (H rid r Hr). lia.
Qed.

Lemma checkQualified_spec (snap : Snapshot) :
  (checkQualified (qualifiedFaculty (modelOf snap)) = Ok ()
   /\ ~ SubjectWithoutFaculty snap)
  \/ (exists e, checkQualified (qualifiedFaculty (modelOf snap)) = Err e
                /\ SubjectWithoutFaculty snap).
Proof.
  unfold checkQualified. simpl.
  destruct (List.find _ _) as [[sid l]|] eqn:Hfind.
  - apply find_some in Hfind as [Hin Hnil]. simpl in Hnil.
    apply isNil_true in Hnil as ->. apply In_map_to_list in Hin.
    rewrite map_lookup_imap in Hin.
    destruct (subjects snap !! sid) as [s|] eqn:Hs; [|discriminate].
    simpl in Hin. injection Hin as Hq.
    right. eexists. split; [reflexivity|].
    exists sid, s. split; [exact Hs | by apply qualifiedFor_nil].
  - left. split; [reflexivity|]. intros (sid & s & Hs & Hno).
    apply qualifiedFor_nil in Hno.
    pose proof (find_none _ _ Hfind (sid, [])) as Hcontra. simpl in Hcontra.
    assert (Hin : In (sid, []) (map_to_list
              (map_imap (fun sid _ => Some (qualifiedFor snap sid)) (subjects snap)))).
    { apply In_map_to_list. rewrite map_lookup_imap, Hs. simpl. by rewrite Hno. }
    specialize (Hcontra Hin). discriminate.
Qed.

Lemma checkRooms_spec (snap : Snapshot) :
  (checkRooms (sufficientRooms (modelOf snap)) = Ok ()
   /\ ~ BatchWithoutRoom snap)
  \/ (exists e, checkRooms (sufficientRooms (modelOf snap)) = Err e
                /\ BatchWithoutRoom snap).
Proof.
  unfold checkRooms. simpl.
  destruct (List.find _ _) as [[bid l]|] eqn:Hfind.
  - apply find_some in Hfind as [Hin Hnil]. simpl in Hnil.
    apply isNil_true in Hnil as ->. apply In_map_to_list in Hin.
    rewrite map_lookup_imap in Hin.
    destruct (batches snap !! bid) as [b|] eqn:Hb; [|discriminate].
    simpl in Hin. injection Hin as Hq.
    right. eexists. split; [reflexivity|].
    exists bid, b. split; [exact Hb | by apply roomsFor_nil].
  - left. split; [reflexivity|]. intros (bid & b & Hb & Hno).
    apply roomsFor_nil in Hno.
    pose proof (find_none _ _ Hfind (bid, [])) as Hcontra. simpl in Hcontra.
    assert (Hin : In (bid, []) (map_to_list
              (map_imap (fun _ b => Some (roomsFor snap b)) (batches snap)))).
    { apply In_map_to_list. rewrite map_lookup_imap, Hb. simpl. by rewrite Hno. }
    specialize (Hcontra Hin). discriminate.
Qed.

Lemma references_In (snap : Snapshot) (bid sid : nat) :
  In (bid, sid) (references snap)
  <-> exists b, batches snap !! bid = Some b /\ In sid (requiredSubjects b).
Proof.
  unfold references. rewrite in_flat_map. split.
  - intros ([bid' b] & Hin & Hmap). apply in_map_iff in Hmap as (sid' & [= <- <-] & Hs).
    apply In_map_to_list in Hin. by exists b.
  - intros (b & Hb & Hs). exists (bid, b). split; [by apply In_map_to_list|].
    apply in_map_iff. by exists sid.
Qed.

Lemma checkReferences_spec (snap : Snapshot) :
  (checkReferences snap = Ok () /\ ~ DanglingSubject snap)
  \/ (exists e, checkReferences snap = Err e /\ DanglingSubject snap).
Proof.
  unfold checkReferences.
  destruct (List.find _ _) as [[bid sid]|] eqn:Hfind.
  - apply find_some in Hfind as [Hin Hnil]. simpl in Hnil.
    apply references_In in Hin as (b & Hb & Hs).
    right. eexists. split; [reflexivity|].
    exists bid, b, sid. repeat split; try assumption.
    by destruct (subjects snap !! sid).
  - left. split; [reflexivity|]. intros (bid & b & sid & Hb & Hs & Hnone).
    pose proof (find_none _ _ Hfind (bid, sid)) as Hcontra. simpl in Hcontra.
    rewrite Hnone in Hcontra. simpl in Hcontra.
    assert (Hin : In (bid, sid) (references snap))
      by (apply references_In; by exists b).
    specialize (Hcontra Hin). discriminate.
Qed.

Lemma buildModel_spec (snap : Snapshot) :
  (buildModel snap = Ok (modelOf snap) /\ ~ Unsatisfiable snap)
  \/ (exists e, buildModel snap = Err e /\ Unsatisfiable snap).
Proof.
  unfold buildModel, Unsatisfiable, mbind, Result_bind.
  destruct (checkQualified_spec snap) as [[Hq Hnq]|(e & Hq & Hyes)];
    rewrite Hq; [|right; exists e; tauto].
  destruct (checkRooms_spec snap) as [[Hr Hnr]|(e & Hr & Hyes)];
    rewrite Hr; [|right; exists e; tauto].
  destruct (checkReferences_spec snap) as [[Hd Hnd]|(e & Hd & Hyes)];
    rewrite Hd; [|right; exists e; tauto].
  left. split; [reflexivity | tauto].
Qed.

(** C4: a request fails with a ModelError exactly when the snapshot is
    unsatisfiable at build time (a subject without qualified faculty, a batch
    no room seats, a batch naming a subject that is not there); the error is
    the builder's and no search transition is spent on it; and for a
    satisfiable snapshot every budget and time limit, however small, gives a
    list of evaluated schedules. *)
Theorem model_error_iff
    (score : Snapshot -> list Assignment -> Z)
    (perturb : nat -> nat -> list Assignment -> list Assignment)
    (mach : Machine)
    (snap : Snapshot) (opts : Options) :
  ((exists e, generate score perturb mach snap opts = Err e) <-> Unsatisfiable snap)
  /\ (forall e, generate score perturb mach snap opts = Err e ->
                buildModel snap = Err e /\
                searchCost (generateMetered score perturb mach snap opts) = 0)
  /\ (~ Unsatisfiable snap ->
      generate score perturb mach snap opts
      = Ok (alternatives score perturb mach (modelOf snap) opts)).
Proof.
  unfold generate, generateMetered.
  destruct (buildModel_spec snap) as [[Hb Hsat]|(e & Hb & Hunsat)]; rewrite Hb; simpl.
  - split; [|split].
    + split; [intros [e He]; discriminate | intros H; contradiction].
    + intros e He. discriminate.
    + reflexivity.
  - split; [|split].
    + split; [intros _; exact Hunsat | intros _; by exists e].
    + intros e' [= <-]. by split.
    + intros H. contradiction.
Qed.

(** *** Determinism *)

Section Determinism.
Context (score : Snapshot -> list Assignment -> Z)
        (perturb : nat -> nat -> list Assignment -> list Assignment).




End Determinism.

(** *** Monotonicity in the budgets *)

Section Monotone.
Context (m : Model) (order : list Assignment -> list Assignment).





End Monotone.

Section Ranking.
Context (score : Snapshot -> list Assignment -> Z) (snap : Snapshot).






End Ranking.


(** *** The theorems on the sample snapshot, and the scenarios of the spec *)

Import Samples.

Lemma samplePerturb_rearranges (seed i : nat) : Rearranges (samplePerturb seed i).
Proof.
  intros l a. unfold samplePerturb. destruct (Nat.even (seed + i)); [|tauto].
  intros H. by apply in_rev.
Qed.

Lemma sample_generate :
  generate sampleScore samplePerturb sampleMachine sampleSnapshot sampleOptions
  = Ok sampleSchedules.
Proof. vm_compute. reflexivity. Qed.

Lemma no_double_booking_witness :
  In samplePrimary sampleSchedules /\
  List.NoDup (List.map (fun a => (facultyId a, day a, slot a)) (assignments samplePrimary)) /\
  List.NoDup (List.map (fun a => (roomId a, day a, slot a)) (assignments samplePrimary)) /\
  List.NoDup (List.map (fun a => (unitBatch (unit a), day a, slot a))
                       (assignments samplePrimary)).
Proof.
  assert (Hin : In samplePrimary sampleSchedules) by (simpl; tauto).
  split; [exact Hin|].
  exact (no_double_booking sampleScore samplePerturb sampleMachine sampleSnapshot
           sampleOptions sampleSchedules samplePrimary samplePerturb_rearranges
           sample_generate Hin).
Defined.

Lemma assignments_placed_witness :
  exists f r b,
    faculties sampleSnapshot !! 2 = Some f /\
    rooms sampleSnapshot !! 4 = Some r /\
    batches sampleSnapshot !! 6 = Some b /\
    strength b <= capacity r /\
    8 ∈ qualifiedSubjects f /\
    (0, 0) ∉ unavailability f.
Proof.
  apply (assignments_placed sampleScore samplePerturb sampleMachine sampleSnapshot
           sampleOptions sampleSchedules samplePrimary
           {| unit := {| unitBatch := 6; unitSubject := 8; unitIndex := 0 |};
              facultyId := 2; roomId := 4; day := 0; slot := 0 |}).
  - exact samplePerturb_rearranges.
  - exact sample_generate.
  - simpl; tauto.
  - simpl; tauto.
Defined.

(** Scenario A: both sessions are assigned, without conflicts. *)
Lemma scenario_A :
  exists s, primary (generate sampleScore samplePerturb sampleMachine scenarioA
                              sampleOptions) = Some s
            /\ assignedSlots s = 2 /\ conflicts s = 0.
Proof. eexists. split; [reflexivity|]. by split. Qed.



(** Scenario B: the builder refuses the snapshot and nothing is searched. *)
Lemma model_error_scenario_B :
  generateMetered sampleScore samplePerturb sampleMachine scenarioB sampleOptions
  = {| result := Err (NoSufficientRoom 5); searchCost := 0 |}
  /\ Unsatisfiable scenarioB.
Proof.
  split; [reflexivity|].
  apply (model_error_iff sampleScore samplePerturb sampleMachine scenarioB
           sampleOptions).
  by exists (NoSufficientRoom 5).
Defined.

(** Scenario C: four of the six sessions are assigned, two are conflicts. *)
Lemma scenario_C :
  exists s, primary (generate sampleScore samplePerturb sampleMachine scenarioC
                              (options 1 200 50))
            = Some s
            /\ totalSlots s = 6 /\ assignedSlots s = 4 /\ conflicts s = 2.
Proof. eexists. split; [vm_compute; reflexivity|]. by repeat split. Qed.







End EngineFacts.

(* ===================================================================== *)
(** ** More properties of the primitives *)
(* ===================================================================== *)

Module PrimMore.
Import Prim PrimFacts.

Lemma uniqueFrom_In {A} `{EqDecision A} (seen l : list A) (x : A) :
  In x (uniqueFrom seen l) <-> In x l /\ ~ In x seen.
Proof.
  revert seen. induction l as [|y l IH]; intros seen; simpl; [tauto|].
  destruct (bool_decide_reflect (y ∈ seen)) as [Hy|Hy];
    rewrite list_elem_of_In in Hy.
  - rewrite IH. split; [tauto|]. intros [[->|Hx] Hn]; tauto.
  - simpl. rewrite IH. simpl. split.
    + intros [->|[Hx Hn]]; tauto.
    + intros [[->|Hx] Hn]; [by left|].
      destruct (decide (y = x)) as [->|Hne]; [by left | right; tauto].
Qed.

Lemma uniqueFrom_NoDup {A} `{EqDecision A} (seen l : list A) :
  List.NoDup (uniqueFrom seen l).
Proof.
  revert seen. induction l as [|y l IH]; intros seen; simpl; [constructor|].
  destruct (bool_decide (y ∈ seen)); [apply IH|].
  constructor; [|apply IH]. rewrite uniqueFrom_In. simpl. tauto.
Qed.

Lemma unique_In {A} `{EqDecision A} (l : list A) (x : A) :
  In x (unique l) <-> In x l.
Proof. unfold unique. rewrite uniqueFrom_In. simpl. tauto. Qed.

Lemma unique_NoDup {A} `{EqDecision A} (l : list A) : List.NoDup (unique l).
Proof. apply uniqueFrom_NoDup. Qed.

Lemma unique_length {A} `{EqDecision A} (l : list A) :
  (length (unique l) <= length l)%nat.
Proof.
  unfold unique. generalize (@nil A) as seen.
  induction l as [|y l IH]; intros seen; simpl; [lia|].
  destruct (bool_decide (y ∈ seen)); simpl; [specialize (IH seen) | specialize (IH (y :: seen))]; lia.
Qed.

Lemma includes_empty (s : string) : includes s "" = true.
Proof. destruct s; reflexivity. Qed.

Lemma toLowerCase_empty : toLowerCase "" = "".
Proof. reflexivity. Qed.

Lemma arrayIncludes_In (l : list string) (id : string) :
  arrayIncludes l id = true <-> In id l.
Proof.
  unfold arrayIncludes. rewrite existsb_exists. split.
  - intros (x & Hx & He). apply String.eqb_eq in He. by subst.
  - intros H. exists id. split; [exact H | apply String.eqb_refl].
Qed.

Lemma string_ltb_irrefl (s : string) : String.ltb s s = false.
Proof.
  unfold String.ltb.
  assert (H : String.compare s s = Eq).
  { induction s as [|a s IH]; simpl; [reflexivity|].
    by rewrite ascii_compare_refl. }
  by rewrite H.
Qed.

Lemma keyLt_irrefl (k : key) : keyLt k k = false.
Proof.
  destruct k; simpl; try reflexivity.
  - apply string_ltb_irrefl.
  - apply Z.ltb_irrefl.
Qed.

Lemma compareKeys_same (sortOrder : string) (k : key) : compareKeys sortOrder k k = 0%Z.
Proof. unfold compareKeys. by rewrite keyLt_irrefl. Qed.

(** *** The sort is stable: it keeps the order within a class of elements
    the comparator does not separate. *)

Section Stability.
Context {A : Type} (cmp : A -> A -> Z) (P : A -> bool).
Hypothesis same_class : forall x y, P x = true -> P y = true -> ~ (0 < cmp x y)%Z.

Lemma insert_filter (x : A) (l : list A) :
  List.filter P (insert cmp x l) = List.filter P (x :: l).
Proof using same_class.
  induction l as [|y l IH]; [reflexivity|].
  cbn [insert]. destruct (Z.ltb_spec 0 (cmp x y)) as [Hgt|_]; [|reflexivity].
  cbn [List.filter] in *. rewrite IH.
  destruct (P x) eqn:Hx, (P y) eqn:Hy; try reflexivity.
  exfalso. by apply (same_class x y).
Qed.

Lemma sort_filter (l : list A) :
  List.filter P (sort cmp l) = List.filter P l.
Proof using same_class.
  induction l as [|x l IH]; [reflexivity|].
  cbn [sort fold_right]. fold (sort cmp l). rewrite insert_filter.
  cbn [List.filter]. by rewrite IH.
Qed.

End Stability.

(** *** The default sort *)

Lemma defaultSort_sorted (l : list string) :
  StronglySorted (fun a b => String.leb a b = true) (sort defaultCompare l).
Proof.
  apply sort_sorted.
  - apply string_leb_trans.
  - intros x y. unfold defaultCompare.
    destruct (String.ltb x y) eqn:Hxy; [lia|].
    destruct (String.ltb y x) eqn:Hyx; [|lia]. intros _. by apply string_ltb_leb.
  - intros x y. unfold defaultCompare.
    destruct (String.ltb x y) eqn:Hxy; [intros _; by apply string_ltb_leb|].
    destruct (String.ltb y x) eqn:Hyx; [lia|]. intros _. by apply string_not_ltb_leb.
Qed.

Lemma string_leb_ne_ltb (a b : string) :
  String.leb a b = true -> a <> b -> String.ltb a b = true.
Proof.
  rewrite string_leb_cases. intros [H|H] Hne; [|contradiction].
  unfold String.ltb. by rewrite H.
Qed.

Lemma sorted_NoDup_strict (l : list string) :
  StronglySorted (fun a b => String.leb a b = true) l -> List.NoDup l ->
  StronglySorted (fun a b => String.ltb a b = true) l.
Proof.
  induction 1 as [|x l Hl IH Hx]; intros Hnd; [constructor|].
  apply List.NoDup_cons_iff in Hnd as [Hnin Hnd].
  constructor; [by apply IH|].
  rewrite List.Forall_forall in Hx |- *. intros y Hy.
  apply string_leb_ne_ltb; [by apply Hx|]. intros ->. contradiction.
Qed.

(** *** Rounded division *)

Lemma roundDiv_bounds (a b lo hi : Z) :
  (0 < b)%Z -> (lo * b <= a <= hi * b)%Z -> (lo <= roundDiv a b <= hi)%Z.
Proof.
  intros Hb [Hlo Hhi]. unfold roundDiv. split.
  - apply Z.div_le_lower_bound; nia.
  - assert (H : ((2 * a + b) / (2 * b) < hi + 1)%Z)
      by (apply Z.div_lt_upper_bound; nia).
    lia.
Qed.

(** *** Toggling a selection *)

Lemma toggleSelect_In (prev : list string) (id x : string) :
  In x (toggleSelect prev id)
  <-> (x = id /\ ~ In id prev) \/ (x <> id /\ In x prev).
Proof.
  unfold toggleSelect. destruct (arrayIncludes prev id) eqn:Hinc.
  - apply arrayIncludes_In in Hinc. rewrite List.filter_In, negb_true_iff, String.eqb_neq.
    split; [intros [Hx Hne]; by right | intros [[-> Hn]|[Hne Hx]]; tauto].
  - assert (Hnin : ~ In id prev).
    { intros H. apply arrayIncludes_In in H. congruence. }
    rewrite in_app_iff. simpl. split.
    + intros [Hx|[<-|[]]]; [right | by left].
      split; [intros -> | exact Hx]. contradiction.
    + intros [[-> _]|[_ Hx]]; [right; by left | by left].
Qed.

Lemma toggleSelect_NoDup (prev : list string) (id : string) :
  List.NoDup prev -> List.NoDup (toggleSelect prev id).
Proof.
  intros Hnd. unfold toggleSelect. destruct (arrayIncludes prev id) eqn:Hinc.
  - by apply List.NoDup_filter.
  - assert (Hnin : ~ In id prev).
    { intros H. apply arrayIncludes_In in H. congruence. }
    apply NoDup_ListNoDup. apply NoDup_app. repeat split.
    + by apply NoDup_ListNoDup.
    + intros x Hx Hx'. apply list_elem_of_In in Hx.
      apply list_elem_of_In in Hx' as [<-|[]]. contradiction.
    + apply NoDup_ListNoDup. repeat constructor. simpl. tauto.
Qed.

Lemma filter_ne_id (prev : list string) (id : string) :
  ~ In id prev -> List.filter (fun x => negb (x =? id)%string) prev = prev.
Proof.
  induction prev as [|y prev IH]; intros Hn; simpl; [reflexivity|].
  destruct (String.eqb_spec y id) as [->|Hne]; simpl.
  - exfalso. apply Hn. by left.
  - rewrite IH; [reflexivity|]. intros H. apply Hn. by right.
Qed.

Lemma toggleSelect_twice (prev : list string) (id : string) :
  toggleSelect (toggleSelect prev id) id
  = if arrayIncludes prev id
    then (List.filter (fun x => negb (x =? id)%string) prev ++ [id])%list
    else prev.
Proof.
  unfold toggleSelect at 2. destruct (arrayIncludes prev id) eqn:Hinc.
  - unfold toggleSelect.
    assert (Hout : arrayIncludes (List.filter (fun x => negb (x =? id)%string) prev) id
                   = false).
    { destruct (arrayIncludes (List.filter (fun x => negb (x =? id)%string) prev) id)
        eqn:E; [|reflexivity].
      apply arrayIncludes_In, List.filter_In in E as [_ E].
      by rewrite String.eqb_refl in E. }
    by rewrite Hout.
  - assert (Hnin : ~ In id prev).
    { intros H. apply arrayIncludes_In in H. congruence. }
    unfold toggleSelect.
    assert (Hin : arrayIncludes (prev ++ [id]) id = true).
    { apply arrayIncludes_In, in_app_iff. right. by left. }
    rewrite Hin, List.filter_app, filter_ne_id by exact Hnin.
    simpl. rewrite String.eqb_refl. simpl. apply app_nil_r.
Qed.

Lemma deleteEach_spec (onDelete : Deleter) (ids made0 made : list string)
    (ok : bool) :
  deleteEach onDelete made0 ids = (made, ok) ->
  (exists k, made = (made0 ++ take k ids)%list)
  /\ (ok = true -> made = (made0 ++ ids)%list)
  /\ (ok = false ->
        exists done id, made = (made0 ++ done ++ [id])%list
                        /\ onDelete (made0 ++ done)%list id = false).
Proof.
  revert made0. induction ids as [|id ids IH]; intros made0; simpl.
  - intros [= <- <-]. split; [exists 0%nat; by rewrite app_nil_r|].
    split; [intros _; by rewrite app_nil_r | discriminate].
  - destruct (onDelete made0 id) eqn:E.
    + intros H. apply IH in H as ((k & Hk) & Hok & Hko).
      split; [exists (S k); by rewrite Hk, <- app_assoc|].
      split; [intros ->; by rewrite Hok, <- app_assoc|].
      intros ->. destruct (Hko eq_refl) as (done & id' & -> & Hrej).
      exists (id :: done), id'. rewrite <- !app_assoc in *. simpl in *. auto.
    + intros [= <- <-]. split; [by exists 1%nat|].
      split; [discriminate|]. intros _. exists [], id.
      by rewrite app_nil_r.
Qed.

Lemma deleteEach_fulfilled (onDelete : Deleter) (ids made0 made : list string) :
  deleteEach onDelete made0 ids = (made, true) ->
  forall done id rest, ids = (done ++ id :: rest)%list ->
                       onDelete (made0 ++ done)%list id = true.
Proof.
  revert made0. induction ids as [|x ids IH]; intros made0 Hrun done id rest Hsplit.
  - by destruct done.
  - simpl in Hrun. destruct (onDelete made0 x) eqn:E; [|discriminate].
    destruct done as [|y done]; simpl in Hsplit; injection Hsplit as -> ->.
    + by rewrite app_nil_r.
    + specialize (IH _ Hrun done id rest eq_refl).
      by rewrite <- app_assoc in IH.
Qed.

Lemma string_append_assoc (s t u : string) : (s ++ t) ++ u = s ++ t ++ u.
Proof.
  induction s as [|c s IH]; [reflexivity|].
  change (String c ((s ++ t) ++ u) = String c (s ++ t ++ u)). by f_equal.
Qed.

Lemma countChar_app (c : ascii) (s t : string) :
  countChar c (s ++ t) = (countChar c s + countChar c t)%nat.
Proof. induction s as [|d s IH]; simpl; [reflexivity|]. rewrite IH. lia. Qed.

Lemma countChar_join (c : ascii) (sep : string) (l : list string) :
  countChar c (join sep l)
  = (list_sum (List.map (countChar c) l)
     + (length l - 1) * countChar c sep)%nat.
Proof.
  induction l as [|x l IH]; [reflexivity|].
  destruct l as [|y l]; [simpl; lia|].
  change (join sep (x :: y :: l)) with (x ++ sep ++ join sep (y :: l)).
  rewrite !countChar_app, IH. simpl. lia.
Qed.

Lemma filter_all {A} (f : A -> bool) (l : list A) :
  (forall x, f x = true) -> List.filter f l = l.
Proof.
  intros Hf. induction l as [|x l IH]; simpl; [reflexivity|].
  by rewrite Hf, IH.
Qed.

End PrimMore.

(* ===================================================================== *)
(** ** More properties of the room list *)
(* ===================================================================== *)

Module RoomListMore.
Import Prim PrimFacts PrimMore RoomList RoomListFacts Samples.

Lemma rooms_perm (rooms : list Room) (st sf sb so : string) :
  Permutation (filteredAndSortedRooms rooms st sf sb so)
              (List.filter (keep st sf) rooms).
Proof. apply sort_perm. Qed.

Lemma rooms_In (rooms : list Room) (st sf sb so : string) (room : Room) :
  In room (filteredAndSortedRooms rooms st sf sb so)
  <-> In room rooms /\ keep st sf room = true.
Proof.
  rewrite <- List.filter_In. split; apply Permutation_in;
    [|symmetry]; apply rooms_perm.
Qed.

Lemma rooms_sorted (rooms : list Room) (st sf sb so : string) :
  StronglySorted (ordered sb so) (filteredAndSortedRooms rooms st sf sb so).
Proof.
  apply sort_sorted.
  - apply ordered_trans.
  - intros x y. rewrite compareRooms_sortKey. intros Hgt.
    apply compareKeys_after in Hgt; [|apply sortKey_sameKind].
    unfold ordered. by destruct (so =? "asc")%string.
  - intros x y. rewrite compareRooms_sortKey. intros Hle.
    apply compareKeys_before in Hle; [|apply sortKey_sameKind].
    unfold ordered. by destruct (so =? "asc")%string.
Qed.

Lemma keep_no_search (sf : string) (room : Room) :
  keep "" sf room = matchesType sf room.
Proof.
  unfold keep, matchesSearch. by rewrite toLowerCase_empty, !includes_empty.
Qed.

Lemma roomTypes_perm (rooms : list Room) :
  Permutation (roomTypes rooms) (unique (List.map type rooms)).
Proof. apply sort_perm. Qed.

Lemma roomTypes_In (rooms : list Room) (t : string) :
  In t (roomTypes rooms) <-> exists room, In room rooms /\ type room = t.
Proof.
  assert (Hmap : In t (List.map type rooms)
                 <-> exists room, In room rooms /\ type room = t).
  { rewrite in_map_iff. split; intros (room & H1 & H2); eauto. }
  rewrite <- Hmap, <- (unique_In (List.map type rooms)).
  split; apply Permutation_in; [|symmetry]; apply roomTypes_perm.
Qed.

(** X1: the type options are exactly the types of the rooms, each once, in
    strictly ascending code-unit order. *)
Theorem roomTypes_spec (rooms : list Room) :
  (forall t, In t (roomTypes rooms) <-> exists room, In room rooms /\ type room = t)
  /\ StronglySorted (fun a b => String.ltb a b = true) (roomTypes rooms)
  /\ List.NoDup (roomTypes rooms).
Proof.
  assert (Hnd : List.NoDup (roomTypes rooms)).
  { eapply Permutation_NoDup; [symmetry; apply roomTypes_perm | apply unique_NoDup]. }
  split; [apply roomTypes_In|]. split; [|exact Hnd].
  apply sorted_NoDup_strict; [apply defaultSort_sorted | exact Hnd].
Qed.

(** X2: with an empty search, choosing a type the select offers never
    leaves the list empty; a type that is not the empty string shows
    exactly the rooms of that type, and the empty string, which is offered
    when a room has it as its type, shows every room, as "All Types"
    does. *)
Theorem type_option_selects (rooms : list Room) (t sb so : string) :
  In t (roomTypes rooms) ->
  let l := filteredAndSortedRooms rooms "" t sb so in
  l <> []
  /\ (t <> "" -> forall room, In room l <-> In room rooms /\ type room = t)
  /\ (t = "" -> Permutation l rooms).
Proof.
  intros Ht l.
  assert (Hin : forall room, In room l <-> In room rooms /\ (t = "" \/ type room = t)).
  { intros room. unfold l. rewrite rooms_In, keep_no_search. unfold matchesType.
    by rewrite orb_true_iff, !String.eqb_eq. }
  split; [|split].
  - apply roomTypes_In in Ht as (room & Hroom & Htype).
    intros Hnil. assert (H : In room l) by (apply Hin; auto).
    rewrite Hnil in H. destruct H.
  - intros Hne room. rewrite Hin. tauto.
  - intros ->. unfold l. rewrite rooms_perm, filter_all; [reflexivity|].
    intros room. by rewrite keep_no_search.
Qed.

Lemma type_option_selects_witness :
  In "lab" (roomTypes sampleRooms) /\
  filteredAndSortedRooms sampleRooms "" "lab" "name" "asc" <> [] /\
  forall room,
    In room (filteredAndSortedRooms sampleRooms "" "lab" "name" "asc")
    <-> In room sampleRooms /\ type room = "lab".
Proof.
  assert (H : In "lab" (roomTypes sampleRooms)) by (vm_compute; tauto).
  split; [exact H|].
  destruct (type_option_selects sampleRooms "lab" "name" "asc" H) as (Hne & Hin & _).
  split; [exact Hne|]. apply Hin. discriminate.
Defined.

(** X3: the sort is stable in both directions: the rooms that have the same
    sort key are shown in the order they have in the rooms prop. *)
Theorem equal_keys_keep_order
    (rooms : list Room) (st sf sb so : string) (k : key) :
  List.filter (fun room => bool_decide (sortKey sb room = k))
              (filteredAndSortedRooms rooms st sf sb so)
  = List.filter (fun room => bool_decide (sortKey sb room = k))
                (List.filter (keep st sf) rooms).
Proof.
  unfold filteredAndSortedRooms. apply sort_filter.
  intros x y Hx Hy. apply bool_decide_eq_true in Hx, Hy.
  rewrite compareRooms_sortKey, Hx, Hy, compareKeys_same. lia.
Qed.

(** X4: a click on a column header makes that column the sort key, with an
    order that is "asc" or "desc" ("asc" when the column was not the key),
    the list shown is then in that order, and two more clicks on the same
    header are back at the same state. *)
Theorem handleSort_cycle (rooms : list Room) (field : string) (ui : UI) :
  let ui1 := handleSort field ui in
  sortBy ui1 = field
  /\ In (sortOrder ui1) ["asc"; "desc"]
  /\ (sortBy ui <> field -> sortOrder ui1 = "asc")
  /\ handleSort field (handleSort field ui1) = ui1
  /\ StronglySorted (ordered field (sortOrder ui1)) (shown rooms ui1).
Proof.
  intros ui1.
  assert (Hby : sortBy ui1 = field).
  { unfold ui1, handleSort. by destruct (String.eqb_spec (sortBy ui) field). }
  assert (Hord : In (sortOrder ui1) ["asc"; "desc"]).
  { unfold ui1, handleSort.
    destruct (sortBy ui =? field)%string, (sortOrder ui =? "asc")%string;
      simpl; tauto. }
  repeat split; try assumption.
  - intros Hne. unfold ui1, handleSort.
    by destruct (String.eqb_spec (sortBy ui) field).
  - destruct ui1 as [a b c d e f g]. simpl in Hby, Hord. subst c.
    unfold handleSort. cbn [sortBy sortOrder searchTerm filterType selectedRooms
                             showDeleteModal roomToDelete].
    rewrite String.eqb_refl. cbn [sortBy sortOrder searchTerm filterType
                                  selectedRooms showDeleteModal roomToDelete].
    rewrite String.eqb_refl.
    destruct Hord as [<-|[<-|[]]]; reflexivity.
  - rewrite <- Hby at 1. apply rooms_sorted.
Qed.

Lemma handleSort_cycle_witness :
  sortOrder (handleSort "capacity" initialUI) = "asc"
  /\ handleSort "capacity"
       (handleSort "capacity" (handleSort "capacity" initialUI))
     = handleSort "capacity" initialUI.
Proof.
  destruct (handleSort_cycle sampleRooms "capacity" initialUI)
    as (_ & _ & Hasc & Hcycle & _).
  split; [apply Hasc; discriminate | exact Hcycle].
Defined.

Lemma filter_ne_perm (prev : list string) (id : string) :
  List.NoDup prev -> In id prev ->
  Permutation (List.filter (fun x => negb (x =? id)%string) prev ++ [id]) prev.
Proof.
  induction prev as [|y prev IH]; intros Hnd Hin; [destruct Hin|].
  apply List.NoDup_cons_iff in Hnd as [Hy Hnd]. simpl.
  destruct (String.eqb_spec y id) as [->|Hne]; simpl.
  - rewrite filter_ne_id by exact Hy. symmetry. apply Permutation_cons_append.
  - destruct Hin as [->|Hin]; [contradiction|]. by rewrite IH.
Qed.

(** X5: toggling a room keeps the selection free of duplicates, flips
    whether that room is selected and touches no other room; toggling twice
    gives the same rooms again, and the very same list when the room was
    not selected (a room that was selected moves to the end). *)
Theorem toggleSelectRoom_flips (roomId : string) (ui : UI) :
  List.NoDup (selectedRooms ui) ->
  let ui' := toggleSelectRoom roomId ui in
  List.NoDup (selectedRooms ui')
  /\ (In roomId (selectedRooms ui') <-> ~ In roomId (selectedRooms ui))
  /\ (forall x, x <> roomId ->
        (In x (selectedRooms ui') <-> In x (selectedRooms ui)))
  /\ Permutation (selectedRooms (toggleSelectRoom roomId ui')) (selectedRooms ui)
  /\ (~ In roomId (selectedRooms ui) -> toggleSelectRoom roomId ui' = ui).
Proof.
  intros Hnd ui'. unfold ui', toggleSelectRoom. cbn [selectedRooms setSelectedRooms].
  split; [by apply toggleSelect_NoDup|]. split; [|split; [|split]].
  - rewrite toggleSelect_In. tauto.
  - intros x Hx. rewrite toggleSelect_In. tauto.
  - rewrite toggleSelect_twice. destruct (arrayIncludes (selectedRooms ui) roomId) eqn:E.
    + apply filter_ne_perm; [exact Hnd | by apply arrayIncludes_In].
    + reflexivity.
  - intros Hn. rewrite toggleSelect_twice.
    destruct (arrayIncludes (selectedRooms ui) roomId) eqn:E.
    + apply arrayIncludes_In in E. contradiction.
    + by destruct ui.
Qed.

Lemma toggleSelectRoom_flips_witness :
  selectedRooms (toggleSelectRoom "r1" (setSelectedRooms ["r1"; "r2"] initialUI))
  = ["r2"]
  /\ Permutation
       (selectedRooms
          (toggleSelectRoom "r1"
             (toggleSelectRoom "r1" (setSelectedRooms ["r1"; "r2"] initialUI))))
       ["r1"; "r2"].
Proof.
  split; [reflexivity|].
  apply (toggleSelectRoom_flips "r1" (setSelectedRooms ["r1"; "r2"] initialUI)).
  simpl. repeat constructor; simpl; intuition discriminate.
Defined.

(** X6: "select all" compares counts only.  Afterwards every room shown is
    selected exactly when the selection did not already have as many entries
    as there are rooms shown, or no room is shown; with equal counts the
    selection is emptied, whichever rooms it held. *)
Theorem selectAllRooms_spec (rooms : list Room) (ui : UI) :
  let ui' := selectAllRooms rooms ui in
  ((forall room, In room (shown rooms ui) -> In (_id room) (selectedRooms ui'))
   <-> length (selectedRooms ui) <> length (shown rooms ui) \/ shown rooms ui = [])
  /\ (length (selectedRooms ui) = length (shown rooms ui) -> selectedRooms ui' = [])
  /\ shown rooms ui' = shown rooms ui.
Proof.
  intros ui'. unfold ui', selectAllRooms.
  destruct (Nat.eqb_spec (length (selectedRooms ui)) (length (shown rooms ui)))
    as [Heq|Hne]; cbn [selectedRooms setSelectedRooms].
  - split; [|split; [reflexivity | by destruct ui]]. split.
    + intros Hall. right. destruct (shown rooms ui) as [|room l]; [reflexivity|].
      destruct (Hall room (or_introl eq_refl)).
    + intros [Hne|Hnil]; [contradiction|]. rewrite Hnil. intros room [].
  - split; [|split; [intros; contradiction | by destruct ui]]. split.
    + intros _. by left.
    + intros _ room Hin. by apply in_map.
Qed.

(** A selection of two rooms that are not shown, while two others are. *)
Lemma selectAllRooms_spec_witness :
  let ui := {| searchTerm := "lab"; filterType := ""; sortBy := "name";
               sortOrder := "asc"; selectedRooms := ["r1"; "r3"];
               showDeleteModal := false; roomToDelete := None |} in
  List.map _id (shown sampleRooms ui) = ["r2"; "r4"]
  /\ selectedRooms (selectAllRooms sampleRooms ui) = [].
Proof.
  intros ui. split; [reflexivity|].
  apply (selectAllRooms_spec sampleRooms ui). reflexivity.
Defined.

(** X7: a confirmed bulk deletion calls onDeleteRoom on the selected ids in
    their order and stops at the first rejection.  When every call fulfils
    the selection is emptied and the dialog closed; when a call is rejected
    the state is left as it was, dialog open and selection kept, the ids
    deleted before it included. *)
Theorem confirmDelete_bulk (onDeleteRoom : Deleter) (ui : UI) :
  selectedRooms ui <> [] ->
  let asked := handleBulkDelete ui in
  let out := confirmDelete onDeleteRoom asked in
  showDeleteModal asked = true
  /\ (exists k, calls out = take k (selectedRooms ui))
  /\ (fulfilled out = true ->
        calls out = selectedRooms ui
        /\ selectedRooms (after out) = []
        /\ showDeleteModal (after out) = false
        /\ roomToDelete (after out) = None)
  /\ (fulfilled out = false ->
        after out = asked
        /\ exists done id, calls out = (done ++ [id])%list
                           /\ onDeleteRoom done id = false).
Proof.
  intros Hne asked out. unfold out, asked, handleBulkDelete.
  destruct (selectedRooms ui) as [|x l] eqn:Hsel; [contradiction|].
  cbn [length Nat.ltb Nat.leb]. unfold confirmDelete.
  cbn [roomToDelete setModal targetId selectedRooms showDeleteModal].
  rewrite String.eqb_refl, Hsel.
  destruct (deleteEach onDeleteRoom [] (x :: l)) as [made ok] eqn:E.
  apply deleteEach_spec in E as (Hk & Hok & Hko).
  split; [reflexivity|]. destruct ok; cbn [calls fulfilled after].
  - split; [exact Hk|]. split; [|discriminate]. intros _.
    by rewrite (Hok eq_refl).
  - split; [exact Hk|]. split; [discriminate|]. intros _.
    split; [reflexivity|]. destruct (Hko eq_refl) as (done & id & -> & Hrej).
    by exists done, id.
Qed.

Lemma confirmDelete_bulk_witness :
  let ui := setSelectedRooms ["r1"; "r2"; "r3"] initialUI in
  let out := confirmDelete (fun made id => negb (id =? "r2")%string)
                           (handleBulkDelete ui) in
  calls out = ["r1"; "r2"]
  /\ fulfilled out = false
  /\ after out = handleBulkDelete ui.
Proof.
  intros ui out. split; [reflexivity|]. split; [reflexivity|].
  assert (Hne : selectedRooms ui <> []) by discriminate.
  apply (confirmDelete_bulk (fun made id => negb (id =? "r2")%string) ui Hne).
  reflexivity.
Defined.

(** X8: a confirmed deletion of one room calls onDeleteRoom once, with the
    id of that room, and never changes the selection, so that a selected
    room stays selected when it is deleted; the dialog is closed when the
    call fulfils and stays open when it is rejected. *)
Theorem confirmDelete_single (onDeleteRoom : Deleter) (room : Room) (ui : UI) :
  _id room <> "bulk" ->
  let asked := handleDeleteClick room ui in
  let out := confirmDelete onDeleteRoom asked in
  calls out = [_id room]
  /\ fulfilled out = onDeleteRoom [] (_id room)
  /\ selectedRooms (after out) = selectedRooms ui
  /\ (fulfilled out = true ->
        showDeleteModal (after out) = false /\ roomToDelete (after out) = None)
  /\ (fulfilled out = false -> after out = asked).
Proof.
  intros Hne asked out. unfold out, asked, handleDeleteClick, confirmDelete.
  cbn [roomToDelete setModal targetId].
  destruct (String.eqb_spec (_id room) "bulk") as [|_]; [contradiction|].
  destruct (onDeleteRoom [] (_id room)); cbn [calls fulfilled after];
    repeat split; try reflexivity; discriminate.
Qed.

Lemma confirmDelete_single_witness :
  let room := {| _id := "r1"; name := "Hall"; type := "lecture"; capacity := 60 |} in
  let ui := setSelectedRooms ["r1"] initialUI in
  _id room <> "bulk"
  /\ selectedRooms
       (after (confirmDelete (fun _ _ => true) (handleDeleteClick room ui)))
     = ["r1"].
Proof.
  intros room ui.
  assert (Hne : _id room <> "bulk") by discriminate.
  split; [exact Hne|].
  apply (confirmDelete_single (fun _ _ => true) room ui Hne).
Defined.


Lemma totalCapacity_sum (rooms : list Room) (z : Z) :
  fold_left (fun sum room => addNumber sum (parseInt (toString (capacity room))))
            rooms (Some z)
  = Some (z + foldr Z.add 0 (List.map capacity rooms))%Z.
Proof.
  revert z. induction rooms as [|room rooms IH]; intros z; simpl.
  - f_equal. lia.
  - rewrite parseInt_toString. simpl. rewrite IH. f_equal. lia.
Qed.

Lemma sum_bounds (rooms : list Room) (lo hi : Z) :
  (forall room, In room rooms -> (lo <= capacity room <= hi)%Z) ->
  (lo * Z.of_nat (length rooms)
   <= foldr Z.add 0 (List.map capacity rooms)
   <= hi * Z.of_nat (length rooms))%Z.
Proof.
  induction rooms as [|room rooms IH]; intros Hb; simpl length; simpl foldr.
  - simpl. lia.
  - specialize (Hb room (or_introl eq_refl)) as Hroom.
    assert (IH' := IH (fun r Hr => Hb r (or_intror Hr))). lia.
Qed.

(** X10: the statistics of a non-empty room list: the total capacity is the
    sum of the capacities, the average lies between any bounds that hold
    for every room, and the number of types is at least one and at most
    the number of rooms. *)
Theorem stats_spec (rooms : list Room) (lo hi : Z) :
  rooms <> [] ->
  (forall room, In room rooms -> (lo <= capacity room <= hi)%Z) ->
  total (stats rooms) = length rooms
  /\ totalCapacity (stats rooms) = Some (foldr Z.add 0 (List.map capacity rooms))
  /\ (exists avg, avgCapacity (stats rooms) = Some avg /\ (lo <= avg <= hi)%Z)
  /\ (1 <= types (stats rooms) <= total (stats rooms))%nat.
Proof.
  intros Hne Hb. unfold stats. cbn [total totalCapacity avgCapacity types].
  rewrite totalCapacity_sum, Z.add_0_l.
  split; [reflexivity|]. split; [reflexivity|]. split.
  - destruct rooms as [|room rooms]; [contradiction|].
    cbn [length Nat.ltb Nat.leb]. eexists. split; [reflexivity|].
    apply roundDiv_bounds; [lia|].
    exact (sum_bounds (room :: rooms) lo hi Hb).
  - unfold roomTypes. rewrite (Permutation_length (sort_perm _ _)). split.
    + destruct rooms as [|room rooms]; [contradiction|].
      assert (Hin : In (type room) (unique (List.map type (room :: rooms))))
        by (apply unique_In; by left).
      destruct (unique _); [destruct Hin | simpl; lia].
    + etransitivity; [apply unique_length|]. by rewrite length_map.
Qed.

Lemma stats_spec_witness :
  exists avg, avgCapacity (stats sampleRooms) = Some avg /\ (20 <= avg <= 120)%Z.
Proof.
  assert (Hne : sampleRooms <> []) by discriminate.
  assert (Hb : forall room, In room sampleRooms -> (20 <= capacity room <= 120)%Z).
  { intros room Hin. simpl in Hin.
    repeat (destruct Hin as [<-|Hin]; [simpl; lia|]). destruct Hin. }
  apply (stats_spec sampleRooms 20 120 Hne Hb).
Defined.

End RoomListMore.

(* ===================================================================== *)
(** ** More properties of the generator page *)
(* ===================================================================== *)

Module GeneratorPageMore.
Import JS GeneratorPage Samples.

Lemma handleGenerate_cases (st : State) (t0 t1 : Z) (post : settled) :
  handleGenerate t0 t1 post st =
  match post with
  | Fulfilled response =>
      if nullish response || nullish (prop response "data")
      then (Normal tt, failed (Str fallbackMessage))
      else let schedule := prop (prop response "data") "schedule" in
           (Normal tt,
            {| timetable := schedule; isLoading := false; error := Str "";
               generationStats := Some {|
                 generationTime := roundSeconds t0 t1;
                 totalSlots := or (optGet schedule "totalSlots") (Num 0);
                 assignedSlots := or (optGet schedule "assignedSlots") (Num 0);
                 conflicts := or (optGet schedule "conflicts") (Num 0) |} |})
  | Rejected err =>
      if nullish err then (Throw typeError, failed (Str ""))
      else (Normal tt,
            failed (or (optGet (optGet (prop err "response") "data") "error")
                       (Str fallbackMessage)))
  end.
Proof.
  unfold handleGenerate, finally, tryCatch, await, lift, modify.
  unfold mbind, M_bind, bind, ret, get.
  destruct post as [response|err]; simpl.
  - destruct (nullish response); simpl; [reflexivity|].
    destruct (nullish (prop response "data")); reflexivity.
  - destruct (nullish err); reflexivity.
Qed.

Lemma truthy_or_fallback (v : value) : truthy (or v (Str fallbackMessage)) = true.
Proof. unfold or. destruct (truthy v) eqn:E; [exact E | reflexivity]. Qed.

Lemma falsy_has_no_fields (v : value) (k : string) :
  truthy v = false -> optGet v k = Undefined.
Proof. destruct v; simpl; try reflexivity. discriminate. Qed.

(** X11: whatever the request does and whatever was on the page before, a
    run of [handleGenerate] ends with the loading flag cleared and depends
    on nothing of the earlier state; an error message is never shown
    together with a timetable or statistics, a timetable is always shown
    with its statistics, the success line and the clear button, and the
    empty state is shown exactly when neither a timetable nor an error is. *)
Theorem handleGenerate_view (st : State) (t0 t1 : Z) (post : settled) :
  let st' := snd (handleGenerate t0 t1 post st) in
  handleGenerate t0 t1 post st = handleGenerate t0 t1 post initialState
  /\ isLoading st' = false
  /\ showsError st' && (showsResults st' || showsStats st') = false
  /\ implb (showsResults st')
           (showsStats st' && showsSuccess st' && showsClearButton st') = true
  /\ showsEmptyState st' = negb (showsResults st') && negb (showsError st').
Proof.
  intros st'. split; [by rewrite !handleGenerate_cases|].
  unfold st'. rewrite handleGenerate_cases.
  unfold showsError, showsResults, showsStats, showsSuccess, showsClearButton,
    showsEmptyState, or.
  destruct post as [response|err].
  - destruct (nullish response || nullish (prop response "data")); simpl.
    + repeat split.
    + destruct (truthy (prop (prop response "data") "schedule")) eqn:E;
        simpl; rewrite ?E; repeat split.
  - destruct (nullish err); simpl; [repeat split|].
    repeat split; by rewrite andb_false_r || rewrite ?andb_true_r.
Qed.

(** X12: a rejected request always ends with an error message on the page,
    and neither timetable, statistics nor empty state, whatever the
    rejection value holds; the one exception is a rejection with null or
    undefined, where reading err.response throws out of the handler and the
    page shows the empty state without a message. *)
Theorem rejected_shows_error (st : State) (t0 t1 : Z) (err : value) :
  let run := handleGenerate t0 t1 (Rejected err) st in
  fst run = (if nullish err then Throw typeError else Normal tt)
  /\ showsError (snd run) = negb (nullish err)
  /\ showsClearButton (snd run) = negb (nullish err)
  /\ showsEmptyState (snd run) = nullish err
  /\ showsResults (snd run) = false
  /\ showsStats (snd run) = false.
Proof.
  intros run. unfold run. rewrite handleGenerate_cases.
  unfold showsError, showsClearButton, showsEmptyState, showsResults, showsStats.
  destruct (nullish err); cbn [fst snd failed timetable error isLoading
                               generationStats negb].
  - repeat split.
  - assert (Hnull : forall v, or Null v = v) by reflexivity.
    rewrite Hnull, !truthy_or_fallback. by repeat split.
Qed.

(** X13: a response without a body is treated as a failure: when the
    fulfilled value, or its data, is null or undefined, the handler
    completes normally with the fixed message as the error and no
    timetable or statistics. *)
Theorem bodiless_response_fails (st : State) (t0 t1 : Z) (response : value) :
  nullish response = true \/ nullish (prop response "data") = true ->
  handleGenerate t0 t1 (Fulfilled response) st
  = (Normal tt, failed (Str fallbackMessage)).
Proof.
  intros H. rewrite handleGenerate_cases.
  destruct H as [-> | ->]; [reflexivity | by rewrite orb_true_r].
Qed.

Lemma bodiless_response_fails_witness :
  error (snd (handleGenerate 0 10 (Fulfilled (Obj ∅)) initialState))
  = Str fallbackMessage.
Proof.
  rewrite (bodiless_response_fails initialState 0 10 (Obj ∅)); [reflexivity|].
  right. reflexivity.
Defined.

(** X14: a body whose schedule is missing or falsy leaves the page with
    statistics that count 0 slots, 0 assigned and 0 conflicts, shown
    together with the empty state, with no timetable and no clear button. *)
Theorem scheduleless_response (st : State) (t0 t1 : Z) (response : value) :
  nullish response = false ->
  nullish (prop response "data") = false ->
  truthy (prop (prop response "data") "schedule") = false ->
  let st' := snd (handleGenerate t0 t1 (Fulfilled response) st) in
  generationStats st'
  = Some {| generationTime := roundSeconds t0 t1; totalSlots := Num 0;
            assignedSlots := Num 0; conflicts := Num 0 |}
  /\ showsStats st' = true
  /\ showsEmptyState st' = true
  /\ showsResults st' = false
  /\ showsError st' = false
  /\ showsClearButton st' = false.
Proof.
  intros Hresp Hdata Hfalsy st'. unfold st'.
  rewrite handleGenerate_cases, Hresp, Hdata.
  unfold showsStats, showsEmptyState, showsResults, showsError, showsClearButton.
  cbn [orb snd timetable error isLoading generationStats].
  rewrite !falsy_has_no_fields by exact Hfalsy.
  unfold or at 4. rewrite Hfalsy. by repeat split.
Qed.

Lemma scheduleless_response_witness :
  let response := Obj {[ "data" := Obj ∅ ]} in
  let st' := snd (handleGenerate 0 1499 (Fulfilled response) initialState) in
  showsStats st' = true /\ showsEmptyState st' = true.
Proof.
  intros response st'.
  destruct (scheduleless_response initialState 0 1499 response)
    as (_ & Hstats & Hempty & _); [reflexivity | reflexivity | reflexivity |].
  split; [exact Hstats | exact Hempty].
Defined.

(** X15: "Clear Results" hides the timetable, the statistics, the error
    and its own button and leaves the loading flag alone; after a run of
    [handleGenerate], with any outcome, it puts the page back in the state
    it was mounted with. *)
Theorem clearResults_resets (st : State) (t0 t1 : Z) (post : settled) :
  let cleared := snd (clearResults st) in
  fst (clearResults st) = Normal tt
  /\ isLoading cleared = isLoading st
  /\ showsResults cleared || showsStats cleared || showsError cleared
     || showsClearButton cleared = false
  /\ showsEmptyState cleared = negb (isLoading st)
  /\ snd (clearResults (snd (handleGenerate t0 t1 post st))) = initialState.
Proof.
  intros cleared. repeat split.
  - unfold cleared, showsEmptyState. simpl. by rewrite andb_true_r.
  - rewrite handleGenerate_cases. destruct post as [response|err].
    + by destruct (nullish response || nullish (prop response "data")).
    + by destruct (nullish err).
Qed.

Lemma ticks_S (n : nat) : ticks (S n) = tick (ticks n).
Proof. reflexivity. Qed.

Lemma ticks_late (n : nat) : (4 <= n)%nat -> ticks n = ticks 4.
Proof.
  induction 1 as [|n Hn IH]; [reflexivity|]. by rewrite ticks_S, IH.
Qed.

(** X16: while the request is pending the progress bar shows
    25% x min(n, 4) after n seconds, so it is full after four seconds
    however long the request takes, and from the first second on the text
    is the entry of [messages] at min(n, 4); the first entry of [messages]
    is never shown. *)
Theorem progress_after (n : nat) :
  let p := ticks n in
  currentStep p = Nat.min n 4
  /\ (progress p == inject_Z (25 * Z.of_nat (Nat.min n 4)))%Q
  /\ loadingMessage p
     = (if (n =? 0)%nat then "Initializing..."
        else nth (Nat.min n 4) messages "")
  /\ loadingMessage p <> nth 0 messages "".
Proof.
  intros p. unfold p.
  destruct (le_lt_dec 4 n) as [Hge|Hlt].
  - rewrite (ticks_late n Hge), Nat.min_r by exact Hge.
    destruct n as [|n]; [lia|]. by repeat split.
  - do 4 (destruct n as [|n]; [by repeat split|]). lia.
Qed.

End GeneratorPageMore.

(* ===================================================================== *)
(** ** More properties of the faculty list *)
(* ===================================================================== *)

Module FacultyListMore.
Import Prim PrimFacts PrimMore FacultyList FacultyListFacts Samples.




Lemma faculties_perm (faculties : list Faculty) (st fd sb so : string) :
  Permutation (filteredAndSortedFaculties faculties st fd sb so)
              (List.filter (keep st fd) faculties).
Proof. apply sort_perm. Qed.

Lemma faculties_In (faculties : list Faculty) (st fd sb so : string) (x : Faculty) :
  In x (filteredAndSortedFaculties faculties st fd sb so)
  <-> In x faculties /\ keep st fd x = true.
Proof.
  rewrite <- List.filter_In. split; apply Permutation_in;
    [|symmetry]; apply faculties_perm.
Qed.





Lemma faculty_keep_no_search (fd : string) (x : Faculty) :
  keep "" fd x = matchesDepartment fd x.
Proof.
  unfold keep, matchesSearch. by rewrite toLowerCase_empty, !includes_empty.
Qed.

(** X18: the department options are exactly the departments of the faculty
    members, each once, in strictly ascending code-unit order; with an
    empty search, choosing one of them lists the members of that department
    and no others, and at least one. *)
Theorem department_options (faculties : list Faculty) :
  (forall d, In d (departments faculties)
             <-> exists x, In x faculties /\ department x = d)
  /\ StronglySorted (fun a b => String.ltb a b = true) (departments faculties)
  /\ (forall d sb so, In d (departments faculties) -> d <> "" ->
        let listed := filteredAndSortedFaculties faculties "" d sb so in
        listed <> [] /\
        forall x, In x listed <-> In x faculties /\ department x = d).
Proof.
  assert (Hperm : Permutation (departments faculties)
                              (unique (List.map department faculties)))
    by apply sort_perm.
  assert (Hin : forall d, In d (departments faculties)
                          <-> exists x, In x faculties /\ department x = d).
  { intros d.
    assert (Hmap : In d (List.map department faculties)
                   <-> exists x, In x faculties /\ department x = d).
    { rewrite in_map_iff. split; intros (x & H1 & H2); eauto. }
    rewrite <- Hmap, <- (unique_In (List.map department faculties)).
    split; [apply Permutation_in; exact Hperm |].
    apply Permutation_in. by symmetry. }
  split; [exact Hin|]. split.
  - apply sorted_NoDup_strict; [apply defaultSort_sorted|].
    eapply Permutation_NoDup; [symmetry; exact Hperm | apply unique_NoDup].
  - intros d sb so Hd Hne listed.
    assert (Hl : forall x, In x listed <-> In x faculties /\ department x = d).
    { intros x. unfold listed. rewrite faculties_In, faculty_keep_no_search.
      unfold matchesDepartment. rewrite orb_true_iff, !String.eqb_eq. tauto. }
    split; [|exact Hl].
    apply Hin in Hd as (x & Hx & Hdx). intros Hnil.
    assert (H : In x listed) by (apply Hl; auto).
    rewrite Hnil in H. destruct H.
Qed.

Lemma page_nonempty (faculties : list Faculty) (v : View) (p : Z) :
  (0 < itemsPerPage v)%Z ->
  (1 <= p <= totalPages faculties v)%Z ->
  paginatedFaculties faculties (atPage v p) <> []
  /\ (Z.of_nat (length (paginatedFaculties faculties (atPage v p)))
      <= itemsPerPage v)%Z.
Proof.
  intros Hk [Hp1 Hp2].
  pose proof (ceilDiv_spec (Z.of_nat (length (filtered faculties v)))
                           (itemsPerPage v) Hk) as Hceil.
  fold (totalPages faculties v) in Hceil.
  replace p with (Z.of_nat (S (Z.to_nat (p - 1)))) by lia.
  rewrite page_window by exact Hk. split.
  - intros Hnil. apply (f_equal (@length Faculty)) in Hnil.
    rewrite length_take, length_drop in Hnil. simpl in Hnil. nia.
  - rewrite length_take. lia.
Qed.

Lemma atPage_currentPage (v : View) : atPage v (currentPage v) = v.
Proof. by destruct v. Qed.

(** X19: from a page between 1 and totalPages, each of the four page
    buttons leads to a page between 1 and totalPages, and every such page
    shows at least one faculty member and at most itemsPerPage; "next" on
    the last page and "previous" on the first stay where they are. *)
Theorem page_buttons_in_range (faculties : list Faculty) (v : View) :
  (0 < itemsPerPage v)%Z ->
  (1 <= currentPage v <= totalPages faculties v)%Z ->
  (forall v', In v' [v; firstPage v; previousPage v;
                     nextPage faculties v; lastPage faculties v] ->
     (1 <= currentPage v' <= totalPages faculties v')%Z
     /\ paginatedFaculties faculties v' <> []
     /\ (Z.of_nat (length (paginatedFaculties faculties v')) <= itemsPerPage v)%Z)
  /\ (currentPage v = totalPages faculties v -> nextPage faculties v = v)
  /\ (currentPage v = 1%Z -> previousPage v = v).
Proof.
  intros Hk Hp.
  assert (Hat : forall p, (1 <= p <= totalPages faculties v)%Z ->
            (1 <= currentPage (atPage v p) <= totalPages faculties (atPage v p))%Z
            /\ paginatedFaculties faculties (atPage v p) <> []
            /\ (Z.of_nat (length (paginatedFaculties faculties (atPage v p)))
                <= itemsPerPage v)%Z).
  { intros p Hrange. split; [exact Hrange|]. by apply page_nonempty. }
  split; [|split].
  - intros v' Hin. simpl in Hin.
    destruct Hin as [<-|[<-|[<-|[<-|[<-|[]]]]]].
    + specialize (Hat (currentPage v) Hp).
      by rewrite atPage_currentPage in Hat.
    + apply Hat. lia.
    + apply Hat. lia.
    + apply Hat. lia.
    + apply Hat. lia.
  - intros Heq. unfold nextPage. rewrite <- Heq, Z.min_l by lia.
    apply atPage_currentPage.
  - intros Heq. unfold previousPage.
    replace (Z.max 1 (currentPage v - 1)) with (currentPage v) by lia.
    apply atPage_currentPage.
Qed.

Lemma page_buttons_in_range_witness :
  paginatedFaculties sampleFaculties (nextPage sampleFaculties sampleView) <> [].
Proof.
  assert (Hk : (0 < itemsPerPage sampleView)%Z) by reflexivity.
  assert (Hp : (1 <= currentPage sampleView
                <= totalPages sampleFaculties sampleView)%Z)
    by (vm_compute; split; discriminate).
  apply (proj1 (page_buttons_in_range sampleFaculties sampleView Hk Hp)).
  simpl. tauto.
Defined.

Lemma handleSort_changes (field : string) (v : View) :
  ((sortBy v =? sortBy (handleSort field v))%string
   && (sortOrder v =? sortOrder (handleSort field v))%string) = false.
Proof.
  unfold handleSort. destruct (String.eqb_spec (sortBy v) field) as [Heq|Hne].
  - cbn [sortBy sortOrder]. rewrite String.eqb_refl.
    destruct (String.eqb_spec (sortOrder v) "asc") as [->|Hasc]; [reflexivity|].
    simpl. by apply String.eqb_neq.
  - cbn [sortBy sortOrder]. apply andb_false_iff. left. by apply String.eqb_neq.
Qed.

(** X20: a change of the number of items per page leaves the page number
    as it is, and when that number is beyond the new number of pages the
    page shown is empty, whatever the filtered list holds; a click on a
    column header always goes back to page 1. *)
Theorem stale_page (faculties : list Faculty) (v : View) (n : Z) (field : string) :
  (0 < n)%Z ->
  (1 <= currentPage v)%Z ->
  let v' := event (setItemsPerPage n) v in
  currentPage v' = currentPage v
  /\ filtered faculties v' = filtered faculties v
  /\ ((totalPages faculties v' < currentPage v)%Z ->
      paginatedFaculties faculties v' = [])
  /\ currentPage (event (handleSort field) v) = 1%Z.
Proof.
  intros Hn Hp v'.
  assert (Hv' : v' = setItemsPerPage n v).
  { unfold v', event, resetPage, setItemsPerPage. cbn [searchTerm filterDepartment
      sortBy sortOrder]. by rewrite !String.eqb_refl. }
  rewrite Hv'. split; [reflexivity|]. split; [reflexivity|]. split.
  - intros Hstale.
    pose proof (ceilDiv_spec (Z.of_nat (length (filtered faculties v))) n Hn)
      as Hceil.
    unfold paginatedFaculties, startIndex.
    cbn [currentPage itemsPerPage setItemsPerPage].
    change (filtered faculties (setItemsPerPage n v)) with (filtered faculties v).
    unfold totalPages in Hstale. cbn [itemsPerPage setItemsPerPage] in Hstale.
    change (filtered faculties (setItemsPerPage n v))
      with (filtered faculties v) in Hstale.
    rewrite slice_window by nia.
    rewrite drop_ge by nia. by rewrite take_nil.
  - unfold event, resetPage.
    assert (H := handleSort_changes field v).
    assert (Hst : searchTerm (handleSort field v) = searchTerm v)
      by (unfold handleSort; by destruct (sortBy v =? field)%string).
    assert (Hfd : filterDepartment (handleSort field v) = filterDepartment v)
      by (unfold handleSort; by destruct (sortBy v =? field)%string).
    rewrite Hst, Hfd, !String.eqb_refl. simpl.
    destruct (sortBy v =? sortBy (handleSort field v))%string; simpl in *;
      [by rewrite H | reflexivity].
Qed.

Lemma stale_page_witness :
  filtered sampleFaculties (event (setItemsPerPage 12) sampleView) <> []
  /\ paginatedFaculties sampleFaculties (event (setItemsPerPage 12) sampleView) = [].
Proof.
  split; [vm_compute; discriminate|].
  assert (Hn : (0 < 12)%Z) by reflexivity.
  assert (Hp : (1 <= currentPage sampleView)%Z) by (vm_compute; discriminate).
  apply (stale_page sampleFaculties sampleView 12 "name" Hn Hp).
  reflexivity.
Defined.

(** X21: a confirmed deletion always ends with the dialog closed, the
    loading flag cleared and a notification.  The notification is a success
    when every call of onDelete fulfilled; then the calls are the selected
    ids in order (or the one id) and a bulk deletion empties the selection.
    It is the error notice when the last call made was rejected; then the
    selection is as before, the faculty members deleted before the
    rejection included. *)
Theorem confirmDelete_closes (onDelete : Deleter) (ui : UI) (target : Target) :
  facultyToDelete ui = Some target ->
  let out := confirmDelete onDelete ui in
  let bulk := (targetId target =? "bulk")%string in
  let ids := if bulk then selectedFaculties ui else [targetId target] in
  loading (after out) = false
  /\ showDeleteModal (after out) = false
  /\ facultyToDelete (after out) = None
  /\ exists note, notification (after out) = Some note /\
       ((type note = "success"
         /\ calls out = ids
         /\ (forall done id rest, ids = (done ++ id :: rest)%list ->
               onDelete done id = true)
         /\ selectedFaculties (after out)
            = (if bulk then [] else selectedFaculties ui))
        \/ (type note = "error"
            /\ message note = errorNotice
            /\ (exists k, calls out = take k ids)
            /\ (exists done id, calls out = (done ++ [id])%list
                                /\ onDelete done id = false)
            /\ selectedFaculties (after out) = selectedFaculties ui)).
Proof.
  intros Htarget out bulk ids. unfold out, confirmDelete. rewrite Htarget.
  fold bulk. unfold ids. destruct bulk.
  - cbn [selectedFaculties setLoading].
    destruct (deleteEach onDelete [] (selectedFaculties ui)) as [made ok] eqn:E.
    destruct ok; cbn [after calls].
    + repeat split. eexists. split; [reflexivity|]. left.
      pose proof (deleteEach_spec _ _ _ _ _ E) as (_ & Hok & _).
      repeat split; [by rewrite (Hok eq_refl)|].
      intros done id rest Hsplit.
      exact (deleteEach_fulfilled _ _ _ _ E done id rest Hsplit).
    + repeat split. eexists. split; [reflexivity|]. right.
      pose proof (deleteEach_spec _ _ _ _ _ E) as (Hk & _ & Hko).
      repeat split; [exact Hk|].
      destruct (Hko eq_refl) as (done & id & -> & Hrej). by exists done, id.
  - destruct (onDelete [] (targetId target)) eqn:E; cbn [after calls].
    + repeat split. eexists. split; [reflexivity|]. left.
      repeat split. intros done id rest Hsplit.
      destruct done as [|y done]; [by injection Hsplit as <- _|].
      injection Hsplit as _ Hsplit. by destruct done.
    + repeat split. eexists. split; [reflexivity|]. right.
      repeat split; [by exists 1%nat|]. by exists [], (targetId target).
Qed.

Lemma confirmDelete_closes_witness :
  let ui := handleBulkDelete (setSelectedFaculties ["f1"; "f2"; "f3"] initialUI) in
  let out := confirmDelete (fun made id => negb (id =? "f2")%string) ui in
  showDeleteModal ui = true
  /\ calls out = ["f1"; "f2"]
  /\ showDeleteModal (after out) = false
  /\ selectedFaculties (after out) = ["f1"; "f2"; "f3"].
Proof.
  intros ui out. split; [reflexivity|]. split; [reflexivity|].
  destruct (confirmDelete_closes (fun made id => negb (id =? "f2")%string) ui
              {| targetId := "bulk"; targetName := "3 faculty members" |} eq_refl)
    as (_ & Hmodal & _).
  split; [exact Hmodal | reflexivity].
Defined.

(** X22: the header checkbox only ever selects faculty members of the page
    shown and the keyboard shortcut only ones of the filtered list; when
    the shortcut has selected the whole filtered list and that list is
    longer than the page, the header checkbox does not clear the selection
    but narrows it to the page. *)
Theorem select_all_scopes (faculties : list Faculty) (v : View) (ui : UI) :
  let page := paginatedFaculties faculties v in
  let all := filtered faculties v in
  (forall id, In id (selectedFaculties (selectAllFaculties faculties v ui)) ->
     exists x, In x page /\ _id x = id)
  /\ (forall id, In id (selectedFaculties (selectAllShortcut faculties v ui)) ->
        exists x, In x all /\ _id x = id)
  /\ (length (selectedFaculties ui) <> length all ->
      length page <> length all ->
      selectedFaculties (selectAllShortcut faculties v ui) = List.map _id all
      /\ selectedFaculties
           (selectAllFaculties faculties v (selectAllShortcut faculties v ui))
         = List.map _id page).
Proof.
  intros page all. split; [|split].
  - intros id. unfold selectAllFaculties. fold page.
    destruct (length (selectedFaculties ui) =? length page)%nat;
      cbn [selectedFaculties setSelectedFaculties]; [intros []|].
    rewrite in_map_iff. intros (x & Hid & Hx). eauto.
  - intros id. unfold selectAllShortcut. fold all.
    destruct (length (selectedFaculties ui) =? length all)%nat;
      cbn [selectedFaculties setSelectedFaculties]; [intros []|].
    rewrite in_map_iff. intros (x & Hid & Hx). eauto.
  - intros Hsel Hpage. unfold selectAllShortcut. fold all.
    destruct (Nat.eqb_spec (length (selectedFaculties ui)) (length all))
      as [|_]; [contradiction|].
    split; [reflexivity|].
    unfold selectAllFaculties. fold page.
    cbn [selectedFaculties setSelectedFaculties]. rewrite length_map.
    destruct (Nat.eqb_spec (length all) (length page)) as [Heq|_];
      [by rewrite Heq in Hpage | reflexivity].
Qed.

Lemma select_all_scopes_witness :
  selectedFaculties
    (selectAllFaculties sampleFaculties sampleView
       (selectAllShortcut sampleFaculties sampleView initialUI))
  = ["Carl"; "dan"].
Proof.
  destruct (select_all_scopes sampleFaculties sampleView initialUI)
    as (_ & _ & H).
  destruct H as [_ H]; [vm_compute; discriminate | vm_compute; discriminate |].
  rewrite H. reflexivity.
Defined.

Lemma orNA_commas (s : string) :
  (countChar "," s <= countChar "," (orNA s))%nat.
Proof. unfold orNA. destruct (String.eqb_spec s "") as [->|_]; simpl; lia. Qed.

(** X23: the export writes no file for an empty list: the handler throws and
    no notification is shown.  Otherwise the text starts with the header
    line and has at least one line break for each faculty member listed.
    Fields are not quoted: the header has five commas, and the row of a
    faculty member with two or more qualifications has more. *)
Theorem export_csv (faculties : list Faculty) (v : View) (ui : UI) :
  let rows := filtered faculties v in
  (rows = [] -> exportFaculties faculties v ui = (JS.Throw JS.typeError, ui))
  /\ (rows <> [] ->
      exists text,
        exportFaculties faculties v ui
        = (JS.Normal text,
           showNotification "Faculty list exported successfully" "success" ui)
        /\ String.prefix (join "," exportHeader ++ newline) text = true
        /\ (length rows <= countChar (ascii_of_nat 10) text)%nat)
  /\ countChar "," (join "," exportHeader) = 5%nat
  /\ (forall x quals, qualifications x = Some quals ->
        (5 + (length quals - 1) <= countChar "," (join "," (exportRow x)))%nat).
Proof.
  intros rows. unfold exportFaculties. fold rows. split; [|split; [|split]].
  - by intros ->.
  - intros Hne. destruct rows as [|x rows']; [contradiction|].
    eexists. split; [reflexivity|]. split.
    + apply prefix_spec. eexists.
      change (join newline (?h :: List.map ?f (x :: rows')))
        with (h ++ newline ++ join newline (List.map f (x :: rows'))).
      rewrite string_append_assoc. reflexivity.
    + rewrite countChar_join. cbn [length]. rewrite length_map.
      change (countChar (ascii_of_nat 10) newline) with 1%nat. simpl length.
      generalize (list_sum
        (List.map (countChar (ascii_of_nat 10))
           (join "," exportHeader
            :: List.map (fun faculty => join "," (exportRow faculty)) (x :: rows')))).
      intros total. rewrite Nat.mul_1_r. lia.
  - reflexivity.
  - intros x quals Hq. rewrite countChar_join. unfold exportRow. rewrite Hq.
    cbn [List.map list_sum length].
    change (countChar "," ",") with 1%nat.
    pose proof (orNA_commas (join ", " (List.map qualName quals))) as Hna.
    rewrite countChar_join, length_map in Hna.
    change (countChar "," ", ") with 1%nat in Hna. simpl list_sum. lia.
Qed.

Lemma export_csv_witness :
  exportFaculties sampleFaculties
    (setSearchTerm "nobody" sampleView) initialUI
  = (JS.Throw JS.typeError, initialUI).
Proof.
  apply (export_csv sampleFaculties (setSearchTerm "nobody" sampleView) initialUI).
  reflexivity.
Defined.

Lemma department_options_witness :
  departments sampleFaculties = ["CS"]
  /\ filteredAndSortedFaculties sampleFaculties "" "CS" "name" "asc" <> [].
Proof.
  split; [reflexivity|].
  destruct (department_options sampleFaculties) as (_ & _ & H).
  apply (H "CS" "name" "asc"); [simpl; tauto | discriminate].
Defined.


End FacultyListMore.

(* ===================================================================== *)
(** ** Properties of the batch list *)
(* ===================================================================== *)

Module BatchListFacts.
Import Prim PrimFacts PrimMore BatchList.

Lemma toString_inj (a b : Z) : toString a = toString b -> a = b.
Proof.
  intros H. apply (f_equal parseInt) in H.
  rewrite !parseInt_toString in H. by injection H.
Qed.




Lemma batches_In (batches : list Batch) (st fd fy sb so : string) (x : Batch) :
  In x (filteredAndSortedBatches batches st fd fy sb so)
  <-> In x batches /\ keep st fd fy x = true.
Proof.
  rewrite <- List.filter_In. split; apply Permutation_in;
    [|symmetry]; apply sort_perm.
Qed.




Lemma years_sorted (batches : list Batch) :
  StronglySorted (fun a b => (b <= a)%Z) (years batches).
Proof. apply sort_sorted; intros; lia. Qed.

Lemma descending_strict (l : list Z) :
  StronglySorted (fun a b => (b <= a)%Z) l -> List.NoDup l ->
  StronglySorted (fun a b => (b < a)%Z) l.
Proof.
  induction 1 as [|y l Hl IH Hy]; intros Hnd; [constructor|].
  apply List.NoDup_cons_iff in Hnd as [Hnin Hnd].
  constructor; [by apply IH|].
  rewrite List.Forall_forall in Hy |- *. intros z Hz.
  specialize (Hy z Hz). assert (z <> y) by (intros ->; contradiction). lia.
Qed.

(** X25: the year options are exactly the years of the batches, each once,
    from the latest to the earliest; with no search term and no department
    chosen, choosing one of them lists the batches of that year and no
    others, and at least one. *)
Theorem year_options (batches : list Batch) :
  (forall y, In y (years batches) <-> exists x, In x batches /\ year x = y)
  /\ StronglySorted (fun a b => (b < a)%Z) (years batches)
  /\ (forall y sb so, In y (years batches) ->
        let listed := filteredAndSortedBatches batches "" "" (toString y) sb so in
        listed <> [] /\
        forall x, In x listed <-> In x batches /\ year x = y).
Proof.
  assert (Hperm : Permutation (years batches) (unique (List.map year batches)))
    by apply sort_perm.
  assert (Hin : forall y, In y (years batches)
                          <-> exists x, In x batches /\ year x = y).
  { intros y.
    assert (Hmap : In y (List.map year batches)
                   <-> exists x, In x batches /\ year x = y).
    { rewrite in_map_iff. split; intros (x & H1 & H2); eauto. }
    rewrite <- Hmap, <- (unique_In (List.map year batches)).
    split; [apply Permutation_in; exact Hperm |].
    apply Permutation_in. by symmetry. }
  assert (Hnd : List.NoDup (years batches)).
  { eapply Permutation_NoDup; [symmetry; exact Hperm | apply unique_NoDup]. }
  split; [exact Hin|]. split.
  - apply descending_strict; [apply years_sorted | exact Hnd].
  - intros y sb so Hy listed.
    assert (Hyear : toString y <> "").
    { intros H. pose proof (parseInt_toString y) as Hp.
      rewrite H in Hp. discriminate Hp. }
    assert (Hl : forall x, In x listed <-> In x batches /\ year x = y).
    { intros x. unfold listed. rewrite batches_In. unfold keep, matchesSearch,
        matchesDepartment, matchesYear.
      rewrite toLowerCase_empty, !includes_empty. cbn [orb andb].
      destruct (String.eqb_spec (toString y) "") as [|_]; [contradiction|].
      cbn [orb]. change ("" =? "")%string with true. cbn [orb andb].
      rewrite String.eqb_eq. split; intros [Hx Heq]; split; auto.
      - by apply toString_inj.
      - by rewrite Heq. }
    split; [|exact Hl].
    apply Hin in Hy as (x & Hx & Hyx). intros Hnil.
    assert (H : In x listed) by (apply Hl; auto).
    rewrite Hnil in H. destruct H.
Qed.

Lemma year_options_witness :
  let batch y :=
    {| _id := "b"; name := "CS-A"; department := "CS"; year := y;
       strength := 40; subjects := [] |} in
  years [batch 2; batch 4; batch 2] = [4%Z; 2%Z]
  /\ filteredAndSortedBatches [batch 2; batch 4; batch 2] "" ""
       (toString 2) "name" "asc" <> [].
Proof.
  intros batch. split; [reflexivity|].
  destruct (year_options [batch 2; batch 4; batch 2]) as (_ & _ & H).
  destruct (H 2%Z "name" "asc") as [Hne _]; [simpl; tauto|].
  exact Hne.
Defined.

End BatchListFacts.

(* ===================================================================== *)
(** ** Properties of the header *)
(* ===================================================================== *)

Module HeaderFacts.
Import Header.

Lemma mount_Persisted (storage : Storage) :
  Persisted (mount storage initialState, storage).
Proof. reflexivity. Qed.

Lemma handle_Persisted (w : State * Storage) (e : Event) :
  match e with Toggle => True | ModeChange newMode => newMode <> "" end ->
  Persisted w -> Persisted (handle w e).
Proof.
  destruct w as [s storage]. unfold Persisted. cbn [fst snd].
  intros He Hw. destruct e as [|newMode]; cbn [handle toggleHeader handleModeChange
    fst snd]; unfold mount, Storage in *.
  - rewrite lookup_insert_eq. rewrite lookup_insert_ne by discriminate.
    f_equal.
    + by destruct (isHidden s).
    + rewrite <- Hw. reflexivity.
  - rewrite lookup_insert_eq. rewrite lookup_insert_ne by discriminate.
    destruct (String.eqb_spec newMode "") as [|_]; [contradiction|].
    f_equal. rewrite <- Hw. reflexivity.
Qed.

Lemma session_Persisted (events : list Event) (w : State * Storage) :
  modesNamed events -> Persisted w -> Persisted (fold_left handle events w).
Proof.
  revert w. induction events as [|e events IH]; intros w Hev Hw; [exact Hw|].
  apply List.Forall_cons_iff in Hev as [He Hev].
  simpl. apply IH; [exact Hev|]. by apply handle_Persisted.
Qed.

(** X26: the header survives a reload: after any sequence of toggles and
    mode changes (to modes that are not the empty string), mounting the
    component again on the storage left behind gives the same hidden flag
    and the same hide mode, and so the same class. *)
Theorem reload_restores (storage : Storage) (events : list Event) :
  modesNamed events ->
  let w := session storage events in
  session (snd w) [] = w
  /\ getHeaderClass (mount (snd w) initialState) = getHeaderClass (fst w).
Proof.
  intros Hev w.
  assert (Hw : Persisted w).
  { unfold w, session. apply session_Persisted; [exact Hev|].
    apply mount_Persisted. }
  unfold Persisted in Hw. split; [|by rewrite Hw].
  unfold session. cbn [fold_left]. rewrite Hw. by destruct w.
Qed.

Lemma reload_restores_witness :
  let w := session ∅ [Toggle; ModeChange "fade"; Toggle; Toggle] in
  fst w = {| isHidden := true; hideMode := "fade" |}
  /\ session (snd w) [] = w.
Proof.
  intros w. split; [reflexivity|].
  apply (reload_restores ∅ [Toggle; ModeChange "fade"; Toggle; Toggle]).
  repeat constructor; discriminate.
Defined.

End HeaderFacts.
